(** * ccheck: checkpoint hook -- exclusion policy, metadata store,
      shadow repository manager and hook handlers

    Shallow embedding of
      - src/lib/config.ts       (CheckpointConfig, GitCheckpointManager)
      - src/lib/logger.ts       (CheckpointMetadata)
      - src/checkpoint-manager.ts (handlePreToolUse, handlePostToolUse)

    Conventions.
      - A JavaScript string is a [string]; an [ascii] stands for one code
        unit.  No function below distinguishes code units above 127 from
        each other.
      - Paths follow the POSIX flavour of node's [path] module ([/] is the
        separator).
      - An ISO-8601 time stamp is kept as the number of milliseconds it
        denotes ([new Date(s).getTime()]); [toISOString] and the [Date]
        constructor are inverse to each other on the stamps the program
        writes.
      - The metadata document is a JS object of JS objects.  The outer
        object is a [gmap]; the inner object (one per project) is an
        association list in property order, because [Object.entries] feeds
        a stable sort.  Keys are check-point hashes, which are never array
        indices nor names inherited from [Object.prototype]. *)

From Stdlib Require Import ZArith String Ascii List Lia Sorting.Sorted Sorting.Permutation.
From stdpp Require Import gmap strings list fin_maps pretty.

Local Open Scope string_scope.
Local Open Scope Z_scope.

Set Warnings "-register-all".

(** ** JSON values and JavaScript truthiness *)

Inductive JSON : Type :=
| JNull
| JBool (b : bool)
| JNum (n : Z)
| JStr (s : string)
| JArr (l : list JSON)
| JObj (l : list (string * JSON)).

(** [ToBoolean] on the values JSON can carry. *)
Definition truthy (v : JSON) : bool :=
  match v with
  | JNull => false
  | JBool b => b
  | JNum n => negb (n =? 0)
  | JStr s => negb (String.eqb s "")
  | JArr _ | JObj _ => true
  end.

(** Own property of an object; the first binding of a key is the live one. *)
Fixpoint assoc {A : Type} (k : string) (l : list (string * A)) : option A :=
  match l with
  | [] => None
  | (k', v) :: l' => if String.eqb k' k then Some v else assoc k l'
  end.

(** [v.k] for a value [v] that is not [undefined] or [null]: primitives and
    arrays have no such own data property for the names used here. *)
Definition prop (k : string) (v : JSON) : option JSON :=
  match v with
  | JObj l => assoc k l
  | _ => None
  end.

(** [x || {}] on an optional value. *)
Definition or_else_obj (o : option JSON) : JSON :=
  match o with
  | Some v => if truthy v then v else JObj []
  | None => JObj []
  end.

(** [x || ''] on an optional string. *)
Definition or_empty (o : option string) : string :=
  match o with Some s => s | None => "" end.

(** Truthiness of an optional string property. *)
Definition nonempty (o : option string) : bool :=
  match o with
  | Some s => negb (String.eqb s "")
  | None => false
  end.

(** ** Strings and POSIX paths *)

Definition slash : ascii := "/"%char.

(** [s.split('/')]: every separator cuts, empty pieces are kept. *)
Fixpoint split_slash_aux (s : string) (cur : string) : list string :=
  match s with
  | EmptyString => [cur]
  | String c s' =>
      if Ascii.eqb c slash then cur :: split_slash_aux s' ""
      else split_slash_aux s' (cur ++ String c "")
  end.

Definition split_slash (s : string) : list string := split_slash_aux s "".

(** [parts.join('/')]. *)
Fixpoint join_slash (parts : list string) : string :=
  match parts with
  | [] => ""
  | [p] => p
  | p :: rest => p ++ "/" ++ join_slash rest
  end.

(** [s.split(/\/+/)]: a run of separators cuts once. *)
Fixpoint slashSplit_aux (s : string) (cur : string) (in_run : bool) : list string :=
  match s with
  | EmptyString => [cur]
  | String c s' =>
      if Ascii.eqb c slash then
        if in_run then slashSplit_aux s' "" true
        else cur :: slashSplit_aux s' "" true
      else slashSplit_aux s' (cur ++ String c "") false
  end.

Definition slashSplit (s : string) : list string := slashSplit_aux s "" false.

(** [path.isAbsolute]. *)
Definition isAbsolute (p : string) : bool :=
  match p with
  | String c _ => Ascii.eqb c slash
  | EmptyString => false
  end.

(** [path.basename]: the last non-empty component. *)
Definition basename (p : string) : string :=
  List.last (List.filter (fun s => negb (String.eqb s "")) (split_slash p)) "".

(** [path.join(dir, name)] for a directory without trailing separator. *)
Definition path_join (dir name : string) : string := dir ++ "/" ++ name.

Definition chars (s : string) : list ascii := list_ascii_of_string s.

(** ** Exclusion policy (class CheckpointConfig) *)

Module Config.

Record CheckpointConfig : Type := {
  enabled : bool;
  retention_days : Z;
  exclude_patterns : list string;
  max_file_size_mb : Z;
  checkpoint_on_stop : bool;
  auto_cleanup : bool
}.

Definition getDefaultConfig : CheckpointConfig := {|
  enabled := true;
  retention_days := 7;
  exclude_patterns :=
    ["*.log"; "node_modules/"; ".env"; "__pycache__/"; "*.tmp"; ".git/";
     "dist/"; "build/"; "coverage/"; "*.swp"; "*.swo"; ".DS_Store";
     "Thumbs.db"];
  max_file_size_mb := 100;
  checkpoint_on_stop := false;
  auto_cleanup := true
|}.

(** *** The glob matcher

    [minimatch(path, pattern, {dot: true})] of the npm package, for the
    patterns the configuration uses: path portions made of literal
    characters and [*].  (Braces, [**], [?], classes, extglobs and a
    leading [!] or [#] are outside this fragment.)

    The package cuts pattern and path at runs of [/] and compares portion
    by portion.  A portion with no [*] must be equal to the path portion.
    A portion with [*] becomes a regular expression in which [*] stands for
    any run of characters; it never matches the empty portion, nor [.] or
    [..] unless the pattern portion itself starts with a dot.  A pattern
    ending in [/] has a final empty portion, which only a path ending in
    [/] can meet; a path ending in [/] may have its final empty portion
    left over.  A portion [..], which the package cancels against a named
    portion before it, is outside this fragment as well. *)

Definition star : ascii := "*"%char.

Fixpoint glob (p : list ascii) : list ascii -> bool :=
  match p with
  | [] => fun s => match s with [] => true | _ => false end
  | c :: p' =>
      if Ascii.eqb c star then
        fix skip (s : list ascii) : bool :=
          glob p' s || match s with [] => false | _ :: s' => skip s' end
      else
        fun s => match s with
                 | [] => false
                 | d :: s' => Ascii.eqb c d && glob p' s'
                 end
  end.

Definition hasMagic (p : string) : bool :=
  existsb (fun c => Ascii.eqb c star) (chars p).

Definition starts_with_dot (p : string) : bool :=
  match p with
  | String c _ => Ascii.eqb c "."%char
  | EmptyString => false
  end.

Definition portion_match (p f : string) : bool :=
  if hasMagic p then
    negb (String.eqb f "")
    && (starts_with_dot p || negb (String.eqb f "." || String.eqb f ".."))
    && glob (chars p) (chars f)
  else String.eqb f p.

(** [matchOne(file, pattern, partial = false)]. *)
Fixpoint matchOne (file pattern : list string) : bool :=
  match file, pattern with
  | [], [] => true
  | [], _ :: _ => false
  | f :: rest, [] =>
      match rest with [] => String.eqb f "" | _ => false end
  | f :: file', p :: pattern' => portion_match p f && matchOne file' pattern'
  end.

Definition minimatch (path pattern : string) : bool :=
  matchOne (slashSplit path) (slashSplit pattern).

(** *** shouldExcludeFile *)

(** What [fs.existsSync] / [fs.statSync] report for a path. *)
Inductive FileStat : Type :=
| Absent
| StatFails
| Size (bytes : Z).

(** The inner loop: does some leading part of the path match? *)
Definition prefix_paths (relativePath : string) : list string :=
  let parts := split_slash relativePath in
  List.map (fun i => join_slash (firstn (S i) parts)) (seq 0 (length parts)).

Definition pattern_excludes (relativePath pattern : string) : bool :=
  minimatch relativePath pattern
  || existsb (fun partialPath => minimatch partialPath pattern)
       (prefix_paths relativePath).

Definition too_large (cfg : CheckpointConfig) (st : FileStat) : bool :=
  match st with
  | Size bytes => bytes >? max_file_size_mb cfg * 1024 * 1024
  | Absent | StatFails => false
  end.

(** [relative] is [path.relative(process.cwd(), _)]; [stat] the file
    system. *)
Definition shouldExcludeFile (cfg : CheckpointConfig)
    (relative : string -> string) (stat : string -> FileStat)
    (filePath : string) : bool :=
  let relativePath :=
    if isAbsolute filePath then relative filePath else filePath in
  if existsb (pattern_excludes relativePath) (exclude_patterns cfg) then true
  else too_large cfg (stat filePath).

End Config.

(** ** Shared types (types/index.ts) and the outside world *)

Inductive Status : Type := pending | success | failed.

Record Edit : Type := {
  edit_file_path : option string;
  old_string : option string;
  new_string : option string
}.

Record ToolInput : Type := {
  file_path : option string;
  edits : option (list Edit);
  message : option string;
  other_keys : list (string * JSON)
}.

Record CheckpointMetadata : Type := {
  timestamp : Z;
  tool_name : string;
  tool_input : ToolInput;
  session_id : string;
  status : Status;
  files_affected : list string;
  status_updated : option Z;
  tool_response : option JSON
}.

Record CheckpointData : Type := {
  hash : string;
  data : CheckpointMetadata
}.

Record GitResult : Type := {
  returncode : Z;
  stdout : string;
  stderr : string
}.

(** One call of [runGit]: the argument vector and the working directory. *)
Record GitCall : Type := {
  args : list string;
  cwd : string
}.

(** What the program asks of its surroundings, in the order it asks. *)
Inductive Event : Type :=
| EvGit (c : GitCall)
| EvPathExists (p : string)
| EvEnsureDir (p : string)
| EvSync (src dst : string).

Inductive Error : Type :=
| LockTimeout              (* Error('Timeout waiting for metadata lock') *)
| IOError (code : string)  (* a rejected fs call *)
| TypeError                (* e.g. "slice is not a function" *)
| OutOfFuel.               (* never produced, see [acquireLock_total] *)

(** Outcome of a call: a value, or a thrown exception. *)
Inductive Res (A : Type) : Type :=
| Ok (a : A)
| Throw (e : Error).
Arguments Ok {A} a.
Arguments Throw {A} e.

(** The persisted document [metadata.json]. *)
Inductive MetaFile : Type :=
| NoFile
| Garbled
| Json (doc : gmap string (list (string * CheckpointMetadata))).

(** The state the program shares with its surroundings.  [reclaimed] and
    [trace] are ghost logs: the lock markers deleted as stale (instant,
    mtime of the marker), and the external operations performed, newest
    first. *)
Record World : Type := {
  now : Z;
  timer_lag : Z -> N;
  lock : option Z;
  fault : option string;
  file : MetaFile;
  reclaimed : list (Z * Z);
  trace : list Event
}.

Definition set_now (t : Z) (w : World) : World :=
  {| now := t; timer_lag := timer_lag w; lock := lock w; fault := fault w;
     file := file w; reclaimed := reclaimed w; trace := trace w |}.

Definition set_lock (l : option Z) (w : World) : World :=
  {| now := now w; timer_lag := timer_lag w; lock := l; fault := fault w;
     file := file w; reclaimed := reclaimed w; trace := trace w |}.

Definition set_file (f : MetaFile) (w : World) : World :=
  {| now := now w; timer_lag := timer_lag w; lock := lock w; fault := fault w;
     file := f; reclaimed := reclaimed w; trace := trace w |}.

Definition log_reclaim (e : Z * Z) (w : World) : World :=
  {| now := now w; timer_lag := timer_lag w; lock := lock w; fault := fault w;
     file := file w; reclaimed := e :: reclaimed w; trace := trace w |}.

Definition log_event (e : Event) (w : World) : World :=
  {| now := now w; timer_lag := timer_lag w; lock := lock w; fault := fault w;
     file := file w; reclaimed := reclaimed w; trace := e :: trace w |}.

(** [setTimeout(resolve, d)]: the timer fires [d] ms later, or later. *)
Definition sleep (d : Z) (w : World) : World :=
  set_now (now w + d + Z.of_N (timer_lag w (now w))) w.

(** ** Stable sort, newest first

    [xs.sort((a, b) => time(b) - time(a))]: [Array.prototype.sort] is stable,
    so entries with equal stamps keep their relative order. *)

Section Sort.
Context {A : Type} (key : A -> Z).

Fixpoint insert_desc (x : A) (l : list A) : list A :=
  match l with
  | [] => [x]
  | y :: l' => if key x <? key y then y :: insert_desc x l' else x :: l
  end.

Fixpoint sort_desc (l : list A) : list A :=
  match l with
  | [] => []
  | x :: l' => insert_desc x (sort_desc l')
  end.

End Sort.

(** [xs.slice(k)]: a negative [k] counts from the end. *)
Definition js_slice_from {A : Type} (k : Z) (l : list A) : list A :=
  if k <? 0 then skipn (Z.to_nat (Z.max (Z.of_nat (length l) + k) 0)) l
  else skipn (Z.to_nat k) l.

(** [xs.slice(0, n)] for a literal [n >= 0]. *)
Definition js_slice_to {A : Type} (n : nat) (l : list A) : list A := firstn n l.

(** ** Metadata store (class CheckpointMetadata) *)

Module Metadata.

(** [obj[k] = v]: an existing property keeps its place, a new one goes
    last.  This is the order in which JS lists the properties whose names
    are no array indices, such as the 40 hexadecimal digits of a commit
    hash; a name that is an array index would be listed before them. *)
Fixpoint obj_set {A : Type} (k : string) (v : A) (l : list (string * A))
  : list (string * A) :=
  match l with
  | [] => [(k, v)]
  | (k', v') :: l' =>
      if String.eqb k' k then (k, v) :: l' else (k', v') :: obj_set k v l'
  end.

(** [delete obj[k]]. *)
Definition obj_delete {A : Type} (k : string) (l : list (string * A))
  : list (string * A) :=
  List.filter (fun e => negb (String.eqb (fst e) k)) l.

Definition waitInterval : Z := 50.
Definition staleAfter : Z := 10000.
Definition defaultMaxWait : Z := 5000.

(** The [while (true)] of [acquireLock] with [n] rounds of fuel.  In one
    round: [ensureDir] / [open(lockFile, 'wx')] either succeed (marker
    created, stamped with the current instant), fail with a code other than
    EEXIST (rethrown), or fail with EEXIST.  In the last case, once
    [maxWaitTime] is exceeded the marker's age decides between deleting it
    and retrying, or the time-out error; before that the round ends in a
    50 ms sleep.  No other process touches the marker meanwhile.  [fault]
    holds a code other than EEXIST: the source takes every EEXIST, also one
    of [ensureDir], for a marker in place. *)
Fixpoint acquireLock_loop (n : nat) (maxWaitTime startTime : Z) (w : World)
  : Res unit * World :=
  match n with
  | O => (Throw OutOfFuel, w)
  | S n' =>
      match fault w with
      | Some code => (Throw (IOError code), w)
      | None =>
          match lock w with
          | None => (Ok tt, set_lock (Some (now w)) w)
          | Some mtimeMs =>
              if now w - startTime >? maxWaitTime then
                if now w - mtimeMs >? staleAfter then
                  acquireLock_loop n' maxWaitTime startTime
                    (log_reclaim (now w, mtimeMs) (set_lock None w))
                else (Throw LockTimeout, w)
              else
                acquireLock_loop n' maxWaitTime startTime (sleep waitInterval w)
          end
      end
  end.

(** Rounds that always suffice: one per 50 ms of waiting, the round that
    sees the deadline passed, and the round after a reclaim. *)
Definition rounds (maxWaitTime : Z) : nat :=
  Z.to_nat (maxWaitTime / waitInterval) + 3.

Definition acquireLock_for (maxWaitTime : Z) (w : World) : Res unit * World :=
  acquireLock_loop (rounds maxWaitTime) maxWaitTime (now w) w.

Definition acquireLock (w : World) : Res unit * World :=
  acquireLock_for defaultMaxWait w.

(** [unlink(lockFile)], errors ignored. *)
Definition releaseLock (w : World) : World := set_lock None w.

(** A missing or unreadable document reads as [{}]. *)
Definition loadMetadata (w : World) : gmap string (list (string * CheckpointMetadata)) :=
  match file w with
  | Json doc => doc
  | NoFile | Garbled => ∅
  end.

(** Write to a temporary file, then rename over the document. *)
Definition saveMetadata (metadata : gmap string (list (string * CheckpointMetadata))) (w : World)
  : Res unit * World :=
  match fault w with
  | Some code => (Throw (IOError code), w)
  | None => (Ok tt, set_file (Json metadata) w)
  end.

Definition is_edit_tool (toolName : string) : bool :=
  String.eqb toolName "Write" || String.eqb toolName "Edit"
  || String.eqb toolName "MultiEdit".

Definition extractFiles (toolName : string) (toolInput : ToolInput)
  : list string :=
  if is_edit_tool toolName then
    if nonempty (file_path toolInput) then [or_empty (file_path toolInput)]
    else
      match edits toolInput with
      | Some es =>
          flat_map (fun e => if nonempty (edit_file_path e)
                             then [or_empty (edit_file_path e)] else []) es
      | None => []
      end
  else [].

Definition project_of (metadata : gmap string (list (string * CheckpointMetadata))) (projectHash : string)
  : list (string * CheckpointMetadata) :=
  match metadata !! projectHash with
  | Some p => p
  | None => []
  end.

Definition addCheckpoint (projectHash checkpointHash toolName : string)
    (toolInput : ToolInput) (sessionId : string) (w : World)
  : Res CheckpointMetadata * World :=
  match acquireLock w with
  | (Throw e, w1) => (Throw e, w1)
  | (Ok _, w1) =>
      let metadata := loadMetadata w1 in
      let checkpointData := {|
        timestamp := now w1;
        tool_name := toolName;
        tool_input := toolInput;
        session_id := sessionId;
        status := pending;
        files_affected := extractFiles toolName toolInput;
        status_updated := None;
        tool_response := None |} in
      let metadata' :=
        <[projectHash :=
            obj_set checkpointHash checkpointData
              (project_of metadata projectHash)]> metadata in
      match saveMetadata metadata' w1 with
      | (Ok _, w2) => (Ok checkpointData, releaseLock w2)
      | (Throw e, w2) => (Throw e, releaseLock w2)
      end
  end.

Definition responded (toolResponse : option JSON) : bool :=
  match toolResponse with
  | Some v => truthy v
  | None => false
  end.

Definition with_status (s : Status) (t : Z) (toolResponse : option JSON)
    (d : CheckpointMetadata) : CheckpointMetadata := {|
  timestamp := timestamp d;
  tool_name := tool_name d;
  tool_input := tool_input d;
  session_id := session_id d;
  status := s;
  files_affected := files_affected d;
  status_updated := Some t;
  tool_response :=
    if responded toolResponse then toolResponse else tool_response d |}.

Definition updateCheckpointStatus (projectHash checkpointHash : string)
    (s : Status) (toolResponse : option JSON) (w : World)
  : Res unit * World :=
  match acquireLock w with
  | (Throw e, w1) => (Throw e, w1)
  | (Ok _, w1) =>
      let metadata := loadMetadata w1 in
      match metadata !! projectHash with
      | Some p =>
          match assoc checkpointHash p with
          | Some d =>
              let p' :=
                obj_set checkpointHash (with_status s (now w1) toolResponse d) p in
              match saveMetadata (<[projectHash := p']> metadata) w1 with
              | (r, w2) => (r, releaseLock w2)
              end
          | None => (Ok tt, releaseLock w1)
          end
      | None => (Ok tt, releaseLock w1)
      end
  end.

Definition getCheckpointMetadata (projectHash checkpointHash : string)
    (w : World) : option CheckpointMetadata :=
  match loadMetadata w !! projectHash with
  | Some p => assoc checkpointHash p
  | None => None
  end.

Definition entry_time (e : string * CheckpointMetadata) : Z :=
  timestamp (snd e).

Definition data_time (c : CheckpointData) : Z := timestamp (data c).

Definition listProjectCheckpoints (projectHash : string) (w : World)
  : list CheckpointData :=
  match loadMetadata w !! projectHash with
  | None => []
  | Some p =>
      sort_desc data_time
        (List.map (fun e => {| hash := fst e; data := snd e |}) p)
  end.

Definition cleanupOldMetadata (projectHash : string) (keepCount : Z)
    (w : World) : Res unit * World :=
  match acquireLock w with
  | (Throw e, w1) => (Throw e, w1)
  | (Ok _, w1) =>
      let metadata := loadMetadata w1 in
      match metadata !! projectHash with
      | None => (Ok tt, releaseLock w1)
      | Some p =>
          let checkpoints := sort_desc entry_time p in
          if Z.of_nat (length checkpoints) >? keepCount then
            let p' :=
              fold_left (fun acc e => obj_delete (fst e) acc)
                (js_slice_from keepCount checkpoints) p in
            match saveMetadata (<[projectHash := p']> metadata) w1 with
            | (r, w2) => (r, releaseLock w2)
            end
          else (Ok tt, releaseLock w1)
      end
  end.

End Metadata.

(** ** Shadow repository manager (class GitCheckpointManager) *)

Module GitOps.

(** The surroundings the manager talks to.  Every answer may depend on all
    that was asked before ([list Event], newest first).
      - [engine]: the version-control engine behind [runGit]; [runGit]
        itself never throws, it folds a failed spawn into the result.
      - [pathExists], [ensureDir], [syncTree]: fs-extra; [Some code] is a
        rejection.  [syncTree] is [syncFiles] taken as a whole.
      - [toISOString], [stringify] ([JSON.stringify(v)]), [stringify2]
        ([JSON.stringify(v, null, 2)]), [byteLength]
        ([Buffer.byteLength(s, 'utf8')]): platform functions. *)
Record Env : Type := {
  engine : list Event -> GitCall -> GitResult;
  pathExists : list Event -> string -> bool;
  ensureDir : list Event -> string -> option string;
  syncTree : list Event -> string -> string -> option string;
  toISOString : Z -> string;
  stringify : JSON -> string;
  stringify2 : JSON -> string;
  byteLength : string -> Z
}.

(** The fields the constructor computes. *)
Record Manager : Type := {
  projectPath : string;
  projectHash : string;
  checkpointRepo : string
}.

Record Checkpoint : Type := {
  cp_hash : string;
  cp_timestamp : Z;
  cp_message : string;
  cp_tool_name : string;
  cp_session_id : string;
  cp_files_affected : list string
}.

Definition worktreePath (m : Manager) : string :=
  path_join (checkpointRepo m) "worktree".

Definition hex_digits : list ascii := chars "0123456789abcdefABCDEF".

(** One character of the class [a-f0-9] under the [i] flag. *)
Definition is_hex (c : ascii) : bool := existsb (Ascii.eqb c) hex_digits.

(** [/^[a-f0-9]{1,40}$/i.test(checkpointHash)], after the emptiness guard. *)
Definition validateCheckpointHash (checkpointHash : string) : bool :=
  if String.eqb checkpointHash "" then false
  else forallb is_hex (chars checkpointHash)
       && (1 <=? length (chars checkpointHash))%nat
       && (length (chars checkpointHash) <=? 40)%nat.

Definition maxMetadataBytes : Z := 1024 * 1024.

Definition validateMetadataSize (E : Env) (metadata : JSON) : bool :=
  byteLength E (stringify E metadata) <=? maxMetadataBytes.

Definition runGit (E : Env) (a : list string) (dir : string) (w : World)
  : GitResult * World :=
  let c := {| args := a; cwd := dir |} in
  (engine E (trace w) c, log_event (EvGit c) w).

Definition doPathExists (E : Env) (p : string) (w : World) : bool * World :=
  (pathExists E (trace w) p, log_event (EvPathExists p) w).

Definition doEnsureDir (E : Env) (p : string) (w : World)
  : option string * World :=
  (ensureDir E (trace w) p, log_event (EvEnsureDir p) w).

Definition syncFiles (E : Env) (src dst : string) (w : World)
  : option string * World :=
  (syncTree E (trace w) src dst, log_event (EvSync src dst) w).

Definition isGitRepo (E : Env) (m : Manager) (w : World) : bool * World :=
  let (result, w1) := runGit E ["rev-parse"; "--git-dir"] (projectPath m) w in
  (returncode result =? 0, w1).

Definition initProjectRepo (E : Env) (m : Manager) (w : World)
  : bool * World :=
  let (isRepo, w1) := isGitRepo E m w in
  if isRepo then (true, w1)
  else
    let (result, w2) := runGit E ["init"] (projectPath m) w1 in
    if negb (returncode result =? 0) then (false, w2)
    else
      let (_, w3) := runGit E ["add"; "-A"] (projectPath m) w2 in
      let (_, w4) :=
        runGit E ["commit"; "-m"; "Initial checkpoint commit"]
          (projectPath m) w3 in
      (true, w4).

Definition initCheckpointRepo (E : Env) (m : Manager) (w : World)
  : bool * World :=
  let (present, w1) := doPathExists E (checkpointRepo m) w in
  if present then (true, w1)
  else
    match doEnsureDir E (checkpointRepo m) w1 with
    | (Some _, w2) => (false, w2)
    | (None, w2) =>
        let (result, w3) := runGit E ["init"; "--bare"] (checkpointRepo m) w2 in
        if negb (returncode result =? 0) then (false, w3)
        else
          let (hasTree, w4) := doPathExists E (worktreePath m) w3 in
          if hasTree then (true, w4)
          else
            let (isRepo, w5) := isGitRepo E m w4 in
            if isRepo then
              let (_, w6) :=
                runGit E ["clone"; projectPath m; worktreePath m]
                  (projectPath m) w5 in
              (true, w6)
            else
              match doEnsureDir E (worktreePath m) w5 with
              | (Some _, w6) => (false, w6)
              | (None, w6) =>
                  let (_, w7) := runGit E ["init"] (worktreePath m) w6 in
                  (true, w7)
              end
    end.

(** [x || d] on a property that may be missing. *)
Definition or_else (o : option JSON) (d : JSON) : JSON :=
  match o with
  | Some v => if truthy v then v else d
  | None => d
  end.

(** The replacement payload.  [(metadata.files || []).slice(0, 10)] is the
    array or string method; any other truthy value has no [slice]. *)
Definition essential (metadata : JSON) : Res JSON :=
  let tool := or_else (prop "tool_name" metadata) (JStr "") in
  let session := or_else (prop "session_id" metadata) (JStr "") in
  match or_else (prop "files" metadata) (JArr []) with
  | JArr l =>
      Ok (JObj [("tool_name", tool); ("session_id", session);
                ("files", JArr (js_slice_to 10 l))])
  | JStr s =>
      Ok (JObj [("tool_name", tool); ("session_id", session);
                ("files", JStr (substring 0 10 s))])
  | _ => Throw TypeError
  end.

Definition is_space (c : ascii) : bool :=
  existsb (Ascii.eqb c)
    [" "%char; "009"%char; "010"%char; "011"%char; "012"%char; "013"%char].

Fixpoint trim_start (s : string) : string :=
  match s with
  | String c s' => if is_space c then trim_start s' else s
  | EmptyString => EmptyString
  end.

(** [s.trim()] on the ASCII text the engine prints: of the white space
    that JS trims, the six ASCII characters. *)
Definition trim (s : string) : string :=
  String.rev (trim_start (String.rev (trim_start s))).

Definition commitMessage (E : Env) (message : string) (w : World) : string :=
  "CHECKPOINT: " ++ message ++ " [" ++ toISOString E (now w) ++ "]".

(** The body of the [try] of [createCheckpoint]; a rejected [syncFiles] is
    caught and turned into [null]. *)
Definition commitTree (E : Env) (m : Manager) (message : string)
    (metadata : JSON) (w : World) : option string * World :=
  match syncFiles E (projectPath m) (worktreePath m) w with
  | (Some _, w1) => (None, w1)
  | (None, w1) =>
      let (_, w2) := runGit E ["add"; "-A"] (worktreePath m) w1 in
      let (result, w3) :=
        runGit E ["commit"; "-m"; commitMessage E message w2; "--allow-empty"]
          (worktreePath m) w2 in
      if negb (returncode result =? 0) then (None, w3)
      else
        let (hashResult, w4) :=
          runGit E ["rev-parse"; "HEAD"] (worktreePath m) w3 in
        if negb (returncode hashResult =? 0) then (None, w4)
        else
          let commitHash := trim (stdout hashResult) in
          let (_, w5) :=
            runGit E ["notes"; "add"; "-m"; stringify2 E metadata; commitHash]
              (worktreePath m) w4 in
          let (_, w6) := runGit E ["checkout"; "main"] (worktreePath m) w5 in
          (Some commitHash, w6)
  end.

Definition createCheckpoint (E : Env) (m : Manager) (message : string)
    (metadata : JSON) (w : World) : Res (option string) * World :=
  let (ready, w1) := initCheckpointRepo E m w in
  if negb ready then (Ok None, w1)
  else
    let attached :=
      if validateMetadataSize E metadata then Ok metadata
      else essential metadata in
    match attached with
    | Throw e => (Throw e, w1)
    | Ok metadata' =>
        let (r, w2) := commitTree E m message metadata' w1 in (Ok r, w2)
    end.

Definition includes (needle s : string) : bool :=
  match index 0 needle s with Some _ => true | None => false end.

(** [s.replace(needle, '')]: the first occurrence only. *)
Definition remove_first (needle s : string) : string :=
  match index 0 needle s with
  | Some i =>
      substring 0 i s
      ++ substring (i + String.length needle)
           (String.length s - (i + String.length needle)) s
  | None => s
  end.

Definition cleanMessage (message : string) : string :=
  if includes "CHECKPOINT:" message then
    let message1 := remove_first "CHECKPOINT: " message in
    match index 0 "[" message1 with
    | Some bracketIndex => trim (substring 0 bracketIndex message1)
    | None => message1
    end
  else message.


(** The [for] loop of [listCheckpoints]. *)
Fixpoint collect (E : Env) (m : Manager) (cps : list CheckpointData)
    (w : World) : list Checkpoint * World :=
  match cps with
  | [] => ([], w)
  | cp :: rest =>
      let (result, w1) := runGit E ["rev-parse"; hash cp] (worktreePath m) w in
      if returncode result =? 0 then
        let (msgResult, w2) :=
          runGit E ["log"; "-1"; "--pretty=format:%s"; hash cp]
            (worktreePath m) w1 in
        let message :=
          if returncode msgResult =? 0 then trim (stdout msgResult)
          else "Unknown" in
        let c := {|
          cp_hash := hash cp;
          cp_timestamp := timestamp (data cp);
          cp_message := cleanMessage message;
          cp_tool_name := tool_name (data cp);
          cp_session_id := session_id (data cp);
          cp_files_affected := files_affected (data cp) |} in
        let (found, w3) := collect E m rest w2 in
        (c :: found, w3)
      else collect E m rest w1
  end.

Definition listCheckpoints (E : Env) (m : Manager) (w : World)
  : list Checkpoint * World :=
  let (present, w1) := doPathExists E (checkpointRepo m) w in
  if negb present then ([], w1)
  else collect E m (Metadata.listProjectCheckpoints (projectHash m) w1) w1.

Definition restoreCheckpoint (E : Env) (m : Manager)
    (checkpointHash : string) (dryRun : bool) (w : World) : bool * World :=
  let (present, w1) := doPathExists E (checkpointRepo m) w in
  if negb present then (false, w1)
  else if negb (validateCheckpointHash checkpointHash) then (false, w1)
  else
    let (result, w2) :=
      runGit E ["checkout"; checkpointHash] (worktreePath m) w1 in
    if negb (returncode result =? 0) then (false, w2)
    else if dryRun then (true, w2)
    else
      match syncFiles E (worktreePath m) (projectPath m) w2 with
      | (Some _, w3) => (false, w3)
      | (None, w3) =>
          let (_, w4) := runGit E ["checkout"; "main"] (worktreePath m) w3 in
          (true, w4)
      end.

(** The engine commands issued so far, newest first. *)
Definition git_calls (w : World) : list GitCall :=
  flat_map (fun e => match e with EvGit c => [c] | _ => [] end) (trace w).

End GitOps.

(** ** Hook handlers (checkpoint-manager.ts) *)

Module Hook.

Record HookInput : Type := {
  tool_name : option string;
  tool_input : option ToolInput;
  session_id : option string;
  tool_response : option JSON
}.

(** What a handler finds around it: the loaded configuration, node's
    [path.resolve] and [path.relative(process.cwd(), _)], the file system
    seen by [shouldExcludeFile], the manager built for [process.cwd()] and
    its surroundings. *)
Record Site : Type := {
  config : Config.CheckpointConfig;
  resolve : string -> string;
  relative : string -> string;
  stat : string -> Config.FileStat;
  manager : GitOps.Manager;
  env : GitOps.Env
}.

Definition noInput : ToolInput :=
  {| file_path := None; edits := None; message := None; other_keys := [] |}.

Definition preTools : list string := ["Write"; "Edit"; "MultiEdit"; "Manual"].
Definition postTools : list string := ["Write"; "Edit"; "MultiEdit"].

Definition member (x : string) (l : list string) : bool :=
  existsb (String.eqb x) l.

Definition editCount (toolInput : ToolInput) : nat :=
  match edits toolInput with Some es => length es | None => 0%nat end.

Definition describe (toolName : string) (toolInput : ToolInput) : string :=
  let named := nonempty (file_path toolInput) in
  let filename := basename (or_empty (file_path toolInput)) in
  if String.eqb toolName "Write" then
    if named then "Before creating " ++ filename
    else "Before creating new file"
  else if String.eqb toolName "Edit" then
    if named then "Before editing " ++ filename else "Before editing file"
  else if String.eqb toolName "MultiEdit" then
    if named then
      "Before " ++ pretty (editCount toolInput) ++ " edits to " ++ filename
    else "Before multi-edit operation"
  else if String.eqb toolName "Manual" then
    if nonempty (message toolInput) then or_empty (message toolInput)
    else "Manual checkpoint"
  else "Before " ++ toolName ++ " operation".

Definition excluded (S : Site) (toolInput : ToolInput) : bool :=
  nonempty (file_path toolInput)
  && Config.shouldExcludeFile (config S) (relative S) (stat S)
       (resolve S (or_empty (file_path toolInput))).

Definition annotation (toolName sessionId : string) (toolInput : ToolInput)
  : JSON :=
  JObj [("tool_name", JStr toolName); ("session_id", JStr sessionId);
        ("files",
         JArr (if nonempty (file_path toolInput)
               then [JStr (or_empty (file_path toolInput))] else []))].

(** From "Create checkpoint with descriptive message" to the end. *)
Definition checkpointAndRecord (S : Site) (toolName : string)
    (toolInput : ToolInput) (sessionId : string) (w : World)
  : Res Z * World :=
  match GitOps.createCheckpoint (env S) (manager S)
          (describe toolName toolInput)
          (annotation toolName sessionId toolInput) w with
  | (Throw e, w1) => (Throw e, w1)
  | (Ok None, w1) => (Ok 0, w1)
  | (Ok (Some checkpointHash), w1) =>
      if String.eqb checkpointHash "" then (Ok 0, w1)
      else
        match Metadata.addCheckpoint (GitOps.projectHash (manager S))
                checkpointHash toolName toolInput sessionId w1 with
        | (Throw e, w2) => (Throw e, w2)
        | (Ok _, w2) => (Ok 0, w2)
        end
  end.

Definition handlePreToolUse (S : Site) (inputData : HookInput) (w : World)
  : Res Z * World :=
  if negb (Config.enabled (config S)) then (Ok 0, w)
  else
    let toolName := or_empty (tool_name inputData) in
    let toolInput :=
      match tool_input inputData with Some i => i | None => noInput end in
    let sessionId := or_empty (session_id inputData) in
    if negb (member toolName preTools) then (Ok 0, w)
    else if excluded S toolInput then (Ok 0, w)
    else
      let (isRepo, w1) := GitOps.isGitRepo (env S) (manager S) w in
      if isRepo then checkpointAndRecord S toolName toolInput sessionId w1
      else
        let (made, w2) := GitOps.initProjectRepo (env S) (manager S) w1 in
        if negb made then (Ok 0, w2)
        else checkpointAndRecord S toolName toolInput sessionId w2.

(** [inputData.tool_response || {}]. *)
Definition responseOf (inputData : HookInput) : JSON :=
  or_else_obj (tool_response inputData).

Definition outcome (toolResponse : JSON) : Status :=
  match prop "success" toolResponse with
  | Some (JBool false) => failed
  | _ => success
  end.

Definition handlePostToolUse (S : Site) (inputData : HookInput) (w : World)
  : Res Z * World :=
  if negb (Config.enabled (config S)) then (Ok 0, w)
  else
    let toolName := or_empty (tool_name inputData) in
    let toolResponse := responseOf inputData in
    if negb (member toolName postTools) then (Ok 0, w)
    else
      match Metadata.listProjectCheckpoints
              (GitOps.projectHash (manager S)) w with
      | [] => (Ok 0, w)
      | latestCheckpoint :: _ =>
          match Metadata.updateCheckpointStatus
                  (GitOps.projectHash (manager S)) (hash latestCheckpoint)
                  (outcome toolResponse) (Some toolResponse) w with
          | (Throw e, w1) => (Throw e, w1)
          | (Ok _, w1) => (Ok 0, w1)
          end
      end.

End Hook.

(** ** Metadata queries (class CheckpointMetadata, continued) *)

Module Queries.

(** [files.includes(x)]. *)
Definition includes_file (x : string) (files : list string) : bool :=
  existsb (String.eqb x) files.

Definition findCheckpointsByFile (projectHash filePath : string) (w : World)
  : list CheckpointData :=
  List.filter
    (fun checkpoint => includes_file filePath (files_affected (data checkpoint)))
    (Metadata.listProjectCheckpoints projectHash w).

(** [fileCounts[file] = (fileCounts[file] || 0) + 1], for a [file] that is
    not the name of a member inherited from [Object.prototype] (there
    [fileCounts[file]] is that member, not [undefined]). *)
Definition bump (fileCounts : list (string * Z)) (file : string)
  : list (string * Z) :=
  Metadata.obj_set file
    (match assoc file fileCounts with Some n => n | None => 0 end + 1)
    fileCounts.

(** The two nested [for] loops of [getMostModifiedFiles]. *)
Definition tally (checkpoints : list CheckpointData) : list (string * Z) :=
  fold_left
    (fun fileCounts checkpoint =>
       fold_left bump (files_affected (data checkpoint)) fileCounts)
    checkpoints [].

Definition getMostModifiedFiles (checkpoints : list CheckpointData)
    (limit : nat) : list (string * Z) :=
  js_slice_to limit (sort_desc snd (tally checkpoints)).

Definition has_status (s : Status) (c : CheckpointData) : bool :=
  match status (data c), s with
  | pending, pending | success, success | failed, failed => true
  | _, _ => false
  end.

(** [checkpoints.filter((c) => c.status === s).length]. *)
Definition count_status (s : Status) (checkpoints : list CheckpointData)
  : nat :=
  length (List.filter (has_status s) checkpoints).

Definition count_success := count_status success.
Definition count_failed := count_status failed.
Definition count_pending := count_status pending.

Record ProjectStats : Type := {
  total_checkpoints : nat;
  successful : nat;
  failed : nat;
  pending : nat;
  most_modified_files : option (list (string * Z));
  latest_checkpoint : option Z
}.

Definition getProjectStats (projectHash : string) (w : World)
  : ProjectStats :=
  let checkpoints := Metadata.listProjectCheckpoints projectHash w in
  match checkpoints with
  | [] =>
      {| total_checkpoints := 0; successful := 0; failed := 0; pending := 0;
         most_modified_files := None; latest_checkpoint := None |}
  | first :: _ =>
      {| total_checkpoints := length checkpoints;
         successful := count_success checkpoints;
         failed := count_failed checkpoints;
         pending := count_pending checkpoints;
         most_modified_files := Some (getMostModifiedFiles checkpoints 5);
         latest_checkpoint := Some (timestamp (data first)) |}
  end.

End Queries.

(** ** Shadow repository manager, continued: diff and tree copy *)

Module Diff.

Definition getCheckpointDiff (E : GitOps.Env) (m : GitOps.Manager)
    (checkpointHash : option string) (w : World) : Res string * World :=
  let (present, w1) := GitOps.doPathExists E (GitOps.checkpointRepo m) w in
  if negb present then (Ok "", w1)
  else if nonempty checkpointHash
          && negb (GitOps.validateCheckpointHash (or_empty checkpointHash))
  then
    (Ok ("Error: Invalid checkpoint hash format: " ++ or_empty checkpointHash),
     w1)
  else
    match GitOps.syncFiles E (GitOps.projectPath m) (GitOps.worktreePath m)
            w1 with
    | (Some code, w2) => (Throw (IOError code), w2)
    | (None, w2) =>
        let target :=
          if nonempty checkpointHash then or_empty checkpointHash
          else "HEAD" in
        let (result, w3) :=
          GitOps.runGit E ["diff"; target; "--stat"] (GitOps.worktreePath m)
            w2 in
        (Ok (if returncode result =? 0 then stdout result else ""), w3)
    end.

End Diff.

Module Sync.

Definition newline : ascii := "010"%char.

(** [content.split('\n')]. *)
Fixpoint split_lines_aux (s : string) (cur : string) : list string :=
  match s with
  | EmptyString => [cur]
  | String c s' =>
      if Ascii.eqb c newline then cur :: split_lines_aux s' ""
      else split_lines_aux s' (cur ++ String c "")
  end.

Definition split_lines (s : string) : list string := split_lines_aux s "".

(** The lines of [.gitignore] that [syncFiles] keeps. *)
Definition gitignorePatterns (content : string) : list string :=
  List.filter
    (fun line => negb (String.eqb line "") && negb (String.prefix "#" line))
    (split_lines content).

(** The [filter] handed to [fse.copy]: [relativePath] is
    [path.relative(src, srcPath)], [base] is [path.basename(srcPath)]. *)
Definition copyFilter (patterns : list string) (relativePath base : string)
  : bool :=
  if Config.starts_with_dot base && negb (String.eqb base ".gitignore")
  then false
  else
    negb (existsb
            (fun pattern =>
               negb (String.eqb pattern "")
               && GitOps.includes (GitOps.trim pattern) relativePath)
            patterns).

End Sync.

(** ** The entry point (checkpoint-manager.ts, continued) *)

Module Entry.


End Entry.

(** ** The command line (runGit, continued) *)

Module Shell.

(** [`git ${args.join(' ')}`], the text [runGit] hands to [exec], which
    passes it to the shell. *)
Definition commandLine (a : list string) : string :=
  "git " ++ String.concat " " a.

End Shell.

(** ** The log file (class Logger) *)

Module Log.

(** What [fs.statSync] tells of a file: its size in bytes and the instant
    of its last modification. *)
Record Stats : Type := { size : Z; mtime : Z }.

(** The log directory: the names in it, each with its stats. *)
Definition Dir : Type := list (string * Stats).

(** [path.basename(this.logFile)]. *)
Definition logFile : string := "checkpoint.log".

Definition maxLogSize : Z := 10 * 1024 * 1024.

(** The first file-system call of a rotation that throws, if any; the
    [try] block ends there.  [AtSort] is a failing [statSync] in the
    comparator, [AtUnlink k] a failing [unlinkSync] after [k] good ones. *)
Inductive Fault : Type :=
| NoFault
| AtStat
| AtRename
| AtReaddir
| AtSort
| AtUnlink (k : nat).

(** [s.endsWith(suffix)]. *)
Definition endsWith (s suffix : string) : bool :=
  String.prefix (String.rev suffix) (String.rev s).

(** [f.startsWith(path.basename(this.logFile)) && f.endsWith('.old')]. *)
Definition isBackup (f : string) : bool :=
  String.prefix logFile f && endsWith f ".old".

(** [`${this.logFile}.${Date.now()}.old`], within the log directory. *)
Definition backupPath (nowMs : Z) : string :=
  logFile ++ "." ++ pretty nowMs ++ ".old".

(** [fs.renameSync(old, new)] of a file with stats [stats]: a file already
    at [new] is replaced. *)
Definition renameSync (old new : string) (stats : Stats) (d : Dir) : Dir :=
  (new, stats) :: Metadata.obj_delete new (Metadata.obj_delete old d).

(** [readdir] is [fs.readdirSync] with the stats of each name attached: the
    entries of the directory in the order the system lists them. *)
Definition rotateLogIfNeeded (readdir : Dir -> Dir) (fault : Fault)
    (nowMs : Z) (d : Dir) : Dir :=
  match assoc logFile d with
  | None => d
  | Some stats =>
      match fault with
      | AtStat => d
      | _ =>
          if size stats >? maxLogSize then
            match fault with
            | AtRename => d
            | _ =>
                let d1 := renameSync logFile (backupPath nowMs) stats d in
                match fault with
                | AtReaddir | AtSort => d1
                | _ =>
                    let backupFiles :=
                      sort_desc (fun f => mtime (snd f))
                        (List.filter (fun f => isBackup (fst f))
                           (readdir d1)) in
                    if (3 <? length backupFiles)%nat then
                      let doomed := js_slice_from 3 backupFiles in
                      fold_left (fun acc f => Metadata.obj_delete (fst f) acc)
                        (match fault with
                         | AtUnlink k => firstn k doomed
                         | _ => doomed
                         end)
                        d1
                    else d1
                end
            end
          else d
      end
  end.

(** [`[${timestamp}] [${level}] ${message}\n`]. *)
Definition formatMessage (timestamp level message : string) : string :=
  "[" ++ timestamp ++ "] [" ++ level ++ "] " ++ message
  ++ String "010"%char "".

(** [fs.appendFileSync(name, data)] at instant [t], the data being [bytes]
    long: a missing file is created. *)
Definition appendFileSync (name : string) (bytes t : Z) (d : Dir) : Dir :=
  match assoc name d with
  | Some stats =>
      Metadata.obj_set name {| size := size stats + bytes; mtime := t |} d
  | None => Metadata.obj_set name {| size := bytes; mtime := t |} d
  end.

(** [write(level, message)]: [appendFails] tells whether [appendFileSync]
    throws (the error is swallowed); [t] is the instant of the append. *)
Definition write (readdir : Dir -> Dir) (byteLength : string -> Z)
    (fault : Fault) (appendFails : bool) (nowMs t : Z)
    (timestamp level message : string) (d : Dir) : Dir :=
  let d1 := rotateLogIfNeeded readdir fault nowMs d in
  if appendFails then d1
  else
    appendFileSync logFile
      (byteLength (formatMessage timestamp level message)) t d1.

End Log.

(** * Vocabulary of the statements *)

Section LockWords.
Import Metadata.

(** Rounds needed when [r] ms of the bounded wait remain. *)
Definition rounds_left (r : Z) : nat :=
  if r <? 0 then 2%nat else (Z.to_nat (r / waitInterval) + 3)%nat.

(** The polling phase on its own: sleep until the wait has elapsed. *)
Fixpoint poll (n : nat) (maxWaitTime startTime : Z) (w : World) : World :=
  match n with
  | O => w
  | S n' =>
      if now w - startTime >? maxWaitTime then w
      else poll n' maxWaitTime startTime (sleep waitInterval w)
  end.

(** The world once the stale marker with stamp [m] has been replaced by
    ours. *)
Definition reclaim (m : Z) (w : World) : World :=
  set_lock (Some (now w)) (log_reclaim (now w, m) (set_lock None w)).

(** What the round that sees the deadline passed does. *)
Definition verdict (m : Z) (w : World) : Res unit * World :=
  if now w - m >? staleAfter then (Ok tt, reclaim m w)
  else (Throw LockTimeout, w).

End LockWords.

Section SortWords.
Context {A : Type} (key : A -> Z).

(** [a] may stand before [b] in a newest-first list. *)
Definition newer_eq (a b : A) : Prop := key b <= key a.

End SortWords.

Section ObjectWords.
Import Metadata.
Context {A : Type}.

(** Is the key of [e] among the keys of the entries to delete? *)
Definition doomed_key (doomed : list (string * A)) (e : string * A) : bool :=
  existsb (String.eqb (fst e)) (List.map fst doomed).

End ObjectWords.

Section StoreWords.
Import Metadata.

(** The records of a project, in property order. *)
Definition records (projectHash : string) (w : World)
  : list (string * CheckpointMetadata) :=
  project_of (loadMetadata w) projectHash.

(** In every project object the keys are pairwise distinct, as the
    properties of a JS object are. *)
Definition distinct_keys (w : World) : Prop :=
  forall p, List.NoDup (List.map fst (records p w)).

End StoreWords.

Section ShadowWords.
Import GitOps.

(** A hash string the pattern cannot match: some character is no hex digit
    (of either case), or there are more than 40 of them. *)
Definition malformed (h : string) : Prop :=
  (exists c, In c (chars h) /\ is_hex c = false)
  \/ (40 < String.length h)%nat.

(** The same with the character class read without the [i] flag. *)
Definition lower_hex_digits : list ascii := chars "0123456789abcdef".

Definition is_lower_hex (c : ascii) : bool :=
  existsb (Ascii.eqb c) lower_hex_digits.

Definition malformed_lower (h : string) : Prop :=
  (exists c, In c (chars h) /\ is_lower_hex c = false)
  \/ (40 < String.length h)%nat.

(** [restoreCheckpoint] answers [false] and has issued no engine command. *)
Definition rejected (E : Env) (m : Manager) (h : string) (dryRun : bool)
    (w : World) : Prop :=
  fst (restoreCheckpoint E m h dryRun w) = false
  /\ git_calls (snd (restoreCheckpoint E m h dryRun w)) = git_calls w.

(** [{ ...data, hash: checkpointHash }]. *)
Definition attach (e : string * CheckpointMetadata) : CheckpointData :=
  {| hash := fst e; data := snd e |}.






(** The files of a payload form a list (or are missing). *)
Definition listed_files (metadata : JSON) (l : list JSON) : Prop :=
  or_else (prop "files" metadata) (JArr []) = JArr l.

(** Tool name, session id and the first ten files. *)
Definition minimal (metadata : JSON) (l : list JSON) : JSON :=
  JObj [("tool_name", or_else (prop "tool_name" metadata) (JStr ""));
        ("session_id", or_else (prop "session_id" metadata) (JStr ""));
        ("files", JArr (firstn 10 l))].


Definition note_call (E : Env) (m : Manager) (payload : JSON)
    (commitHash : string) : GitCall :=
  {| args := ["notes"; "add"; "-m"; stringify2 E payload; commitHash];
     cwd := worktreePath m |}.

End ShadowWords.

Section HandlerWords.

(** The world in which the check point is attempted, if the project
    repository is there or could be initialised. *)
Definition repo_ready (S : Hook.Site) (w : World) : option World :=
  let (isRepo, w1) := GitOps.isGitRepo (Hook.env S) (Hook.manager S) w in
  if isRepo then Some w1
  else
    let (made, w2) := GitOps.initProjectRepo (Hook.env S) (Hook.manager S) w1 in
    if made then Some w2 else None.

Definition toolOf (inputData : Hook.HookInput) : string :=
  or_empty (Hook.tool_name inputData).

Definition inputOf (inputData : Hook.HookInput) : ToolInput :=
  match Hook.tool_input inputData with Some i => i | None => Hook.noInput end.

Definition sessionOf (inputData : Hook.HookInput) : string :=
  or_empty (Hook.session_id inputData).

(** The check point the pre-handler attempts in world [w]. *)
Definition attempt (S : Hook.Site) (inputData : Hook.HookInput) (w : World)
  : Res (option string) * World :=
  GitOps.createCheckpoint (Hook.env S) (Hook.manager S)
    (Hook.describe (toolOf inputData) (inputOf inputData))
    (Hook.annotation (toolOf inputData) (sessionOf inputData) (inputOf inputData))
    w.

End HandlerWords.

Section Samples.

Definition sample_cwd : string := "/home/dev/project".

Definition sample_manager : GitOps.Manager := {|
  GitOps.projectPath := sample_cwd;
  GitOps.projectHash := "0a1b2c3d4e5f";
  GitOps.checkpointRepo := "/home/dev/.claude/checkpoints/0a1b2c3d4e5f" |}.

Definition sample_head : string := "0123456789abcdef0123456789abcdef01234567".

Definition done (out : string) : GitResult :=
  {| returncode := 0; stdout := out; stderr := "" |}.

Definition refused : GitResult :=
  {| returncode := 128; stdout := ""; stderr := "fatal" |}.

(** An engine that accepts every command, and resolves exactly the hashes
    in [known]. *)
Definition sample_engine (known : list string) (_ : list Event) (c : GitCall)
  : GitResult :=
  match args c with
  | ["rev-parse"; h] =>
      if Hook.member h ("HEAD" :: "--git-dir" :: known)
      then done (sample_head ++ String "010"%char "") else refused
  | _ => done ""
  end.

Definition quote : string := String "034"%char "".

(** What [JSON.stringify] prints for values whose strings need no
    escaping. *)
Fixpoint show (v : JSON) : string :=
  match v with
  | JNull => "null"
  | JBool true => "true"
  | JBool false => "false"
  | JNum n => pretty n
  | JStr s => quote ++ s ++ quote
  | JArr l => "[" ++ String.concat "," (List.map show l) ++ "]"
  | JObj l =>
      "{"
      ++ String.concat ","
           (List.map
              (fun e : string * JSON =>
                 let (k, x) := e in quote ++ k ++ quote ++ ":" ++ show x)
              l)
      ++ "}"
  end.

(** [Buffer.byteLength] on ASCII text: one byte per character. *)
Fixpoint count_bytes (s : string) (acc : Z) : Z :=
  match s with
  | EmptyString => acc
  | String _ s' => count_bytes s' (acc + 1)
  end.

(** [n] doublings of [s]. *)
Fixpoint doubled (n : nat) (s : string) : string :=
  match n with
  | O => s
  | S n' => doubled n' (s ++ s)
  end.

Definition sample_env (known : list string) : GitOps.Env := {|
  GitOps.engine := sample_engine known;
  GitOps.pathExists := fun _ _ => true;
  GitOps.ensureDir := fun _ _ => None;
  GitOps.syncTree := fun _ _ _ => None;
  GitOps.toISOString := fun t => pretty t;
  GitOps.stringify := show;
  GitOps.stringify2 := show;
  GitOps.byteLength := fun s => count_bytes s 0 |}.

Definition sample_site (known : list string) : Hook.Site := {|
  Hook.config := Config.getDefaultConfig;
  Hook.resolve := fun p => if isAbsolute p then p else path_join sample_cwd p;
  Hook.relative := fun p =>
    if String.prefix (sample_cwd ++ "/") p
    then substring (String.length sample_cwd + 1)
           (String.length p - (String.length sample_cwd + 1)) p
    else p;
  Hook.stat := fun _ => Config.Absent;
  Hook.manager := sample_manager;
  Hook.env := sample_env known |}.

Definition sample_record (t : Z) (tool session : string) (s : Status)
  : CheckpointMetadata := {|
  timestamp := t; tool_name := tool; tool_input := Hook.noInput;
  session_id := session; status := s; files_affected := [];
  status_updated := None; tool_response := None |}.

(** Three records; the two newest carry the same stamp. *)
Definition sample_store : gmap string (list (string * CheckpointMetadata)) :=
  {[ "0a1b2c3d4e5f" :=
       [("aaa1", sample_record 1000 "Write" "s1" success);
        ("bbb2", sample_record 3000 "Edit" "s2" pending);
        ("ccc3", sample_record 3000 "Manual" "s3" pending)] ]}.

Definition sample_world (held : option Z) : World := {|
  now := 20000; timer_lag := fun _ => 0%N; lock := held; fault := None;
  file := Json sample_store; reclaimed := []; trace := [] |}.

Definition write_event (response : option JSON) : Hook.HookInput := {|
  Hook.tool_name := Some "Write";
  Hook.tool_input :=
    Some {| file_path := Some "a.txt"; edits := None; message := None;
            other_keys := [] |};
  Hook.session_id := Some "s1";
  Hook.tool_response := response |}.

Definition sample_files : list JSON :=
  List.map JStr
    ["f01"; "f02"; "f03"; "f04"; "f05"; "f06"; "f07"; "f08"; "f09"; "f10";
     "f11"; "f12"].

Definition sample_payload (blob : string) : JSON :=
  JObj [("tool_name", JStr "Write"); ("session_id", JStr "s1");
        ("files", JArr sample_files); ("blob", JStr blob)].

(** 2^20 characters: with it the payload serializes to more than 1 MiB. *)
Definition sample_blob : string := doubled 20 "x".

(** A [.gitignore] with CRLF line ends and a blank second line. *)
Definition carriage_return : string := String "013"%char "".

Definition crlf_ignore : string :=
  "dist" ++ carriage_return ++ String Sync.newline
    (carriage_return ++ String Sync.newline "node_modules").

(** A log directory: an oversized log, four backups and another file. *)
Definition sample_dir : Log.Dir :=
  [("checkpoint.log", {| Log.size := 11 * 1024 * 1024; Log.mtime := 900 |});
   ("checkpoint.log.100.old", {| Log.size := 5; Log.mtime := 100 |});
   ("checkpoint.log.300.old", {| Log.size := 5; Log.mtime := 300 |});
   ("notes.txt", {| Log.size := 1; Log.mtime := 50 |});
   ("checkpoint.log.200.old", {| Log.size := 5; Log.mtime := 200 |});
   ("checkpoint.log.400.old", {| Log.size := 5; Log.mtime := 400 |})].


(** Three edits that name two files. *)
Definition sample_edit (h : string) (t : Z) (files : list string)
  : CheckpointData :=
  {| hash := h;
     data := {| timestamp := t; tool_name := "Edit";
                tool_input := Hook.noInput; session_id := "s1";
                status := success; files_affected := files;
                status_updated := None; tool_response := None |} |}.

Definition sample_edits : list CheckpointData :=
  [sample_edit "aaa1" 1000 ["src/a.ts"];
   sample_edit "bbb2" 2000 ["src/b.ts"; "src/a.ts"];
   sample_edit "ccc3" 3000 ["src/a.ts"]].

End Samples.

Section MoreWords.

(** [w'] differs from [w] at most in the log of external operations.  (That
    the clock is among what stays is the convention of this development: an
    external command is given no duration, the clock moves in [sleep]
    only.) *)
Definition same_store (w w' : World) : Prop :=
  now w' = now w /\ timer_lag w' = timer_lag w /\ lock w' = lock w
  /\ fault w' = fault w /\ file w' = file w /\ reclaimed w' = reclaimed w.

(** The names of the members every plain object inherits from
    [Object.prototype]. *)
Definition prototype_members : list string :=
  ["constructor"; "toString"; "toLocaleString"; "valueOf"; "hasOwnProperty";
   "isPrototypeOf"; "propertyIsEnumerable"; "__proto__"; "__defineGetter__";
   "__defineSetter__"; "__lookupGetter__"; "__lookupSetter__"].

Definition is_digit (c : ascii) : bool :=
  existsb (Ascii.eqb c) (chars "0123456789").

(** A key that a plain JS object treats as an ordinary own property: it is
    not the name of an inherited member, and it is no array index (a
    decimal numeral below 2^32 - 1; such keys are listed before all
    others, in numeric order).  For the latter it is enough that the key has
    a character that is no digit, or more than ten characters. *)
Definition ordinary_key (k : string) : bool :=
  negb (Hook.member k prototype_members)
  && (negb (forallb is_digit (chars k)) || (10 <? String.length k)%nat).


(** The tree copies performed so far (source, destination), newest first. *)
Definition syncs (w : World) : list (string * string) :=
  flat_map (fun e => match e with EvSync s d => [(s, d)] | _ => [] end)
    (trace w).

(** All files named by the records of a list, with repetitions. *)
Definition all_files (checkpoints : list CheckpointData) : list string :=
  flat_map (fun c => files_affected (data c)) checkpoints.

(** Number of times [f] is named. *)
Definition mentions (f : string) (files : list string) : Z :=
  Z.of_nat (length (List.filter (String.eqb f) files)).

(** The count held for [f], 0 when there is none. *)
Definition count_of (f : string) (fileCounts : list (string * Z)) : Z :=
  match assoc f fileCounts with Some n => n | None => 0 end.

(** The last character of a text is a separator. *)
Fixpoint ends_with_slash (s : string) : bool :=
  match s with
  | EmptyString => false
  | String c EmptyString => Ascii.eqb c slash
  | String _ s' => ends_with_slash s'
  end.


(** The record [addCheckpoint] writes at instant [t]. *)
Definition fresh_record (t : Z) (toolName : string) (toolInput : ToolInput)
    (sessionId : string) : CheckpointMetadata := {|
  timestamp := t; tool_name := toolName; tool_input := toolInput;
  session_id := sessionId; status := pending;
  files_affected := Metadata.extractFiles toolName toolInput;
  status_updated := None; tool_response := None |}.

(** [git checkout x], run in the worktree. *)
Definition checkout_call (m : GitOps.Manager) (x : string) : GitCall :=
  {| args := ["checkout"; x]; cwd := GitOps.worktreePath m |}.

(** [git diff x --stat], run in the worktree. *)
Definition diff_call (m : GitOps.Manager) (x : string) : GitCall :=
  {| args := ["diff"; x; "--stat"]; cwd := GitOps.worktreePath m |}.


(** The argument vectors of the engine commands the manager starts in the
    worktree; [text] and [h] stand for a message or note and for a hash. *)
Definition worktree_command (a : list string) : Prop :=
  a = ["add"; "-A"] \/ a = ["checkout"; "main"] \/ a = ["init"]
  \/ (exists text, a = ["commit"; "-m"; text; "--allow-empty"])
  \/ (exists text h, a = ["notes"; "add"; "-m"; text; h])
  \/ (exists h, a = ["rev-parse"; h])
  \/ (exists h, a = ["log"; "-1"; "--pretty=format:%s"; h])
  \/ (exists h, a = ["diff"; h; "--stat"]).

(** An external operation on the side of the shadow repository: one of
    the commands above started in the worktree, [init --bare] started in
    the shadow directory, [rev-parse --git-dir] or [clone] started in the
    project, a look at or the creation of the shadow directory or its
    worktree, or a copy of the project into the worktree. *)
Definition shadow_operation (m : GitOps.Manager) (e : Event) : Prop :=
  match e with
  | EvGit c =>
      (cwd c = GitOps.worktreePath m /\ worktree_command (args c))
      \/ (cwd c = GitOps.checkpointRepo m /\ args c = ["init"; "--bare"])
      \/ (cwd c = GitOps.projectPath m
          /\ (args c = ["rev-parse"; "--git-dir"]
              \/ args c
                 = ["clone"; GitOps.projectPath m; GitOps.worktreePath m]))
  | EvPathExists p | EvEnsureDir p =>
      p = GitOps.checkpointRepo m \/ p = GitOps.worktreePath m
  | EvSync src dst =>
      src = GitOps.projectPath m /\ dst = GitOps.worktreePath m
  end.

(** From [w] to [w'] the log of external operations has only grown, by
    operations that satisfy [P]. *)
Definition adds_only (P : Event -> Prop) (w w' : World) : Prop :=
  exists new, trace w' = (new ++ trace w)%list /\ List.Forall P new.

(** Every component of a path is named: no leading, doubled or trailing
    separator. *)
Definition every_part_named (p : string) : bool :=
  forallb (fun part => negb (String.eqb part "")) (split_slash p).

(** The characters with a meaning of their own in a glob, other than the
    star; the last one is the backslash. *)
Definition glob_specials : list ascii :=
  (chars "?[]{}()!+@#|" ++ ["092"%char])%list.

(** A pattern of the fragment the matcher is modelled for: literal
    characters, separators and single stars. *)
Definition plain_pattern (pattern : string) : bool :=
  forallb (fun c => negb (existsb (Ascii.eqb c) glob_specials)) (chars pattern)
  && negb (GitOps.includes "**" pattern).

(** The path [shouldExcludeFile] matches against. *)
Definition relative_of (relative : string -> string) (filePath : string)
  : string :=
  if isAbsolute filePath then relative filePath else filePath.

(** The configuration without its patterns that end in a separator. *)
Definition without_directory_patterns (cfg : Config.CheckpointConfig)
  : Config.CheckpointConfig := {|
  Config.enabled := Config.enabled cfg;
  Config.retention_days := Config.retention_days cfg;
  Config.exclude_patterns :=
    List.filter (fun pattern => negb (ends_with_slash pattern))
      (Config.exclude_patterns cfg);
  Config.max_file_size_mb := Config.max_file_size_mb cfg;
  Config.checkpoint_on_stop := Config.checkpoint_on_stop cfg;
  Config.auto_cleanup := Config.auto_cleanup cfg |}.

(** Some character of the text is no white space. *)
Definition has_ink (s : string) : bool :=
  existsb (fun c => negb (GitOps.is_space c)) (chars s).

(** Letters, digits, the blank and the hyphen: characters the shell gives
    no meaning of its own to (a hyphen only marks an option). *)
Definition plain_chars : list ascii :=
  chars
    "abcdefghijklmnopqrstuvwxyzABCDEFGHIJKLMNOPQRSTUVWXYZ0123456789 -".

Definition shell_plain (c : ascii) : bool := existsb (Ascii.eqb c) plain_chars.

(** An external operation that is no engine command, or an engine command
    whose command line has plain characters only. *)
Definition plain_command (e : Event) : Prop :=
  match e with
  | EvGit c => forallb shell_plain (chars (Shell.commandLine (args c))) = true
  | _ => True
  end.

(** The entry of a log directory is a backup of the log. *)
Definition backup_entry (f : string * Log.Stats) : bool := Log.isBackup (fst f).

(** The instant of the last modification of an entry. *)
Definition entry_mtime (f : string * Log.Stats) : Z := Log.mtime (snd f).

(** The size of the log, 0 when there is none. *)
Definition log_size (d : Log.Dir) : Z :=
  match assoc Log.logFile d with Some stats => Log.size stats | None => 0 end.

(** Two entries of a project object with the same key and the same
    instant. *)
Definition same_key_and_time (e e' : string * CheckpointMetadata) : Prop :=
  fst e = fst e' /\ timestamp (snd e) = timestamp (snd e').

End MoreWords.

(** Case analysis on every answer of the environment. *)
Ltac answers :=
  repeat match goal with
    | |- context [if ?b then _ else _] => destruct b
    | |- context [match ?o with Some _ => _ | None => _ end] => destruct o
    end.


(** * Properties *)

(** ** The lock *)

Section Lock.
Import Metadata.

Lemma sleep_now d w : now w + d <= now (sleep d w).
Proof. unfold sleep; simpl. lia. Qed.

Lemma rounds_left_pos r : (2 <= rounds_left r)%nat.
Proof. unfold rounds_left. destruct (r <? 0); lia. Qed.

Lemma rounds_left_step r r' n :
  0 <= r -> r' <= r - waitInterval ->
  (rounds_left r <= S n)%nat -> (rounds_left r' <= n)%nat.
Proof.
  unfold rounds_left, waitInterval. intros Hr Hr' Hn.
  destruct (Z.ltb_spec r 0) as [?|_]; [lia|].
  destruct (Z.ltb_spec r' 0) as [_|Hr0]; [lia|].
  assert (r' / 50 <= r / 50 - 1).
  { replace (r / 50 - 1) with ((r + (-1) * 50) / 50)
      by (rewrite Z.div_add; lia).
    apply Z.div_le_mono; lia. }
  assert (0 <= r' / 50) by (apply Z.div_pos; lia).
  lia.
Qed.

(** A held marker: the loop is the polling phase followed by the verdict. *)
Lemma acquireLock_loop_held n maxWaitTime startTime w m :
  fault w = None -> lock w = Some m ->
  (rounds_left (maxWaitTime - (now w - startTime)) <= n)%nat ->
  acquireLock_loop n maxWaitTime startTime w
  = verdict m (poll n maxWaitTime startTime w).
Proof.
  revert w. induction n as [|n IH]; intros w Hf Hl Hn.
  - pose proof (rounds_left_pos (maxWaitTime - (now w - startTime))). lia.
  - simpl. rewrite Hf, Hl.
    destruct (Z.gtb_spec (now w - startTime) maxWaitTime) as [Hpast|Hwait].
    + unfold verdict.
      destruct (Z.gtb_spec (now w - m) staleAfter) as [Hs|Hs]; [|reflexivity].
      destruct n as [|n']; [|simpl; rewrite Hf; reflexivity].
      pose proof (rounds_left_pos (maxWaitTime - (now w - startTime))). lia.
    + apply IH; try assumption.
      eapply rounds_left_step; [| |exact Hn]; [lia|].
      pose proof (sleep_now waitInterval w). lia.
Qed.

Lemma poll_frame n maxWaitTime startTime w :
  lock (poll n maxWaitTime startTime w) = lock w
  /\ fault (poll n maxWaitTime startTime w) = fault w
  /\ file (poll n maxWaitTime startTime w) = file w
  /\ reclaimed (poll n maxWaitTime startTime w) = reclaimed w
  /\ trace (poll n maxWaitTime startTime w) = trace w
  /\ timer_lag (poll n maxWaitTime startTime w) = timer_lag w
  /\ now w <= now (poll n maxWaitTime startTime w).
Proof.
  revert w. induction n as [|n IH]; intros w; simpl.
  - repeat split; lia.
  - destruct (_ >? _); [repeat split; lia|].
    destruct (IH (sleep waitInterval w)) as (? & ? & ? & ? & ? & ? & ?).
    pose proof (sleep_now waitInterval w). unfold waitInterval in *.
    repeat split; try assumption. lia.
Qed.

(** The polling phase ends only after the wait has elapsed. *)
Lemma poll_deadline n maxWaitTime startTime w :
  (rounds_left (maxWaitTime - (now w - startTime)) <= n)%nat ->
  maxWaitTime < now (poll n maxWaitTime startTime w) - startTime.
Proof.
  revert w. induction n as [|n IH]; intros w Hn.
  - pose proof (rounds_left_pos (maxWaitTime - (now w - startTime))). lia.
  - simpl.
    destruct (Z.gtb_spec (now w - startTime) maxWaitTime) as [Hpast|Hwait];
      [lia|].
    apply IH. eapply rounds_left_step; [| |exact Hn]; [lia|].
    pose proof (sleep_now waitInterval w). lia.
Qed.

(** With punctual timers it ends within one interval of the deadline. *)
Lemma poll_punctual n maxWaitTime startTime w :
  (forall t, timer_lag w t = 0%N) ->
  now w - startTime <= maxWaitTime ->
  (rounds_left (maxWaitTime - (now w - startTime)) <= n)%nat ->
  now (poll n maxWaitTime startTime w) - startTime
  <= maxWaitTime + waitInterval.
Proof.
  revert w. induction n as [|n IH]; intros w Hz Hle Hn.
  - pose proof (rounds_left_pos (maxWaitTime - (now w - startTime))). lia.
  - simpl.
    destruct (Z.gtb_spec (now w - startTime) maxWaitTime) as [Hpast|_];
      [lia|].
    assert (Hs : now (sleep waitInterval w) = now w + waitInterval).
    { unfold sleep; simpl. rewrite Hz. simpl. lia. }
    assert (Hn' : (rounds_left (maxWaitTime
                      - (now (sleep waitInterval w) - startTime)) <= n)%nat).
    { eapply rounds_left_step; [| |exact Hn]; lia. }
    destruct (Z_le_gt_dec (now (sleep waitInterval w) - startTime) maxWaitTime)
      as [Hin|Hout].
    + apply IH; assumption.
    + destruct n as [|n'].
      * pose proof (rounds_left_pos
          (maxWaitTime - (now (sleep waitInterval w) - startTime))). lia.
      * cbn [poll].
        destruct (Z.gtb_spec (now (sleep waitInterval w) - startTime)
                    maxWaitTime); unfold waitInterval in *; lia.
Qed.

(** Whatever happens, acquisition touches neither the document nor the
    engine; when it succeeds the marker is ours and the directory is
    writable. *)
Lemma acquireLock_loop_frame n maxWaitTime startTime w r w' :
  acquireLock_loop n maxWaitTime startTime w = (r, w') ->
  file w' = file w /\ fault w' = fault w /\ trace w' = trace w
  /\ timer_lag w' = timer_lag w
  /\ (r = Ok tt -> fault w' = None /\ lock w' = Some (now w')).
Proof.
  revert w. induction n as [|n IH]; intros w; simpl.
  - intros [= <- <-]. repeat split; congruence.
  - destruct (fault w) eqn:Hf.
    { intros [= <- <-]. repeat split; congruence. }
    destruct (lock w) eqn:Hl.
    2:{ intros [= <- <-]. simpl. repeat split; congruence. }
    destruct (_ >? maxWaitTime); [destruct (_ >? staleAfter)|].
    2:{ intros [= <- <-]. repeat split; congruence. }
    all: intros H; apply IH in H; simpl in H;
      destruct H as (? & ? & ? & ? & ?); repeat split; congruence || tauto.
Qed.

Lemma acquireLock_frame w r w' :
  acquireLock w = (r, w') ->
  file w' = file w /\ fault w' = fault w /\ trace w' = trace w
  /\ timer_lag w' = timer_lag w
  /\ (r = Ok tt -> fault w' = None /\ lock w' = Some (now w')).
Proof. apply acquireLock_loop_frame. Qed.

(** A free marker is taken at once. *)
Lemma acquireLock_loop_free n maxWaitTime startTime w :
  fault w = None -> lock w = None ->
  acquireLock_loop (S n) maxWaitTime startTime w
  = (Ok tt, set_lock (Some (now w)) w).
Proof. intros Hf Hl. simpl. rewrite Hf, Hl. reflexivity. Qed.

Lemma acquireLock_loop_fault n maxWaitTime startTime w code :
  fault w = Some code ->
  acquireLock_loop (S n) maxWaitTime startTime w = (Throw (IOError code), w).
Proof. intros Hf. simpl. rewrite Hf. reflexivity. Qed.

Lemma rounds_S maxWaitTime :
  rounds maxWaitTime = S (Z.to_nat (maxWaitTime / waitInterval) + 2).
Proof. unfold rounds. lia. Qed.

Lemma acquireLock_free w :
  fault w = None -> lock w = None ->
  acquireLock w = (Ok tt, set_lock (Some (now w)) w).
Proof.
  intros Hf Hl. unfold acquireLock, acquireLock_for.
  rewrite rounds_S. apply acquireLock_loop_free; assumption.
Qed.

Lemma rounds_enough maxWaitTime :
  (rounds_left maxWaitTime <= rounds maxWaitTime)%nat.
Proof. unfold rounds_left, rounds. destruct (_ <? 0); lia. Qed.

Lemma acquireLock_for_held maxWaitTime w m :
  fault w = None -> lock w = Some m ->
  acquireLock_for maxWaitTime w
  = verdict m (poll (rounds maxWaitTime) maxWaitTime (now w) w).
Proof.
  intros Hf Hl. apply acquireLock_loop_held; try assumption.
  replace (maxWaitTime - (now w - now w)) with maxWaitTime by lia.
  apply rounds_enough.
Qed.

(** The loop always comes to an end within its rounds. *)
Lemma acquireLock_total maxWaitTime w :
  fst (acquireLock_for maxWaitTime w) <> Throw OutOfFuel.
Proof.
  destruct (fault w) eqn:Hf.
  { unfold acquireLock_for. rewrite rounds_S.
    rewrite (acquireLock_loop_fault _ _ _ _ _ Hf). discriminate. }
  destruct (lock w) eqn:Hl.
  - rewrite (acquireLock_for_held _ _ _ Hf Hl). unfold verdict.
    destruct (_ >? _); discriminate.
  - unfold acquireLock_for. rewrite rounds_S.
    rewrite (acquireLock_loop_free _ _ _ _ Hf Hl). discriminate.
Qed.

(** C3.  During lock acquisition against a held marker (no other process
    touching it), the marker is left alone while the bounded wait of 5000 ms
    lasts: polling ends at an instant past the deadline (at most one 50 ms
    interval past it when timers are punctual) with marker, document and
    reclaim log untouched.  At that instant a marker older than 10000 ms is
    deleted and the retry takes the lock, so the only deletion recorded is of
    a stale marker after the wait; a marker that is still fresh makes the
    operation fail with the lock-timeout error, the marker staying in
    place. *)
Theorem acquireLock_stale_or_timeout (w : World) (m : Z)
    (Hdir : fault w = None) (Hheld : lock w = Some m) :
  exists wd : World,
    defaultMaxWait < now wd - now w
    /\ ((forall t, timer_lag w t = 0%N) ->
        now wd - now w <= defaultMaxWait + waitInterval)
    /\ lock wd = Some m /\ file wd = file w /\ reclaimed wd = reclaimed w
    /\ (staleAfter < now wd - m ->
        acquireLock w = (Ok tt, reclaim m wd)
        /\ lock (reclaim m wd) = Some (now wd)
        /\ reclaimed (reclaim m wd) = (now wd, m) :: reclaimed w)
    /\ (now wd - m <= staleAfter ->
        acquireLock w = (Throw LockTimeout, wd)).
Proof.
  exists (poll (rounds defaultMaxWait) defaultMaxWait (now w) w).
  pose proof (acquireLock_for_held defaultMaxWait w m Hdir Hheld) as Hrun.
  fold (acquireLock w) in Hrun.
  destruct (poll_frame (rounds defaultMaxWait) defaultMaxWait (now w) w)
    as (Hl & _ & Hfile & Hrec & _ & _ & _).
  split.
  { apply poll_deadline.
    replace (defaultMaxWait - (now w - now w)) with defaultMaxWait by lia.
    apply rounds_enough. }
  split.
  { intros Hz. apply poll_punctual; [assumption|unfold defaultMaxWait; lia|].
    replace (defaultMaxWait - (now w - now w)) with defaultMaxWait by lia.
    apply rounds_enough. }
  split; [congruence|]. split; [assumption|]. split; [assumption|].
  split.
  - intros Hstale. rewrite Hrun. unfold verdict.
    destruct (Z.gtb_spec (now (poll (rounds defaultMaxWait) defaultMaxWait
                                 (now w) w) - m) staleAfter); [|lia].
    repeat split. unfold reclaim. cbn [reclaimed log_reclaim set_lock].
    rewrite Hrec. reflexivity.
  - intros Hfresh. rewrite Hrun. unfold verdict.
    destruct (Z.gtb_spec (now (poll (rounds defaultMaxWait) defaultMaxWait
                                 (now w) w) - m) staleAfter); [lia|].
    reflexivity.
Qed.

End Lock.

(** ** Sorting and objects as association lists *)

Section SortFacts.
Context {A : Type} (key : A -> Z).

Lemma insert_desc_perm x l : Permutation (insert_desc key x l) (x :: l).
Proof.
  induction l as [|y l IH]; simpl; [reflexivity|].
  destruct (key x <? key y); [|reflexivity].
  rewrite IH. apply perm_swap.
Qed.

Lemma sort_desc_perm l : Permutation (sort_desc key l) l.
Proof.
  induction l as [|x l IH]; simpl; [constructor|].
  rewrite insert_desc_perm. now constructor.
Qed.

Lemma sort_desc_length l : length (sort_desc key l) = length l.
Proof. apply Permutation_length, sort_desc_perm. Qed.

Lemma insert_desc_sorted x l :
  Sorted (newer_eq key) l -> Sorted (newer_eq key) (insert_desc key x l).
Proof.
  induction l as [|y l IH]; simpl; intros Hs.
  - repeat constructor.
  - destruct (Z.ltb_spec (key x) (key y)) as [Hlt|Hge].
    + inversion Hs as [|? ? Hs' Hhd]; subst. constructor; [auto|].
      destruct l as [|z l]; simpl.
      * constructor. unfold newer_eq. lia.
      * destruct (Z.ltb_spec (key x) (key z)).
        -- inversion Hhd; subst. now constructor.
        -- constructor. unfold newer_eq. lia.
    + constructor; [assumption|]. constructor. unfold newer_eq. lia.
Qed.

Lemma sort_desc_sorted l : Sorted (newer_eq key) (sort_desc key l).
Proof.
  induction l as [|x l IH]; simpl; [constructor|].
  now apply insert_desc_sorted.
Qed.

Lemma sort_desc_strongly l : StronglySorted (newer_eq key) (sort_desc key l).
Proof.
  apply Sorted_StronglySorted; [|apply sort_desc_sorted].
  intros a b c. unfold newer_eq. lia.
Qed.



(** In a sorted list, whatever stands in a front part is at least as new
    as whatever stands behind it. *)
Lemma strongly_sorted_split l1 l2 x y :
  StronglySorted (newer_eq key) (l1 ++ l2) -> In x l1 -> In y l2 -> key y <= key x.
Proof.
  induction l1 as [|a l1 IH]; simpl; intros Hs Hx Hy; [contradiction|].
  inversion Hs as [|? ? Hs' Hall]; subst.
  destruct Hx as [->|Hx]; [|now apply IH].
  rewrite List.Forall_forall in Hall. apply Hall, in_or_app. now right.
Qed.

(** The head of a sorted list is a newest element. *)
Lemma sort_desc_head x rest l :
  sort_desc key l = x :: rest -> forall y, In y l -> key y <= key x.
Proof.
  intros Heq y Hy.
  assert (Hin : In y (x :: rest)).
  { rewrite <- Heq. eapply Permutation_in; [|exact Hy].
    symmetry. apply sort_desc_perm. }
  destruct Hin as [->|Hin]; [lia|].
  pose proof (sort_desc_strongly l) as Hs. rewrite Heq in Hs.
  apply (strongly_sorted_split [x] rest x y Hs); simpl; auto.
Qed.

End SortFacts.

Section ObjectFacts.
Import Metadata.
Context {A : Type}.
Implicit Types (l : list (string * A)) (k : string).

Lemma assoc_obj_set_eq k (v : A) l : assoc k (obj_set k v l) = Some v.
Proof.
  induction l as [|[k' v'] l IH]; simpl.
  - now rewrite String.eqb_refl.
  - destruct (String.eqb_spec k' k); simpl.
    + now rewrite String.eqb_refl.
    + destruct (String.eqb_spec k' k); [contradiction|assumption].
Qed.

Lemma assoc_obj_set_ne k k' (v : A) l :
  k' <> k -> assoc k' (obj_set k v l) = assoc k' l.
Proof.
  intros Hne. induction l as [|[k0 v0] l IH]; simpl.
  - destruct (String.eqb_spec k k'); congruence.
  - destruct (String.eqb_spec k0 k) as [->|Hk]; simpl.
    + destruct (String.eqb_spec k k'); congruence.
    + now rewrite IH.
Qed.

Lemma assoc_In k (v : A) l : assoc k l = Some v -> In (k, v) l.
Proof.
  induction l as [|[k' v'] l IH]; simpl; [discriminate|].
  destruct (String.eqb_spec k' k) as [->|_].
  - intros [= ->]. now left.
  - intros H. right. now apply IH.
Qed.

Lemma In_assoc k (v : A) l :
  List.NoDup (List.map fst l) -> In (k, v) l -> assoc k l = Some v.
Proof.
  induction l as [|[k' v'] l IH]; simpl; [contradiction|].
  intros Hnd Hin. inversion Hnd as [|? ? Hnot Hnd']; subst.
  destruct Hin as [[= -> ->]|Hin].
  - now rewrite String.eqb_refl.
  - destruct (String.eqb_spec k' k) as [->|_]; [|now apply IH].
    exfalso. apply Hnot. change k with (fst (k, v)). now apply in_map.
Qed.

Lemma obj_set_keys k (v : A) l :
  List.NoDup (List.map fst l) -> List.NoDup (List.map fst (obj_set k v l)).
Proof.
  induction l as [|[k' v'] l IH]; simpl; intros Hnd.
  - repeat constructor. simpl. tauto.
  - inversion Hnd as [|? ? Hnot Hnd']; subst.
    destruct (String.eqb_spec k' k) as [->|Hk]; simpl.
    + now constructor.
    + constructor; [|now apply IH].
      intros Hin. apply Hnot. clear - Hin Hk.
      induction l as [|[k0 v0] l IH]; simpl in *.
      * destruct Hin as [->|[]]. congruence.
      * destruct (String.eqb_spec k0 k) as [->|_]; simpl in *; tauto.
Qed.

(** Deleting a batch of keys one by one keeps exactly the other entries,
    in place. *)
Lemma delete_batch (doomed : list (string * A)) l :
  fold_left (fun acc e => obj_delete (fst e) acc) doomed l
  = List.filter (fun e => negb (doomed_key doomed e)) l.
Proof.
  revert l. induction doomed as [|d doomed IH]; intros l; simpl.
  - induction l as [|e l IHl]; simpl; [reflexivity|]. now rewrite <- IHl.
  - rewrite IH. unfold obj_delete. clear IH.
    induction l as [|e l IHl]; simpl; [reflexivity|].
    unfold doomed_key at 2. simpl.
    destruct (String.eqb_spec (fst e) (fst d)) as [Heq|Hne]; simpl.
    + exact IHl.
    + fold (doomed_key doomed e). destruct (doomed_key doomed e); simpl;
        now rewrite IHl.
Qed.

Lemma doomed_key_true (doomed : list (string * A)) e :
  In e doomed -> doomed_key doomed e = true.
Proof.
  intros Hin. unfold doomed_key. apply existsb_exists.
  exists (fst e). split; [now apply in_map|apply String.eqb_refl].
Qed.

Lemma doomed_key_false (kept doomed : list (string * A)) e :
  List.NoDup (List.map fst (kept ++ doomed)) -> In e kept ->
  doomed_key doomed e = false.
Proof.
  intros Hnd Hin. unfold doomed_key.
  destruct (existsb _ _) eqn:Hex; [|reflexivity]. exfalso.
  apply existsb_exists in Hex. destruct Hex as (k & Hk & Heq).
  apply String.eqb_eq in Heq. subst k.
  rewrite map_app in Hnd. clear - Hnd Hin Hk.
  induction kept as [|a kept IH]; simpl in *; [contradiction|].
  inversion Hnd as [|? ? Hnot Hnd']; subst.
  destruct Hin as [->|Hin]; [|now apply IH].
  apply Hnot, in_or_app. now right.
Qed.

Lemma filter_keep_all (P : string * A -> bool) l :
  (forall e, In e l -> P e = true) -> List.filter P l = l.
Proof.
  induction l as [|e l IH]; simpl; intros H; [reflexivity|].
  rewrite (H e) by now left. f_equal. apply IH. intros; apply H. now right.
Qed.

Lemma filter_drop_all (P : string * A -> bool) l :
  (forall e, In e l -> P e = false) -> List.filter P l = [].
Proof.
  induction l as [|e l IH]; simpl; intros H; [reflexivity|].
  rewrite (H e) by now left. apply IH. intros; apply H. now right.
Qed.

Lemma filter_perm (P : string * A -> bool) l l' :
  Permutation l l' -> Permutation (List.filter P l) (List.filter P l').
Proof.
  induction 1 as [|x l l' _ IH|x y l|l l' l'' _ IH1 _ IH2]; simpl.
  - constructor.
  - destruct (P x); [now constructor|assumption].
  - destruct (P x), (P y); try reflexivity. apply perm_swap.
  - now transitivity (List.filter P l').
Qed.

Lemma filter_sublist (P : string * A -> bool) l : sublist (List.filter P l) l.
Proof.
  induction l as [|e l IH]; simpl; [constructor|].
  destruct (P e); now constructor.
Qed.

(** Deleting the entries of the back part of a rearrangement leaves the
    front part. *)
Lemma delete_back (kept doomed : list (string * A)) l :
  List.NoDup (List.map fst l) -> Permutation (kept ++ doomed) l ->
  Permutation
    (fold_left (fun acc e => obj_delete (fst e) acc) doomed l) kept.
Proof.
  intros Hnd Hperm. rewrite delete_batch.
  assert (Hnd' : List.NoDup (List.map fst (kept ++ doomed))).
  { eapply Permutation.Permutation_NoDup; [|exact Hnd].
    apply Permutation_map. now symmetry. }
  rewrite <- (filter_perm _ _ _ Hperm), List.filter_app.
  rewrite filter_keep_all, filter_drop_all.
  - now rewrite app_nil_r.
  - intros e He. now rewrite doomed_key_true.
  - intros e He. now rewrite (doomed_key_false kept).
Qed.

End ObjectFacts.

(** ** The metadata store *)

Section Store.
Import Metadata.

Lemma get_records p h w :
  getCheckpointMetadata p h w = assoc h (records p w).
Proof.
  unfold getCheckpointMetadata, records, project_of.
  now destruct (loadMetadata w !! p).
Qed.

Lemma loadMetadata_file w w' :
  file w' = file w -> loadMetadata w' = loadMetadata w.
Proof. unfold loadMetadata. now intros ->. Qed.

Lemma acquired w (Hacq : fst (acquireLock w) = Ok tt) :
  exists w1, acquireLock w = (Ok tt, w1)
    /\ file w1 = file w /\ fault w1 = None /\ lock w1 = Some (now w1).
Proof.
  destruct (acquireLock w) as [r w1] eqn:Hrun. simpl in Hacq. subst r.
  destruct (acquireLock_frame _ _ _ Hrun) as (Hfile & _ & _ & _ & Hok).
  destruct (Hok eq_refl). now exists w1.
Qed.

(** C4.  Whenever the lock is obtained, [addCheckpoint] returns a record
    with status [pending] that carries the current instant as timestamp,
    the given tool name, tool input and session id, and the files
    [extractFiles] derives from the tool input; a [getCheckpointMetadata]
    with the same keys right after returns that very record, every other
    key reads as before, and the lock is released. *)
Theorem addCheckpoint_then_get (projectHash checkpointHash toolName : string)
    (toolInput : ToolInput) (sessionId : string) (w : World)
    (Hacq : fst (acquireLock w) = Ok tt) :
  exists (rec : CheckpointMetadata) (w' : World),
    addCheckpoint projectHash checkpointHash toolName toolInput sessionId w
    = (Ok rec, w')
    /\ getCheckpointMetadata projectHash checkpointHash w' = Some rec
    /\ status rec = pending
    /\ timestamp rec = now w'
    /\ tool_name rec = toolName
    /\ tool_input rec = toolInput
    /\ session_id rec = sessionId
    /\ files_affected rec = extractFiles toolName toolInput
    /\ status_updated rec = None /\ tool_response rec = None
    /\ (forall p h, (p, h) <> (projectHash, checkpointHash) ->
        getCheckpointMetadata p h w' = getCheckpointMetadata p h w)
    /\ lock w' = None.
Proof.
  destruct (acquired w Hacq) as (w1 & Hrun & Hfile & Hfault & _).
  unfold addCheckpoint. rewrite Hrun. unfold saveMetadata. rewrite Hfault.
  eexists _, _. split; [reflexivity|].
  split.
  { unfold getCheckpointMetadata, loadMetadata at 1. simpl.
    rewrite lookup_insert_eq. apply assoc_obj_set_eq. }
  repeat (split; [reflexivity|]).
  split; [|reflexivity].
  intros p h Hne.
  unfold getCheckpointMetadata, loadMetadata at 1. simpl.
  rewrite (loadMetadata_file w w1 Hfile).
  destruct (decide (projectHash = p)) as [<-|Hp].
  - rewrite lookup_insert_eq.
    rewrite assoc_obj_set_ne by congruence.
    unfold project_of. now destruct (loadMetadata w !! projectHash).
  - now rewrite lookup_insert_ne.
Qed.

(** What a status update does once the lock is obtained. *)
Lemma updateCheckpointStatus_run (projectHash checkpointHash : string)
    (s : Status) (toolResponse : option JSON) (w : World)
    (Hacq : fst (acquireLock w) = Ok tt) :
  exists w' : World,
    updateCheckpointStatus projectHash checkpointHash s toolResponse w
    = (Ok tt, w')
    /\ lock w' = None
    /\ match getCheckpointMetadata projectHash checkpointHash w with
       | Some d =>
           exists d',
             getCheckpointMetadata projectHash checkpointHash w' = Some d'
             /\ status d' = s
             /\ status_updated d' = Some (now w')
             /\ tool_response d'
                = (if responded toolResponse then toolResponse
                   else tool_response d)
             /\ timestamp d' = timestamp d /\ tool_name d' = tool_name d
             /\ tool_input d' = tool_input d /\ session_id d' = session_id d
             /\ files_affected d' = files_affected d
             /\ (forall p h, (p, h) <> (projectHash, checkpointHash) ->
                 getCheckpointMetadata p h w' = getCheckpointMetadata p h w)
       | None => file w' = file w
       end.
Proof.
  destruct (acquired w Hacq) as (w1 & Hrun & Hfile & Hfault & _).
  unfold updateCheckpointStatus. rewrite Hrun.
  unfold getCheckpointMetadata at 1.
  rewrite <- (loadMetadata_file w w1 Hfile).
  destruct (loadMetadata w1 !! projectHash) as [p|] eqn:Hp.
  2:{ eexists. repeat split. exact Hfile. }
  destruct (assoc checkpointHash p) as [d|] eqn:Hd.
  2:{ eexists. repeat split. exact Hfile. }
  unfold saveMetadata. rewrite Hfault.
  eexists. split; [reflexivity|]. split; [reflexivity|].
  exists (with_status s (now w1) toolResponse d).
  split.
  { unfold getCheckpointMetadata, loadMetadata at 1. simpl.
    rewrite lookup_insert_eq. apply assoc_obj_set_eq. }
  repeat (split; [reflexivity|]).
  intros p' h Hne.
  unfold getCheckpointMetadata, loadMetadata at 1. simpl.
  rewrite <- (loadMetadata_file w w1 Hfile).
  destruct (decide (projectHash = p')) as [<-|Hp'].
  - rewrite lookup_insert_eq, Hp. apply assoc_obj_set_ne. congruence.
  - now rewrite lookup_insert_ne.
Qed.

(** C5.  Whenever the lock is obtained, [updateCheckpointStatus] returns
    normally and releases the lock.  If the key holds a record, that record
    gets the given status, the current instant as [status_updated] and, when
    a response is supplied, that response as [tool_response]; its other
    fields and every other key read as before.  If the key holds nothing,
    the persisted document is left as it was. *)
Theorem updateCheckpointStatus_effect (projectHash checkpointHash : string)
    (s : Status) (toolResponse : option JSON) (w : World)
    (Hacq : fst (acquireLock w) = Ok tt) :
  exists w' : World,
    updateCheckpointStatus projectHash checkpointHash s toolResponse w
    = (Ok tt, w')
    /\ lock w' = None
    /\ match getCheckpointMetadata projectHash checkpointHash w with
       | Some d =>
           exists d',
             getCheckpointMetadata projectHash checkpointHash w' = Some d'
             /\ status d' = s
             /\ status_updated d' = Some (now w')
             /\ tool_response d'
                = (if responded toolResponse then toolResponse
                   else tool_response d)
             /\ timestamp d' = timestamp d /\ tool_name d' = tool_name d
             /\ tool_input d' = tool_input d /\ session_id d' = session_id d
             /\ files_affected d' = files_affected d
             /\ (forall p h, (p, h) <> (projectHash, checkpointHash) ->
                 getCheckpointMetadata p h w' = getCheckpointMetadata p h w)
       | None => file w' = file w
       end.
Proof. exact (updateCheckpointStatus_run _ _ _ _ _ Hacq). Qed.

(** C6.  For a count [keepCount >= 0], whenever the lock is obtained,
    [cleanupOldMetadata] returns normally and leaves exactly
    [min keepCount existingCount] records for the project: the first
    [keepCount] of the newest-first order, each as it was and in its old
    place; every record discarded is at most as recent as every record
    kept.  Other projects read as before. *)
Theorem cleanupOldMetadata_keeps_newest (projectHash : string)
    (keepCount : Z) (w : World)
    (Hcount : 0 <= keepCount)
    (Hkeys : List.NoDup (List.map fst (records projectHash w)))
    (Hacq : fst (acquireLock w) = Ok tt) :
  exists w' : World,
    cleanupOldMetadata projectHash keepCount w = (Ok tt, w')
    /\ Z.of_nat (length (records projectHash w'))
       = Z.min keepCount (Z.of_nat (length (records projectHash w)))
    /\ Permutation (records projectHash w')
         (firstn (Z.to_nat keepCount)
            (sort_desc entry_time (records projectHash w)))
    /\ sublist (records projectHash w') (records projectHash w)
    /\ (forall kept gone,
          In kept (records projectHash w') ->
          In gone (records projectHash w) ->
          ~ In gone (records projectHash w') ->
          entry_time gone <= entry_time kept)
    /\ (forall p, p <> projectHash -> records p w' = records p w)
    /\ lock w' = None.
Proof.
  destruct (acquired w Hacq) as (w1 & Hrun & Hfile & Hfault & _).
  unfold cleanupOldMetadata. rewrite Hrun.
  pose proof (loadMetadata_file w w1 Hfile) as Hload.
  set (l := records projectHash w) in *.
  set (sorted := sort_desc entry_time l).
  assert (Hperm : Permutation sorted l) by apply sort_desc_perm.
  assert (Hdom : forall l',
    Permutation l' (firstn (Z.to_nat keepCount) sorted) ->
    forall kept gone, In kept l' -> In gone l -> ~ In gone l' ->
    entry_time gone <= entry_time kept).
  { intros l' Hl' kept gone Hk Hg Hng.
    apply (strongly_sorted_split entry_time
             (firstn (Z.to_nat keepCount) sorted)
             (skipn (Z.to_nat keepCount) sorted)).
    - rewrite firstn_skipn. apply sort_desc_strongly.
    - eapply Permutation_in; eassumption.
    - assert (Hin : In gone sorted)
        by (eapply Permutation_in; [symmetry|]; eassumption).
      rewrite <- (firstn_skipn (Z.to_nat keepCount) sorted) in Hin.
      apply in_app_or in Hin. destruct Hin as [Hin|Hin]; [|assumption].
      exfalso. apply Hng. eapply Permutation_in; [symmetry|]; eassumption. }
  destruct (loadMetadata w1 !! projectHash) as [p|] eqn:Hp.
  - assert (Hl : l = p).
    { unfold l, records, project_of. now rewrite <- Hload, Hp. }
    rewrite <- Hl, sort_desc_length. fold sorted.
    destruct (Z.gtb_spec (Z.of_nat (length l)) keepCount) as [Hgt|Hle].
    + unfold saveMetadata. rewrite Hfault.
      eexists. split; [reflexivity|].
      unfold js_slice_from.
      destruct (Z.ltb_spec keepCount 0) as [?|_]; [lia|].
      set (l' := fold_left _ _ l).
      assert (Hrec : records projectHash
                (releaseLock (set_file (Json (<[projectHash:=l']>
                                                (loadMetadata w1))) w1)) = l').
      { unfold records, project_of, loadMetadata at 1. simpl.
        now rewrite lookup_insert_eq. }
      rewrite Hrec.
      assert (Hkept : Permutation l' (firstn (Z.to_nat keepCount) sorted)).
      { apply delete_back; [assumption|]. now rewrite firstn_skipn. }
      split.
      { rewrite (Permutation_length Hkept), length_firstn.
        unfold sorted. rewrite sort_desc_length. lia. }
      split; [assumption|].
      split.
      { unfold l'. rewrite delete_batch. apply filter_sublist. }
      split; [now apply Hdom|].
      split; [|reflexivity].
      intros p' Hne. unfold records, project_of, loadMetadata at 1. simpl.
      rewrite lookup_insert_ne by congruence. now rewrite Hload.
    + eexists. split; [reflexivity|].
      assert (Hrec : forall q, records q (releaseLock w1) = records q w).
      { intros q. unfold records. f_equal. now apply loadMetadata_file. }
      rewrite !Hrec. fold l.
      assert (Hall : firstn (Z.to_nat keepCount) sorted = sorted).
      { apply firstn_all2. unfold sorted. rewrite sort_desc_length. lia. }
      split; [lia|].
      split; [rewrite Hall; now symmetry|].
      split; [reflexivity|].
      split; [|split; [intros; apply Hrec|reflexivity]].
      intros kept gone _ Hg Hng. contradiction.
  - assert (Hl : l = []).
    { unfold l, records, project_of. now rewrite <- Hload, Hp. }
    eexists. split; [reflexivity|].
    assert (Hrec : forall q, records q (releaseLock w1) = records q w).
    { intros q. unfold records. f_equal. now apply loadMetadata_file. }
    rewrite !Hrec. fold l. unfold sorted. rewrite Hl. simpl.
    split; [lia|]. rewrite firstn_nil.
    repeat split; auto. intros kept gone [].
Qed.

(** Distinct keys are an invariant of the store: they hold of a missing or
    unreadable document and every operation keeps them. *)
Lemma records_file w w' :
  file w' = file w -> forall p, records p w' = records p w.
Proof. intros Hf p. unfold records. now rewrite (loadMetadata_file _ _ Hf). Qed.

Lemma records_saved metadata w p q l :
  fault w = None ->
  records q (releaseLock (snd (saveMetadata (<[p := l]> metadata) w)))
  = if decide (p = q) then l else project_of metadata q.
Proof.
  intros Hf. unfold saveMetadata. rewrite Hf. simpl.
  unfold records, project_of, loadMetadata. simpl.
  destruct (decide (p = q)) as [<-|Hne].
  - now rewrite lookup_insert_eq.
  - now rewrite lookup_insert_ne.
Qed.

Lemma distinct_keys_empty w :
  file w = NoFile \/ file w = Garbled -> distinct_keys w.
Proof.
  intros Hf p. unfold records, project_of, loadMetadata.
  destruct Hf as [-> | ->]; rewrite lookup_empty; constructor.
Qed.

Lemma filter_keys (P : string * CheckpointMetadata -> bool) l :
  List.NoDup (List.map fst l) -> List.NoDup (List.map fst (List.filter P l)).
Proof.
  induction l as [|e l IH]; simpl; intros Hnd; [constructor|].
  inversion Hnd as [|? ? Hnot Hnd']; subst.
  destruct (P e); simpl; [|now apply IH].
  constructor; [|now apply IH].
  intros Hin. apply Hnot. apply in_map_iff in Hin.
  destruct Hin as (x & Hx & Hin). apply filter_In in Hin.
  rewrite <- Hx. apply in_map. tauto.
Qed.

Lemma addCheckpoint_distinct_keys p h toolName toolInput sessionId w :
  distinct_keys w ->
  distinct_keys (snd (addCheckpoint p h toolName toolInput sessionId w)).
Proof.
  intros Hw q. unfold addCheckpoint.
  destruct (acquireLock w) as [[[]|e] w1] eqn:Hrun;
    destruct (acquireLock_frame _ _ _ Hrun) as (Hfile & _ & _ & _ & Hok).
  2:{ simpl. rewrite (records_file _ _ Hfile). apply Hw. }
  destruct (Hok eq_refl) as [Hfault _].
  match goal with |- context [saveMetadata ?m w1] =>
    destruct (saveMetadata m w1) as [[[]|e] w2] eqn:Hsave end.
  - cbn [snd]. change w2 with (snd (Ok tt, w2)). rewrite <- Hsave.
    rewrite records_saved by assumption.
    destruct (decide (p = q)) as [<-|_].
    + apply obj_set_keys. fold (records p w1).
      rewrite (records_file _ _ Hfile). apply Hw.
    + fold (records q w1). rewrite (records_file _ _ Hfile). apply Hw.
  - unfold saveMetadata in Hsave. rewrite Hfault in Hsave. discriminate.
Qed.

Lemma updateCheckpointStatus_distinct_keys p h s toolResponse w :
  distinct_keys w ->
  distinct_keys (snd (updateCheckpointStatus p h s toolResponse w)).
Proof.
  intros Hw q. unfold updateCheckpointStatus.
  destruct (acquireLock w) as [[[]|e] w1] eqn:Hrun;
    destruct (acquireLock_frame _ _ _ Hrun) as (Hfile & _ & _ & _ & Hok).
  2:{ simpl. rewrite (records_file _ _ Hfile). apply Hw. }
  destruct (Hok eq_refl) as [Hfault _].
  assert (Hsame : List.NoDup (List.map fst (records q (releaseLock w1)))).
  { rewrite (records_file w (releaseLock w1)) by exact Hfile. apply Hw. }
  destruct (loadMetadata w1 !! p) as [l|] eqn:Hp; [|exact Hsame].
  destruct (assoc h l) as [d|]; [|exact Hsame].
  match goal with |- context [saveMetadata ?m w1] =>
    destruct (saveMetadata m w1) as [r w2] eqn:Hsave end.
  cbn [snd]. change w2 with (snd (r, w2)). rewrite <- Hsave.
  rewrite records_saved by assumption.
  destruct (decide (p = q)) as [<-|_].
  - apply obj_set_keys.
    replace l with (records p w1)
      by (unfold records, project_of; now rewrite Hp).
    rewrite (records_file _ _ Hfile). apply Hw.
  - fold (records q w1). rewrite (records_file _ _ Hfile). apply Hw.
Qed.

Lemma cleanupOldMetadata_distinct_keys p keepCount w :
  distinct_keys w -> distinct_keys (snd (cleanupOldMetadata p keepCount w)).
Proof.
  intros Hw q. unfold cleanupOldMetadata.
  destruct (acquireLock w) as [[[]|e] w1] eqn:Hrun;
    destruct (acquireLock_frame _ _ _ Hrun) as (Hfile & _ & _ & _ & Hok).
  2:{ simpl. rewrite (records_file _ _ Hfile). apply Hw. }
  destruct (Hok eq_refl) as [Hfault _].
  assert (Hsame : List.NoDup (List.map fst (records q (releaseLock w1)))).
  { rewrite (records_file w (releaseLock w1)) by exact Hfile. apply Hw. }
  destruct (loadMetadata w1 !! p) as [l|] eqn:Hp; [|exact Hsame].
  destruct (_ >? keepCount); [|exact Hsame].
  match goal with |- context [saveMetadata ?m w1] =>
    destruct (saveMetadata m w1) as [r w2] eqn:Hsave end.
  cbn [snd]. change w2 with (snd (r, w2)). rewrite <- Hsave.
  rewrite records_saved by assumption.
  destruct (decide (p = q)) as [<-|_].
  - rewrite delete_batch. apply filter_keys.
    replace l with (records p w1)
      by (unfold records, project_of; now rewrite Hp).
    rewrite (records_file _ _ Hfile). apply Hw.
  - fold (records q w1). rewrite (records_file _ _ Hfile). apply Hw.
Qed.

End Store.

(** ** The shadow repository manager *)

Section Shadow.
Import GitOps.

Lemma chars_length s : length (chars s) = String.length s.
Proof. induction s as [|c s IH]; simpl; [reflexivity|]. now rewrite IH. Qed.

Lemma validateCheckpointHash_malformed h :
  malformed h -> validateCheckpointHash h = false.
Proof.
  intros Hbad. unfold validateCheckpointHash.
  destruct (String.eqb h ""); [reflexivity|].
  destruct Hbad as [(c & Hin & Hc)|Hlen].
  - assert (Hall : forallb is_hex (chars h) = false).
    { destruct (forallb is_hex (chars h)) eqn:Hall; [|reflexivity].
      rewrite forallb_forall in Hall. rewrite (Hall c Hin) in Hc.
      discriminate. }
    now rewrite Hall.
  - rewrite chars_length.
    destruct (Nat.leb_spec (String.length h) 40); [lia|].
    apply andb_false_r.
Qed.

(** The pattern accepts exactly the non-empty strings of at most 40 hex
    digits. *)
Lemma validateCheckpointHash_true h :
  validateCheckpointHash h = true <->
  h <> "" /\ (String.length h <= 40)%nat
  /\ forall c, In c (chars h) -> is_hex c = true.
Proof.
  unfold validateCheckpointHash. rewrite chars_length.
  destruct (String.eqb_spec h "") as [->|Hne].
  - split; [discriminate|]. intros [[] _]. reflexivity.
  - rewrite !andb_true_iff, forallb_forall, !Nat.leb_le.
    split.
    + intros [[Hall _] Hlen]. auto.
    + intros (_ & Hlen & Hall). repeat split; try assumption.
      destruct h; [congruence|simpl; lia].
Qed.

(** C1, as amended.  [restoreCheckpoint] rejects every hash argument that
    contains a character outside [a-fA-F0-9] or has more than 40 characters:
    it returns [false] and no engine command is issued. *)
Theorem restoreCheckpoint_rejects_malformed (E : Env) (m : Manager)
    (checkpointHash : string) (dryRun : bool) (w : World)
    (Hbad : malformed checkpointHash) :
  rejected E m checkpointHash dryRun w.
Proof.
  unfold rejected, restoreCheckpoint, doPathExists.
  rewrite (validateCheckpointHash_malformed _ Hbad).
  destruct (pathExists E (trace w) (checkpointRepo m)); simpl; auto.
Qed.

(** What a single command adds to the log. *)
Lemma git_calls_runGit E a dir w :
  git_calls (snd (runGit E a dir w))
  = {| args := a; cwd := dir |} :: git_calls w.
Proof. reflexivity. Qed.

(** *** Listing *)

Lemma listProjectCheckpoints_records p w :
  Metadata.listProjectCheckpoints p w
  = sort_desc Metadata.data_time (List.map attach (records p w)).
Proof.
  unfold Metadata.listProjectCheckpoints, records, Metadata.project_of.
  now destruct (Metadata.loadMetadata w !! p).
Qed.



(** *** Creating a check point *)

Lemma essential_listed metadata l :
  listed_files metadata l -> essential metadata = Ok (minimal metadata l).
Proof. unfold listed_files, essential. now intros ->. Qed.



End Shadow.

(** ** The hook handlers *)

Section Handlers.

Lemma annotation_listed toolName sessionId toolInput :
  exists l, listed_files (Hook.annotation toolName sessionId toolInput) l.
Proof. unfold listed_files, Hook.annotation. simpl. eauto. Qed.

Lemma createCheckpoint_listed_ok E m message metadata l w :
  listed_files metadata l ->
  exists r, fst (GitOps.createCheckpoint E m message metadata w) = Ok r.
Proof.
  intros Hfiles. unfold GitOps.createCheckpoint.
  destruct (GitOps.initCheckpointRepo E m w) as [[] w1]; simpl; [|eauto].
  rewrite (essential_listed _ _ Hfiles).
  destruct (GitOps.validateMetadataSize E metadata);
    destruct (GitOps.commitTree _ _ _ _ _); simpl; eauto.
Qed.

Lemma checkpointAndRecord_zero S toolName toolInput sessionId w n :
  fst (Hook.checkpointAndRecord S toolName toolInput sessionId w) = Ok n -> n = 0.
Proof.
  unfold Hook.checkpointAndRecord.
  destruct (GitOps.createCheckpoint _ _ _ _ _) as [[[h|]|e] w1]; simpl;
    try congruence.
  destruct (String.eqb h ""); simpl; [congruence|].
  destruct (Metadata.addCheckpoint _ _ _ _ _ _) as [[]]; simpl; congruence.
Qed.

Lemma checkpointAndRecord_absent S toolName toolInput sessionId w :
  fst (GitOps.createCheckpoint (Hook.env S) (Hook.manager S)
         (Hook.describe toolName toolInput)
         (Hook.annotation toolName sessionId toolInput) w) = Ok None ->
  fst (Hook.checkpointAndRecord S toolName toolInput sessionId w) = Ok 0.
Proof.
  unfold Hook.checkpointAndRecord.
  destruct (GitOps.createCheckpoint _ _ _ _ _) as [[[h|]|e] w1]; simpl;
    congruence.
Qed.

(** Where the pre-tool-use handler returns, it returns 0.  For every
    before-mutation event with a check-point-worthy tool name: whenever the
    handler returns a code, the code is 0; if the project
    repository cannot be initialised it returns 0; and if the check point
    cannot be created it returns 0. *)
Theorem handlePreToolUse_returns_zero (S : Hook.Site) (inputData : Hook.HookInput)
    (w : World) (Htool : Hook.member (toolOf inputData) Hook.preTools = true) :
  (forall n, fst (Hook.handlePreToolUse S inputData w) = Ok n -> n = 0)
  /\ (repo_ready S w = None -> fst (Hook.handlePreToolUse S inputData w) = Ok 0)
  /\ (forall w1, repo_ready S w = Some w1 ->
      fst (attempt S inputData w1) = Ok None ->
      fst (Hook.handlePreToolUse S inputData w) = Ok 0).
Proof.
  unfold Hook.handlePreToolUse, repo_ready, attempt.
  fold (toolOf inputData) (inputOf inputData) (sessionOf inputData).
  rewrite Htool. cbn [negb].
  destruct (negb (Config.enabled (Hook.config S))).
  { simpl. repeat split; congruence. }
  destruct (Hook.excluded S (inputOf inputData)).
  { simpl. repeat split; congruence. }
  destruct (GitOps.isGitRepo (Hook.env S) (Hook.manager S) w) as [[] w1].
  - split; [intros n; apply checkpointAndRecord_zero|].
    split; [discriminate|].
    intros ? [= <-]. apply checkpointAndRecord_absent.
  - destruct (GitOps.initProjectRepo (Hook.env S) (Hook.manager S) w1) as [[] w2];
      cbn [negb].
    + split; [intros n; apply checkpointAndRecord_zero|].
      split; [discriminate|].
      intros ? [= <-]. apply checkpointAndRecord_absent.
    + simpl. repeat split; congruence.
Qed.

(** The handler throws only out of the metadata store, after a check point
    was made. *)
Lemma handlePreToolUse_throws_from_store S inputData w e :
  fst (Hook.handlePreToolUse S inputData w) = Throw e ->
  exists w1 h w2,
    attempt S inputData w1 = (Ok (Some h), w2)
    /\ fst (Metadata.addCheckpoint (GitOps.projectHash (Hook.manager S)) h
              (toolOf inputData) (inputOf inputData) (sessionOf inputData) w2)
       = Throw e.
Proof.
  assert (Hstep : forall w1,
    fst (Hook.checkpointAndRecord S (toolOf inputData) (inputOf inputData)
           (sessionOf inputData) w1) = Throw e ->
    exists h w2,
      attempt S inputData w1 = (Ok (Some h), w2)
      /\ fst (Metadata.addCheckpoint (GitOps.projectHash (Hook.manager S)) h
                (toolOf inputData) (inputOf inputData) (sessionOf inputData)
                w2) = Throw e).
  { intros w1. unfold Hook.checkpointAndRecord, attempt.
    destruct (annotation_listed (toolOf inputData) (sessionOf inputData)
                (inputOf inputData)) as [l Hl].
    destruct (createCheckpoint_listed_ok (Hook.env S) (Hook.manager S)
                (Hook.describe (toolOf inputData) (inputOf inputData)) _ l w1 Hl)
      as [r Hr].
    destruct (GitOps.createCheckpoint _ _ _ _ _) as [r' w2]. simpl in Hr.
    subst r'. destruct r as [h|]; simpl; [|discriminate].
    destruct (String.eqb h ""); simpl; [discriminate|].
    destruct (Metadata.addCheckpoint _ _ _ _ _ _) as [[] w3] eqn:Hadd;
      simpl; [discriminate|].
    intros [= ->]. exists h, w2. now rewrite Hadd. }
  unfold Hook.handlePreToolUse.
  fold (toolOf inputData) (inputOf inputData) (sessionOf inputData).
  destruct (negb (Config.enabled (Hook.config S))); [discriminate|].
  destruct (negb (Hook.member _ _)); [discriminate|].
  destruct (Hook.excluded _ _); [discriminate|].
  destruct (GitOps.isGitRepo _ _ _) as [[] w1].
  - intros H. destruct (Hstep _ H) as (h & w2 & ?). eauto.
  - destruct (GitOps.initProjectRepo _ _ _) as [[] w2]; cbn [negb];
      [|discriminate].
    intros H. destruct (Hstep _ H) as (h & w3 & ?). eauto.
Qed.


(** C10.  For every after-mutation event whose tool name is one the
    post-tool-use handler processes, with the hook enabled, at least one
    record stored for the project, and the lock obtained: the handler
    returns 0 and updates the record at the head of the newest-first list,
    which is at least as recent as every record of the project whatever its
    session or tool.  The status written is [failed] exactly when the
    [success] field of the event's [tool_response] is the boolean [false],
    and [success] in every other case (field missing, or any other value);
    the response is stored with it, and no other key changes. *)
Theorem handlePostToolUse_marks_latest (S : Hook.Site) (inputData : Hook.HookInput)
    (w : World) (latest : CheckpointData) (rest : list CheckpointData)
    (Hon : Config.enabled (Hook.config S) = true)
    (Htool : Hook.member (toolOf inputData) Hook.postTools = true)
    (Hlist : Metadata.listProjectCheckpoints
               (GitOps.projectHash (Hook.manager S)) w = latest :: rest)
    (Hkeys : List.NoDup
               (List.map fst (records (GitOps.projectHash (Hook.manager S)) w)))
    (Hacq : fst (Metadata.acquireLock w) = Ok tt) :
  let p := GitOps.projectHash (Hook.manager S) in
  let toolResponse := Hook.responseOf inputData in
  (forall e, In e (records p w) ->
     Metadata.entry_time e <= Metadata.data_time latest)
  /\ Metadata.getCheckpointMetadata p (hash latest) w = Some (data latest)
  /\ exists (w' : World) (d' : CheckpointMetadata),
       Hook.handlePostToolUse S inputData w = (Ok 0, w')
       /\ Metadata.getCheckpointMetadata p (hash latest) w' = Some d'
       /\ (status d' = failed <->
           prop "success" toolResponse = Some (JBool false))
       /\ (status d' = success <->
           prop "success" toolResponse <> Some (JBool false))
       /\ tool_response d' = Some toolResponse
       /\ status_updated d' = Some (now w')
       /\ timestamp d' = timestamp (data latest)
       /\ tool_name d' = tool_name (data latest)
       /\ session_id d' = session_id (data latest)
       /\ (forall q h, (q, h) <> (p, hash latest) ->
           Metadata.getCheckpointMetadata q h w'
           = Metadata.getCheckpointMetadata q h w).
Proof.
  intros p toolResponse. subst p toolResponse.
  set (p := GitOps.projectHash (Hook.manager S)) in *.
  set (toolResponse := Hook.responseOf inputData).
  assert (Hnewest : forall e, In e (records p w) ->
            Metadata.entry_time e <= Metadata.data_time latest).
  { intros e He.
    change (Metadata.entry_time e) with (Metadata.data_time (attach e)).
    apply (sort_desc_head Metadata.data_time latest rest
             (List.map attach (records p w))).
    - now rewrite <- listProjectCheckpoints_records.
    - now apply (in_map attach). }
  assert (Hstored : Metadata.getCheckpointMetadata p (hash latest) w
                    = Some (data latest)).
  { rewrite get_records. apply In_assoc; [assumption|].
    assert (Hin : In latest (List.map attach (records p w))).
    { eapply Permutation_in; [apply (sort_desc_perm Metadata.data_time)|].
      rewrite <- listProjectCheckpoints_records. rewrite Hlist. now left. }
    apply in_map_iff in Hin. destruct Hin as ([k d] & <- & Hin). exact Hin. }
  split; [assumption|]. split; [assumption|].
  destruct (updateCheckpointStatus_run p (hash latest) (Hook.outcome toolResponse)
              (Some toolResponse) w Hacq) as (w' & Hrun & _ & Heff).
  rewrite Hstored in Heff.
  destruct Heff as (d' & Hget & Hst & Hupd & Hresp & Hts & Htn & _ & Hsid
                    & _ & Hothers).
  exists w', d'.
  split.
  { unfold Hook.handlePostToolUse. rewrite Hon. cbn [negb].
    fold (toolOf inputData). rewrite Htool. cbn [negb].
    fold p. rewrite Hlist. fold toolResponse. now rewrite Hrun. }
  split; [assumption|].
  assert (Htruthy : Metadata.responded (Some toolResponse) = true).
  { unfold toolResponse, Hook.responseOf, or_else_obj, Metadata.responded.
    destruct (Hook.tool_response inputData) as [v|]; [|reflexivity].
    destruct (truthy v) eqn:Hv; [assumption|reflexivity]. }
  rewrite Htruthy in Hresp.
  assert (Hout : (Hook.outcome toolResponse = failed <->
                  prop "success" toolResponse = Some (JBool false))
                 /\ (Hook.outcome toolResponse = success <->
                     prop "success" toolResponse <> Some (JBool false))).
  { unfold Hook.outcome.
    destruct (prop "success" toolResponse) as [[| [] | | | |]|];
      split; split; congruence. }
  rewrite Hst. destruct Hout as [Hfailed Hsuccess].
  repeat (split; [assumption|]). assumption.
Qed.

End Handlers.

(** ** The exclusion policy *)

Section Exclusion.
Import Config.

Lemma shouldExcludeFile_relative cfg relative stat filePath :
  isAbsolute filePath = false ->
  shouldExcludeFile cfg relative stat filePath
  = existsb (pattern_excludes filePath) (exclude_patterns cfg)
    || too_large cfg (stat filePath).
Proof.
  intros Hrel. unfold shouldExcludeFile. rewrite Hrel.
  now destruct (existsb _ _).
Qed.

(** C9, the failing case.  Under the default patterns no pattern excludes
    [build/x.js]: the pattern [build/] ends in a separator and the parts
    it is compared with ([build], [build/x.js]) do not.  The verdict is
    left to the size check, so a file that is missing, unreadable or within
    the size limit is not excluded. *)
Theorem shouldExcludeFile_build_file_kept (relative : string -> string)
    (stat : string -> FileStat)
    (Hsmall : too_large getDefaultConfig (stat "build/x.js") = false) :
  shouldExcludeFile getDefaultConfig relative stat "build/x.js" = false.
Proof.
  rewrite shouldExcludeFile_relative by reflexivity.
  rewrite Hsmall. vm_compute. reflexivity.
Qed.

(** The parts of C9 that hold: [x.log] and [.env] are excluded, [src/app.ts]
    is not unless it is too large, and a file larger than
    [max_file_size_mb] is excluded under any name. *)
Lemma shouldExcludeFile_default_cases relative stat :
  shouldExcludeFile getDefaultConfig relative stat "x.log" = true
  /\ shouldExcludeFile getDefaultConfig relative stat ".env" = true
  /\ shouldExcludeFile getDefaultConfig relative stat "src/app.ts"
     = too_large getDefaultConfig (stat "src/app.ts").
Proof.
  rewrite !shouldExcludeFile_relative by reflexivity.
  repeat split.
Qed.

Lemma shouldExcludeFile_large cfg relative stat filePath bytes :
  stat filePath = Size bytes ->
  max_file_size_mb cfg * 1024 * 1024 < bytes ->
  shouldExcludeFile cfg relative stat filePath = true.
Proof.
  intros Hstat Hbig. unfold shouldExcludeFile.
  destruct (existsb _ _); [reflexivity|].
  rewrite Hstat. simpl. now apply Z.gtb_lt.
Qed.

(** With a separator at the end the pattern does match. *)
Example minimatch_trailing_separator :
  minimatch "build" "build/" = false /\ minimatch "build/" "build/" = true.
Proof. split; reflexivity. Qed.

Example prefix_paths_sample :
  prefix_paths "build/assets/style.css"
  = ["build"; "build/assets"; "build/assets/style.css"].
Proof. reflexivity. Qed.

Example minimatch_star_samples :
  minimatch "x.log" "*.log" = true /\ minimatch ".log" "*.log" = true
  /\ minimatch "logs/x.log" "*.log" = false
  /\ minimatch "x.logs" "*.log" = false.
Proof. repeat split. Qed.

End Exclusion.

(** ** Sample runs *)

(** A marker stamped 15 s before the call is reclaimed after the wait; one
    stamped 1 s before the call makes the call time out. *)
Example acquireLock_sample_stale :
  let run := Metadata.acquireLock (sample_world (Some 5000)) in
  fst run = Ok tt /\ now (snd run) = 25050
  /\ lock (snd run) = Some 25050 /\ reclaimed (snd run) = [(25050, 5000)].
Proof. vm_compute. repeat split. Qed.

Example acquireLock_sample_fresh :
  let run := Metadata.acquireLock (sample_world (Some 19000)) in
  fst run = Throw LockTimeout /\ now (snd run) = 25050
  /\ lock (snd run) = Some 19000 /\ reclaimed (snd run) = [].
Proof. vm_compute. repeat split. Qed.

Lemma acquireLock_stale_or_timeout_witness :
  fault (sample_world (Some 5000)) = None
  /\ lock (sample_world (Some 5000)) = Some 5000
  /\ fst (Metadata.acquireLock (sample_world (Some 5000))) = Ok tt.
Proof.
  split; [reflexivity|]. split; [reflexivity|].
  destruct (acquireLock_stale_or_timeout (sample_world (Some 5000)) 5000
              eq_refl eq_refl) as (wd & Hpast & _ & _ & _ & _ & Hstale & _).
  change (now (sample_world (Some 5000))) with 20000 in Hpast.
  unfold Metadata.defaultMaxWait in Hpast.
  destruct Hstale as [Hrun _]; [unfold Metadata.staleAfter; lia|].
  rewrite Hrun. reflexivity.
Defined.

Lemma addCheckpoint_then_get_witness :
  fst (Metadata.acquireLock (sample_world None)) = Ok tt
  /\ exists rec w',
       Metadata.addCheckpoint "0a1b2c3d4e5f" sample_head "Write"
         Hook.noInput "s9" (sample_world None) = (Ok rec, w')
       /\ Metadata.getCheckpointMetadata "0a1b2c3d4e5f" sample_head w'
          = Some rec
       /\ status rec = pending.
Proof.
  split; [reflexivity|].
  destruct (addCheckpoint_then_get "0a1b2c3d4e5f" sample_head "Write"
              Hook.noInput "s9" (sample_world None) eq_refl)
    as (rec & w' & Hrun & Hget & Hst & _).
  exists rec, w'. repeat split; assumption.
Defined.

Lemma updateCheckpointStatus_effect_witness :
  fst (Metadata.acquireLock (sample_world None)) = Ok tt
  /\ exists w',
       Metadata.updateCheckpointStatus "0a1b2c3d4e5f" "bbb2" failed
         (Some (JObj [("success", JBool false)])) (sample_world None)
       = (Ok tt, w')
       /\ lock w' = None.
Proof.
  split; [reflexivity|].
  destruct (updateCheckpointStatus_effect "0a1b2c3d4e5f" "bbb2" failed
              (Some (JObj [("success", JBool false)])) (sample_world None)
              eq_refl) as (w' & Hrun & Hlock & _).
  exists w'. split; assumption.
Defined.

Example updateCheckpointStatus_sample :
  let w' := snd (Metadata.updateCheckpointStatus "0a1b2c3d4e5f" "bbb2" failed
                   (Some (JObj [("success", JBool false)]))
                   (sample_world None)) in
  option_map status (Metadata.getCheckpointMetadata "0a1b2c3d4e5f" "bbb2" w')
  = Some failed
  /\ option_map status_updated
       (Metadata.getCheckpointMetadata "0a1b2c3d4e5f" "bbb2" w')
     = Some (Some 20000)
  /\ file (snd (Metadata.updateCheckpointStatus "0a1b2c3d4e5f" "absent"
                  failed None (sample_world None)))
     = file (sample_world None).
Proof. vm_compute. repeat split. Qed.

Lemma sample_keys :
  List.NoDup (List.map fst (records "0a1b2c3d4e5f" (sample_world None))).
Proof.
  vm_compute. repeat constructor; simpl; intuition discriminate.
Defined.

Lemma cleanupOldMetadata_keeps_newest_witness :
  0 <= 2
  /\ List.NoDup (List.map fst (records "0a1b2c3d4e5f" (sample_world None)))
  /\ fst (Metadata.acquireLock (sample_world None)) = Ok tt
  /\ exists w',
       Metadata.cleanupOldMetadata "0a1b2c3d4e5f" 2 (sample_world None)
       = (Ok tt, w')
       /\ Z.of_nat (length (records "0a1b2c3d4e5f" w'))
          = Z.min 2
              (Z.of_nat (length (records "0a1b2c3d4e5f" (sample_world None)))).
Proof.
  split; [lia|]. split; [exact sample_keys|]. split; [reflexivity|].
  destruct (cleanupOldMetadata_keeps_newest "0a1b2c3d4e5f" 2
              (sample_world None) ltac:(lia) sample_keys eq_refl)
    as (w' & Hrun & Hlen & _).
  exists w'. split; assumption.
Defined.

Example cleanupOldMetadata_sample :
  List.map fst
    (records "0a1b2c3d4e5f"
       (snd (Metadata.cleanupOldMetadata "0a1b2c3d4e5f" 2 (sample_world None))))
  = ["bbb2"; "ccc3"].
Proof. vm_compute. reflexivity. Qed.

(** [restoreCheckpoint] on sample hashes: a lower-case letter outside a-f is
    turned away before any command; upper-case hex digits reach the
    engine. *)
Lemma restoreCheckpoint_rejects_malformed_witness :
  malformed "12g4"
  /\ rejected (sample_env []) sample_manager "12g4" false (sample_world None).
Proof.
  assert (Hbad : malformed "12g4").
  { left. exists "g"%char. split; [simpl; tauto|reflexivity]. }
  split; [exact Hbad|].
  exact (restoreCheckpoint_rejects_malformed (sample_env []) sample_manager
           "12g4" false (sample_world None) Hbad).
Defined.

Example restoreCheckpoint_sample_upper_case :
  let run := GitOps.restoreCheckpoint (sample_env []) sample_manager
               "ABCDEF12" true (sample_world None) in
  fst run = true
  /\ GitOps.git_calls (snd run)
     = [{| args := ["checkout"; "ABCDEF12"];
           cwd := GitOps.worktreePath sample_manager |}].
Proof. vm_compute. split; reflexivity. Qed.

(** C1 as stated fails: ["ABCDEF12"] contains characters outside [a-f0-9], yet
    it is not rejected. *)
Lemma restoreCheckpoint_accepts_upper_case :
  ~ (malformed_lower "ABCDEF12" ->
     rejected (sample_env []) sample_manager "ABCDEF12" true (sample_world None)).
Proof.
  intros H. destruct H as [Hfalse _].
  - left. exists "A"%char. split; [simpl; tauto|reflexivity].
  - vm_compute in Hfalse. discriminate.
Qed.



Example listProjectCheckpoints_sample :
  List.map hash
    (Metadata.listProjectCheckpoints "0a1b2c3d4e5f" (sample_world None))
  = ["bbb2"; "ccc3"; "aaa1"].
Proof. vm_compute. reflexivity. Qed.




(** A payload within the cap is attached as it is. *)
Example createCheckpoint_sample_small :
  let run := GitOps.createCheckpoint (sample_env []) sample_manager "m"
               (sample_payload "...") (sample_world None) in
  fst run = Ok (Some sample_head)
  /\ nth_error (GitOps.git_calls (snd run)) 1
     = Some (note_call (sample_env []) sample_manager (sample_payload "...")
               sample_head).
Proof. vm_compute. split; reflexivity. Qed.

(** An oversized payload (a blob of 2^20 characters): the commit is made
    and the note carries tool name, session id and the first ten of the
    twelve files.  The same blob next to a [files] that is a number, which
    has no [slice]: the call throws. *)
Example createCheckpoint_sample_oversized :
  let run := GitOps.createCheckpoint (sample_env []) sample_manager "m"
               (sample_payload sample_blob) (sample_world None) in
  GitOps.validateMetadataSize (sample_env []) (sample_payload sample_blob)
  = false
  /\ fst run = Ok (Some sample_head)
  /\ nth_error (GitOps.git_calls (snd run)) 1
     = Some (note_call (sample_env []) sample_manager
               (JObj [("tool_name", JStr "Write"); ("session_id", JStr "s1");
                      ("files", JArr (firstn 10 sample_files))])
               sample_head)
  /\ fst (GitOps.createCheckpoint (sample_env []) sample_manager "m"
            (JObj [("files", JNum 5); ("blob", JStr sample_blob)])
            (sample_world None))
     = Throw TypeError.
Proof. vm_compute. repeat split. Qed.

Lemma handlePreToolUse_returns_zero_witness :
  Hook.member (toolOf (write_event None)) Hook.preTools = true
  /\ fst (Hook.handlePreToolUse (sample_site []) (write_event None)
            (sample_world None)) = Ok 0.
Proof.
  split; [reflexivity|].
  destruct (handlePreToolUse_returns_zero (sample_site [])
              (write_event None) (sample_world None) eq_refl) as [Hzero _].
  destruct (fst (Hook.handlePreToolUse (sample_site []) (write_event None)
                   (sample_world None))) as [n|e] eqn:Hrun.
  - now rewrite (Hzero n eq_refl).
  - vm_compute in Hrun. discriminate.
Defined.


(** A run that records the check point, and one that meets a fresh lock
    held by someone else: the check point is made, the record is not, and
    the handler throws instead of returning. *)
Example handlePreToolUse_sample_recorded :
  let run := Hook.handlePreToolUse (sample_site []) (write_event None)
               (sample_world None) in
  fst run = Ok 0
  /\ option_map status
       (Metadata.getCheckpointMetadata "0a1b2c3d4e5f" sample_head (snd run))
     = Some pending.
Proof. vm_compute. split; reflexivity. Qed.

Example handlePreToolUse_sample_lock_held :
  fst (Hook.handlePreToolUse (sample_site []) (write_event None)
         (sample_world (Some 19000))) = Throw LockTimeout.
Proof. vm_compute. reflexivity. Qed.

Lemma shouldExcludeFile_build_file_kept_witness :
  Config.too_large Config.getDefaultConfig Config.Absent = false
  /\ Config.shouldExcludeFile Config.getDefaultConfig (fun p => p)
       (fun _ => Config.Absent) "build/x.js" = false.
Proof.
  split; [reflexivity|].
  exact (shouldExcludeFile_build_file_kept (fun p => p)
           (fun _ => Config.Absent) eq_refl).
Defined.

Lemma handlePostToolUse_marks_latest_witness :
  Hook.member (toolOf (write_event (Some (JObj [("success", JBool false)]))))
    Hook.postTools = true
  /\ exists w' d',
       Hook.handlePostToolUse (sample_site [])
         (write_event (Some (JObj [("success", JBool false)])))
         (sample_world None) = (Ok 0, w')
       /\ Metadata.getCheckpointMetadata "0a1b2c3d4e5f" "bbb2" w' = Some d'
       /\ status d' = failed.
Proof.
  split; [reflexivity|].
  destruct (handlePostToolUse_marks_latest (sample_site [])
              (write_event (Some (JObj [("success", JBool false)])))
              (sample_world None)
              {| hash := "bbb2";
                 data := sample_record 3000 "Edit" "s2" pending |}
              [{| hash := "ccc3";
                  data := sample_record 3000 "Manual" "s3" pending |};
               {| hash := "aaa1";
                  data := sample_record 1000 "Write" "s1" success |}]
              eq_refl eq_refl eq_refl sample_keys eq_refl)
    as (_ & _ & w' & d' & Hrun & Hget & Hfailed & _).
  exists w', d'. split; [exact Hrun|]. split; [exact Hget|].
  apply Hfailed. reflexivity.
Defined.

(** Any value of [success] other than the boolean [false] counts as a
    success; the record updated is the head of the list, made by another
    session with another tool. *)
Example handlePostToolUse_sample_statuses :
  List.map
    (fun response =>
       option_map status
         (Metadata.getCheckpointMetadata "0a1b2c3d4e5f" "bbb2"
            (snd (Hook.handlePostToolUse (sample_site [])
                    (write_event response) (sample_world None)))))
    [None; Some (JObj []); Some (JObj [("success", JBool true)]);
     Some (JObj [("success", JNull)]); Some (JObj [("success", JNum 0)]);
     Some (JObj [("success", JStr "false")]);
     Some (JObj [("success", JBool false)])]
  = [Some success; Some success; Some success; Some success; Some success;
     Some success; Some failed].
Proof. vm_compute. reflexivity. Qed.

(** * Further properties *)

(** ** Who touches what *)

Section Ownership.



Lemma same_store_log e w : same_store w (log_event e w).
Proof. repeat split. Qed.












Lemma acquireLock_trace w : trace (snd (Metadata.acquireLock w)) = trace w.
Proof.
  destruct (Metadata.acquireLock w) as [r w1] eqn:Hrun.
  now destruct (acquireLock_frame _ _ _ Hrun) as (_ & _ & Htrace & _).
Qed.

(** X2.  The metadata store never talks to the engine or the project tree:
    [addCheckpoint], [updateCheckpointStatus] and [cleanupOldMetadata]
    leave the log of external operations as it was, whether they succeed or
    throw. *)
Theorem store_leaves_engine_alone (projectHash checkpointHash : string)
    (w : World) :
  (forall toolName toolInput sessionId,
     trace (snd (Metadata.addCheckpoint projectHash checkpointHash toolName
                   toolInput sessionId w)) = trace w)
  /\ (forall s toolResponse,
        trace (snd (Metadata.updateCheckpointStatus projectHash checkpointHash
                      s toolResponse w)) = trace w)
  /\ (forall keepCount,
        trace (snd (Metadata.cleanupOldMetadata projectHash keepCount w))
        = trace w).
Proof.
  pose proof (acquireLock_trace w) as Hacq.
  unfold Metadata.addCheckpoint, Metadata.updateCheckpointStatus,
    Metadata.cleanupOldMetadata, Metadata.saveMetadata.
  destruct (Metadata.acquireLock w) as [[[]|e] w1]; cbn [snd] in Hacq.
  2:{ repeat split; intros; exact Hacq. }
  repeat split; intros; answers; cbn; exact Hacq.
Qed.

End Ownership.

(** ** What the store operations do to the records *)

Section StoreRuns.
Import Metadata.

Lemma records_released w q : records q (releaseLock w) = records q w.
Proof. reflexivity. Qed.

(** [addCheckpoint] once the lock is obtained. *)
Lemma addCheckpoint_records p h toolName toolInput sessionId w
    (Hacq : fst (acquireLock w) = Ok tt) :
  exists w',
    addCheckpoint p h toolName toolInput sessionId w
    = (Ok (fresh_record (now w') toolName toolInput sessionId), w')
    /\ (forall q,
          records q w'
          = if decide (p = q)
            then obj_set h (fresh_record (now w') toolName toolInput sessionId)
                   (records p w)
            else records q w)
    /\ lock w' = None /\ fault w' = None.
Proof.
  destruct (acquired w Hacq) as (w1 & Hrun & Hfile & Hfault & _).
  unfold addCheckpoint. rewrite Hrun. unfold saveMetadata. rewrite Hfault.
  exists (releaseLock
            (set_file
               (Json (<[p := obj_set h
                               (fresh_record (now w1) toolName toolInput
                                  sessionId)
                               (project_of (loadMetadata w1) p)]>
                        (loadMetadata w1))) w1)).
  split; [reflexivity|]. split; [|split; [reflexivity|exact Hfault]].
  intros q. unfold records at 1, project_of at 1, loadMetadata at 1. simpl.
  destruct (decide (p = q)) as [<-|Hne].
  - rewrite lookup_insert_eq. unfold records.
    now rewrite (loadMetadata_file w w1 Hfile).
  - rewrite lookup_insert_ne by assumption.
    unfold records, project_of. now rewrite (loadMetadata_file w w1 Hfile).
Qed.

(** [updateCheckpointStatus] once the lock is obtained. *)
Lemma updateCheckpointStatus_records p h s toolResponse w
    (Hacq : fst (acquireLock w) = Ok tt) :
  exists w',
    updateCheckpointStatus p h s toolResponse w = (Ok tt, w')
    /\ (forall q,
          records q w'
          = if decide (p = q)
            then match assoc h (records p w) with
                 | Some d =>
                     obj_set h (with_status s (now w') toolResponse d)
                       (records p w)
                 | None => records p w
                 end
            else records q w)
    /\ lock w' = None /\ fault w' = None.
Proof.
  destruct (acquired w Hacq) as (w1 & Hrun & Hfile & Hfault & _).
  pose proof (loadMetadata_file w w1 Hfile) as Hload.
  assert (Hsame : forall q, records q (releaseLock w1) = records q w).
  { intros q. unfold records. now rewrite <- Hload. }
  unfold updateCheckpointStatus. rewrite Hrun.
  assert (Hrec : records p w = project_of (loadMetadata w1) p)
    by (unfold records; now rewrite Hload).
  unfold project_of in Hrec.
  destruct (loadMetadata w1 !! p) as [l|] eqn:Hp.
  2:{ eexists. split; [reflexivity|]. split; [|split; [reflexivity|exact Hfault]].
      intros q. rewrite Hsame. destruct (decide (p = q)) as [<-|_]; [|reflexivity].
      now rewrite Hrec. }
  rewrite Hrec.
  destruct (assoc h l) as [d|] eqn:Hd.
  2:{ eexists. split; [reflexivity|]. split; [|split; [reflexivity|exact Hfault]].
      intros q. rewrite Hsame. destruct (decide (p = q)) as [<-|_]; [|reflexivity].
      now rewrite Hrec. }
  unfold saveMetadata. rewrite Hfault.
  exists (releaseLock
            (set_file
               (Json (<[p := obj_set h (with_status s (now w1) toolResponse d)
                               l]> (loadMetadata w1))) w1)).
  split; [reflexivity|]. split; [|split; [reflexivity|exact Hfault]].
  intros q. unfold records at 1, project_of at 1, loadMetadata at 1. simpl.
  destruct (decide (p = q)) as [<-|Hne].
  - now rewrite lookup_insert_eq.
  - rewrite lookup_insert_ne by assumption.
    unfold records, project_of. now rewrite Hload.
Qed.

Lemma free_store_acquires w :
  lock w = None -> fault w = None -> fst (acquireLock w) = Ok tt.
Proof. intros Hl Hf. now rewrite (acquireLock_free w Hf Hl). Qed.

Lemma same_store_acquires w w' :
  same_store w w' -> lock w = None -> fault w = None ->
  fst (acquireLock w') = Ok tt.
Proof.
  intros (_ & _ & Hl & Hf & _) Hlock Hfault.
  apply free_store_acquires; congruence.
Qed.

End StoreRuns.

(** ** More on the metadata store *)

Section StoreMore.
Import Metadata.

Lemma obj_set_key_list {A : Type} k (v : A) (l : list (string * A)) :
  List.map fst (obj_set k v l)
  = match assoc k l with
    | Some _ => List.map fst l
    | None => (List.map fst l ++ [k])%list
    end.
Proof.
  induction l as [|[k' v'] l IH]; simpl; [reflexivity|].
  destruct (String.eqb_spec k' k) as [->|_]; simpl; [reflexivity|].
  rewrite IH. now destruct (assoc k l).
Qed.

(** X3.  For a project hash and a check point hash that are ordinary keys
    (no array index such as a hash of a few digits only, no name of an
    inherited member), and whenever the lock is obtained: [addCheckpoint]
    on a hash already recorded for the project replaces that record in
    place (same keys, same order, same count), and on a new hash appends
    one key at the end; the records of other projects are untouched. *)
Theorem addCheckpoint_replaces_or_appends (projectHash checkpointHash : string)
    (toolName : string) (toolInput : ToolInput) (sessionId : string)
    (w : World)
    (Hproject : ordinary_key projectHash = true)
    (Hkey : ordinary_key checkpointHash = true)
    (Hacq : fst (acquireLock w) = Ok tt) :
  let w' := snd (addCheckpoint projectHash checkpointHash toolName toolInput
                   sessionId w) in
  List.map fst (records projectHash w')
  = match getCheckpointMetadata projectHash checkpointHash w with
    | Some _ => List.map fst (records projectHash w)
    | None => (List.map fst (records projectHash w) ++ [checkpointHash])%list
    end
  /\ forall q, q <> projectHash -> records q w' = records q w.
Proof.
  destruct (addCheckpoint_records projectHash checkpointHash toolName
              toolInput sessionId w Hacq) as (w' & Hrun & Hrec & _).
  rewrite Hrun. cbn [snd]. split.
  - rewrite Hrec. destruct (decide (projectHash = projectHash)); [|congruence].
    rewrite obj_set_key_list, get_records. reflexivity.
  - intros q Hq. rewrite Hrec.
    destruct (decide (projectHash = q)); congruence.
Qed.

Lemma acquireLock_throws_frame w e :
  fst (acquireLock w) = Throw e ->
  file (snd (acquireLock w)) = file w
  /\ lock (snd (acquireLock w)) = lock w
  /\ reclaimed (snd (acquireLock w)) = reclaimed w
  /\ e <> OutOfFuel.
Proof.
  intros Hthrow.
  assert (Htotal := acquireLock_total defaultMaxWait w).
  fold (acquireLock w) in Htotal.
  split; [|split; [|split; [|congruence]]].
  - destruct (acquireLock w) as [r w1] eqn:Hrun.
    now destruct (acquireLock_frame _ _ _ Hrun).
  - destruct (fault w) as [code|] eqn:Hf.
    { unfold acquireLock, acquireLock_for. rewrite rounds_S.
      now rewrite (acquireLock_loop_fault _ _ _ _ _ Hf). }
    destruct (lock w) as [m|] eqn:Hl.
    + unfold acquireLock in *.
      rewrite (acquireLock_for_held _ _ _ Hf Hl) in *. unfold verdict in *.
      destruct (_ >? staleAfter); [discriminate|]. cbn [snd].
      destruct (poll_frame (rounds defaultMaxWait) defaultMaxWait (now w) w)
        as (Hlock & _). congruence.
    + rewrite (acquireLock_free w Hf Hl) in Hthrow. discriminate.
  - destruct (fault w) as [code|] eqn:Hf.
    { unfold acquireLock, acquireLock_for. rewrite rounds_S.
      now rewrite (acquireLock_loop_fault _ _ _ _ _ Hf). }
    destruct (lock w) as [m|] eqn:Hl.
    + unfold acquireLock in *.
      rewrite (acquireLock_for_held _ _ _ Hf Hl) in *. unfold verdict in *.
      destruct (_ >? staleAfter); [discriminate|]. cbn [snd].
      now destruct (poll_frame (rounds defaultMaxWait) defaultMaxWait (now w) w)
        as (_ & _ & _ & Hrec & _).
    + rewrite (acquireLock_free w Hf Hl) in Hthrow. discriminate.
Qed.

(** X4.  When the lock cannot be obtained, each mutating operation throws
    the error of [acquireLock] and has written nothing: the document is as
    it was, and the marker (held by someone else) has not been removed. *)
Theorem store_gives_up_without_lock (projectHash checkpointHash : string)
    (w : World) (e : Error) (Hfail : fst (acquireLock w) = Throw e) :
  (forall toolName toolInput sessionId,
     let run := addCheckpoint projectHash checkpointHash toolName toolInput
                  sessionId w in
     fst run = Throw e /\ file (snd run) = file w /\ lock (snd run) = lock w)
  /\ (forall s toolResponse,
        let run := updateCheckpointStatus projectHash checkpointHash s
                     toolResponse w in
        fst run = Throw e /\ file (snd run) = file w
        /\ lock (snd run) = lock w)
  /\ (forall keepCount,
        let run := cleanupOldMetadata projectHash keepCount w in
        fst run = Throw e /\ file (snd run) = file w
        /\ lock (snd run) = lock w).
Proof.
  destruct (acquireLock_throws_frame w e Hfail) as (Hfile & Hlock & _).
  unfold addCheckpoint, updateCheckpointStatus, cleanupOldMetadata.
  destruct (acquireLock w) as [[[]|e'] w1]; cbn [fst snd] in *;
    [discriminate|].
  injection Hfail as ->. repeat split; assumption.
Qed.

(** X5.  [cleanupOldMetadata] with a count that is not below the number of
    records of the project (in particular for a project without records)
    does not write: the persisted document stays as it was, whether or not
    the lock was obtained. *)
Theorem cleanupOldMetadata_within_count (projectHash : string) (keepCount : Z)
    (w : World)
    (Hfew : Z.of_nat (length (records projectHash w)) <= keepCount) :
  file (snd (cleanupOldMetadata projectHash keepCount w)) = file w.
Proof.
  unfold cleanupOldMetadata.
  destruct (acquireLock w) as [r w1] eqn:Hrun.
  destruct (acquireLock_frame _ _ _ Hrun) as (Hfile & _).
  destruct r as [[]|e]; [|exact Hfile].
  assert (Hrec : records projectHash w = project_of (loadMetadata w1) projectHash)
    by (unfold records; now rewrite (loadMetadata_file w w1 Hfile)).
  unfold project_of in Hrec.
  destruct (loadMetadata w1 !! projectHash) as [l|]; [|exact Hfile].
  rewrite sort_desc_length. rewrite Hrec in Hfew.
  destruct (Z.gtb_spec (Z.of_nat (length l)) keepCount); [lia|exact Hfile].
Qed.

End StoreMore.

(** ** Listing order under updates *)

Section ListingOrder.
Import Metadata.

Lemma insert_desc_Forall2 {A B : Type} (ka : A -> Z) (kb : B -> Z)
    (R : A -> B -> Prop) (HR : forall a b, R a b -> ka a = kb b) x y l l' :
  R x y -> List.Forall2 R l l' ->
  List.Forall2 R (insert_desc ka x l) (insert_desc kb y l').
Proof.
  intros Hxy Hl. induction Hl as [|a b l l' Hab Hl IH]; simpl.
  - repeat constructor. assumption.
  - rewrite (HR _ _ Hxy), (HR _ _ Hab).
    destruct (kb y <? kb b); repeat constructor; assumption.
Qed.

(** Sorting two lists whose entries agree pairwise on the stamp rearranges
    both in the same way. *)
Lemma sort_desc_Forall2 {A B : Type} (ka : A -> Z) (kb : B -> Z)
    (R : A -> B -> Prop) (HR : forall a b, R a b -> ka a = kb b) l l' :
  List.Forall2 R l l' ->
  List.Forall2 R (sort_desc ka l) (sort_desc kb l').
Proof.
  induction 1 as [|a b l l' Hab Hl IH]; simpl; [constructor|].
  now apply insert_desc_Forall2.
Qed.

Lemma obj_set_same_key_and_time h d d' (l : list (string * CheckpointMetadata)) :
  assoc h l = Some d -> timestamp d' = timestamp d ->
  List.Forall2 same_key_and_time l (obj_set h d' l).
Proof.
  intros Hd Ht. induction l as [|[k v] l IH]; simpl in *; [discriminate|].
  destruct (String.eqb_spec k h) as [->|_].
  - injection Hd as ->. constructor; [split; simpl; congruence|].
    clear. induction l; constructor; [split; reflexivity|assumption].
  - constructor; [split; reflexivity|]. now apply IH.
Qed.

Lemma Forall2_same_refl (l : list (string * CheckpointMetadata)) :
  List.Forall2 same_key_and_time l l.
Proof. induction l; constructor; [split; reflexivity|assumption]. Qed.

Lemma listing_of_related l l' :
  List.Forall2 same_key_and_time l l' ->
  List.map (fun c => (hash c, data_time c))
    (sort_desc data_time (List.map attach l))
  = List.map (fun c => (hash c, data_time c))
      (sort_desc data_time (List.map attach l')).
Proof.
  intros Hl.
  assert (Hatt : List.Forall2
                   (fun c c' => hash c = hash c' /\ data_time c = data_time c')
                   (List.map attach l) (List.map attach l')).
  { induction Hl as [|e e' l l' [Hk Ht] _ IH]; simpl; constructor;
      [split; assumption|assumption]. }
  apply (sort_desc_Forall2 data_time data_time) in Hatt; [|tauto].
  induction Hatt as [|c c' s s' [Hh Ht] _ IH]; simpl; [reflexivity|].
  now rewrite Hh, Ht, IH.
Qed.

(** X6.  A status update never reorders or resizes a listing: for every
    project, [listProjectCheckpoints] yields the same hashes with the same
    timestamps in the same order before and after
    [updateCheckpointStatus], whatever the key, the status, the response and
    the state of the lock. *)
Theorem updateCheckpointStatus_keeps_listing (projectHash checkpointHash : string)
    (s : Status) (toolResponse : option JSON) (w : World) (q : string) :
  List.map (fun c => (hash c, data_time c))
    (listProjectCheckpoints q
       (snd (updateCheckpointStatus projectHash checkpointHash s toolResponse
               w)))
  = List.map (fun c => (hash c, data_time c)) (listProjectCheckpoints q w).
Proof.
  rewrite !listProjectCheckpoints_records.
  destruct (fst (acquireLock w)) as [[]|e] eqn:Hacq.
  - destruct (updateCheckpointStatus_records projectHash checkpointHash s
                toolResponse w Hacq) as (w' & Hrun & Hrec & _).
    rewrite Hrun. cbn [snd]. rewrite Hrec.
    destruct (decide (projectHash = q)) as [<-|_]; [|reflexivity].
    destruct (assoc checkpointHash (records projectHash w)) as [d|] eqn:Hd;
      [|reflexivity].
    symmetry. apply listing_of_related.
    eapply obj_set_same_key_and_time; [exact Hd|reflexivity].
  - destruct (acquireLock_throws_frame w e Hacq) as (Hfile & _).
    unfold updateCheckpointStatus.
    destruct (acquireLock w) as [[[]|e'] w1]; cbn [fst snd] in *;
      [discriminate|].
    now rewrite (records_file _ _ Hfile).
Qed.

Lemma sort_desc_strict_head {A : Type} (key : A -> Z) x l :
  In x l -> (forall y, In y l -> y = x \/ key y < key x) ->
  exists rest, sort_desc key l = x :: rest.
Proof.
  intros Hx Hstrict.
  destruct (sort_desc key l) as [|z rest] eqn:Hsort.
  - apply (Permutation_in _ (Permutation_sym (sort_desc_perm key l))) in Hx.
    rewrite Hsort in Hx. contradiction.
  - assert (Hz : In z l).
    { apply (Permutation_in _ (sort_desc_perm key l)). rewrite Hsort.
      now left. }
    pose proof (sort_desc_head key z rest l Hsort x Hx) as Hle.
    destruct (Hstrict z Hz) as [->|Hlt]; [eauto|lia].
Qed.

Lemma obj_set_In {A : Type} k (v : A) l e :
  In e (obj_set k v l) -> e = (k, v) \/ In e l.
Proof.
  induction l as [|[k' v'] l IH]; simpl.
  - intros [<-|[]]. now left.
  - destruct (String.eqb_spec k' k) as [->|_]; simpl.
    + intros [<-|H]; auto.
    + intros [<-|H]; auto. destruct (IH H); auto.
Qed.

Lemma obj_set_In_new {A : Type} k (v : A) l : In (k, v) (obj_set k v l).
Proof. apply assoc_In, assoc_obj_set_eq. Qed.

(** X7.  A check point recorded at an instant later than the stamps of all
    records of its project is the one the post-tool-use handler resolves:
    with the store free, [addCheckpoint] followed by [handlePostToolUse]
    (hook enabled, tool Write, Edit or MultiEdit) returns 0 and leaves, under
    the hash just added, the record with the status derived from the
    response, the response itself, and its tool name and timestamp as
    recorded. *)
Theorem handlePostToolUse_after_addCheckpoint (S : Hook.Site)
    (inputData : Hook.HookInput) (checkpointHash toolName : string)
    (toolInput : ToolInput) (sessionId : string) (w : World)
    (Hlock : lock w = None) (Hfault : fault w = None)
    (Hon : Config.enabled (Hook.config S) = true)
    (Htool : Hook.member (toolOf inputData) Hook.postTools = true)
    (Hold : forall e, In e (records (GitOps.projectHash (Hook.manager S)) w) ->
            entry_time e < now w) :
  let p := GitOps.projectHash (Hook.manager S) in
  let w1 := snd (addCheckpoint p checkpointHash toolName toolInput sessionId
                   w) in
  exists (w2 : World) (d : CheckpointMetadata),
    Hook.handlePostToolUse S inputData w1 = (Ok 0, w2)
    /\ getCheckpointMetadata p checkpointHash w2 = Some d
    /\ status d = Hook.outcome (Hook.responseOf inputData)
    /\ tool_response d = Some (Hook.responseOf inputData)
    /\ tool_name d = toolName /\ session_id d = sessionId
    /\ timestamp d = now w.
Proof.
  intros p w1.
  assert (Hw1 : w1 = releaseLock
            (set_file
               (Json (<[p := obj_set checkpointHash
                               (fresh_record (now w) toolName toolInput
                                  sessionId)
                               (project_of (loadMetadata w) p)]>
                        (loadMetadata w)))
               (set_lock (Some (now w)) w))).
  { unfold w1, addCheckpoint. rewrite (acquireLock_free w Hfault Hlock).
    unfold saveMetadata. cbn [fault set_lock]. rewrite Hfault. reflexivity. }
  set (rec := fresh_record (now w) toolName toolInput sessionId) in *.
  assert (Hrec1 : records p w1 = obj_set checkpointHash rec (records p w)).
  { rewrite Hw1. unfold records at 1, project_of at 1, loadMetadata at 1.
    simpl. now rewrite lookup_insert_eq. }
  assert (Hfree : lock w1 = None /\ fault w1 = None).
  { rewrite Hw1. split; [reflexivity|exact Hfault]. }
  destruct Hfree as [Hlock1 Hfault1].
  destruct (sort_desc_strict_head data_time (attach (checkpointHash, rec))
              (List.map attach (records p w1))) as [rest Hhead].
  { apply in_map. rewrite Hrec1. apply obj_set_In_new. }
  { intros y Hy. apply in_map_iff in Hy. destruct Hy as (e & <- & He).
    rewrite Hrec1 in He. apply obj_set_In in He.
    destruct He as [->|He]; [now left|]. right.
    change (data_time (attach e)) with (entry_time e).
    change (data_time (attach (checkpointHash, rec))) with (now w).
    now apply Hold. }
  rewrite <- listProjectCheckpoints_records in Hhead.
  destruct (updateCheckpointStatus_records p checkpointHash
              (Hook.outcome (Hook.responseOf inputData))
              (Some (Hook.responseOf inputData)) w1
              (free_store_acquires w1 Hlock1 Hfault1))
    as (w2 & Hrun & Hrec2 & _).
  exists w2, (with_status (Hook.outcome (Hook.responseOf inputData)) (now w2)
                (Some (Hook.responseOf inputData)) rec).
  split.
  { unfold Hook.handlePostToolUse. rewrite Hon. cbn [negb].
    fold (toolOf inputData). rewrite Htool. cbn [negb].
    fold p. rewrite Hhead. cbn [hash attach fst]. now rewrite Hrun. }
  split.
  { rewrite get_records, Hrec2.
    destruct (decide (p = p)); [|congruence].
    rewrite Hrec1, assoc_obj_set_eq. apply assoc_obj_set_eq. }
  assert (Htruthy : responded (Some (Hook.responseOf inputData)) = true).
  { unfold Hook.responseOf, or_else_obj, responded.
    destruct (Hook.tool_response inputData) as [v|]; [|reflexivity].
    destruct (truthy v) eqn:Hv; [assumption|reflexivity]. }
  unfold with_status. cbn [status tool_response tool_name session_id timestamp].
  rewrite Htruthy. repeat split.
Qed.

End ListingOrder.

(** ** Queries on the metadata *)

Section QueryFacts.
Import Metadata.

(** X8.  [extractFiles] names a file exactly when the tool is Write, Edit or
    MultiEdit, the name is not empty, and it is either the [file_path] of
    the input or, only when the input has no (non-empty) [file_path], the
    [file_path] of one of its edits.  So no file is ever recorded for a
    Manual check point, and the per-edit paths are ignored as soon as the
    input carries its own path. *)
Theorem extractFiles_names (toolName : string) (toolInput : ToolInput)
    (f : string) :
  In f (extractFiles toolName toolInput) <->
  is_edit_tool toolName = true /\ f <> ""
  /\ (file_path toolInput = Some f
      \/ (nonempty (file_path toolInput) = false
          /\ exists es e,
               edits toolInput = Some es /\ In e es
               /\ edit_file_path e = Some f)).
Proof.
  unfold extractFiles.
  destruct (is_edit_tool toolName); [|split; [intros []|intros [[=] _]]].
  destruct (file_path toolInput) as [fp|] eqn:Hfp; cbn [nonempty or_empty].
  - destruct (String.eqb_spec fp "") as [->|Hne]; cbn [negb].
    + destruct (edits toolInput) as [es|]; split.
      * intros Hin. apply in_flat_map in Hin. destruct Hin as (e & He & Hf).
        destruct (edit_file_path e) as [g|] eqn:Hg; cbn [nonempty or_empty] in Hf;
          [|contradiction].
        destruct (String.eqb_spec g ""); cbn [negb] in Hf; [contradiction|].
        destruct Hf as [<-|[]]. repeat split; eauto 10.
      * intros (_ & Hf & [[= <-]|(_ & es' & e & [= <-] & He & Hg)]);
          [congruence|].
        apply in_flat_map. exists e. split; [assumption|].
        rewrite Hg. cbn [nonempty or_empty].
        destruct (String.eqb_spec f ""); [congruence|now left].
      * intros [].
      * intros (_ & Hf & [[= <-]|(_ & es' & e & [=] & _)]). congruence.
    + split.
      * intros [<-|[]]. repeat split; auto.
      * intros (_ & _ & [[= <-]|([=] & _)]). now left.
  - destruct (edits toolInput) as [es|]; split.
    + intros Hin. apply in_flat_map in Hin. destruct Hin as (e & He & Hf).
      destruct (edit_file_path e) as [g|] eqn:Hg; cbn [nonempty or_empty] in Hf;
        [|contradiction].
      destruct (String.eqb_spec g ""); cbn [negb] in Hf; [contradiction|].
      destruct Hf as [<-|[]]. repeat split; eauto 10.
    + intros (_ & Hf & [[=]|(_ & es' & e & [= <-] & He & Hg)]).
      apply in_flat_map. exists e. split; [assumption|].
      rewrite Hg. cbn [nonempty or_empty].
      destruct (String.eqb_spec f ""); [congruence|now left].
    + intros [].
    + intros (_ & _ & [[=]|(_ & es' & e & [=] & _)]).
Qed.

Lemma includes_file_In x files :
  Queries.includes_file x files = true <-> In x files.
Proof.
  unfold Queries.includes_file. rewrite existsb_exists. split.
  - intros (y & Hy & Heq). apply String.eqb_eq in Heq. now subst.
  - intros Hin. exists x. split; [assumption|apply String.eqb_refl].
Qed.

(** X9.  [findCheckpointsByFile] returns, newest first, exactly the listed
    records that name the file; and whenever the lock is obtained, a check
    point added for a Write, Edit or MultiEdit of a non-empty [file_path]
    is found under that path right after. *)
Theorem findCheckpointsByFile_finds_added (projectHash checkpointHash : string)
    (toolName : string) (toolInput : ToolInput) (sessionId f : string)
    (w : World)
    (Hacq : fst (acquireLock w) = Ok tt)
    (Htool : is_edit_tool toolName = true)
    (Hpath : file_path toolInput = Some f) (Hname : f <> "") :
  let w' := snd (addCheckpoint projectHash checkpointHash toolName toolInput
                   sessionId w) in
  (forall c g,
     In c (Queries.findCheckpointsByFile projectHash g w') <->
     In c (listProjectCheckpoints projectHash w')
     /\ In g (files_affected (data c)))
  /\ StronglySorted (newer_eq data_time)
       (Queries.findCheckpointsByFile projectHash f w')
  /\ exists c,
       In c (Queries.findCheckpointsByFile projectHash f w')
       /\ hash c = checkpointHash /\ status (data c) = pending
       /\ files_affected (data c) = [f].
Proof.
  intros w'.
  assert (Hiff : forall c g,
    In c (Queries.findCheckpointsByFile projectHash g w') <->
    In c (listProjectCheckpoints projectHash w')
    /\ In g (files_affected (data c))).
  { intros c g. unfold Queries.findCheckpointsByFile.
    rewrite filter_In, includes_file_In. reflexivity. }
  split; [exact Hiff|]. split.
  { unfold Queries.findCheckpointsByFile.
    rewrite listProjectCheckpoints_records.
    pose proof (sort_desc_strongly data_time
                  (List.map attach (records projectHash w'))) as Hs.
    induction Hs as [|c l Hs IH Hall]; simpl; [constructor|].
    destruct (Queries.includes_file f (files_affected (data c))); [|exact IH].
    constructor; [exact IH|].
    rewrite List.Forall_forall in *. intros x Hx.
    apply filter_In in Hx. now apply Hall. }
  destruct (addCheckpoint_records projectHash checkpointHash toolName
              toolInput sessionId w Hacq) as (w1 & Hrun & Hrec & _).
  assert (Hw' : w' = w1) by (unfold w'; now rewrite Hrun).
  assert (Hfiles : extractFiles toolName toolInput = [f]).
  { unfold extractFiles. rewrite Htool, Hpath. cbn [nonempty or_empty].
    destruct (String.eqb_spec f ""); [congruence|reflexivity]. }
  exists (attach (checkpointHash,
                  fresh_record (now w1) toolName toolInput sessionId)).
  split; [|cbn; auto].
  apply Hiff. split.
  - rewrite listProjectCheckpoints_records.
    apply (Permutation_in _ (Permutation_sym (sort_desc_perm _ _))).
    apply in_map. rewrite Hw', Hrec.
    destruct (decide (projectHash = projectHash)); [|congruence].
    apply obj_set_In_new.
  - cbn. rewrite Hfiles. now left.
Qed.

Lemma count_status_split (checkpoints : list CheckpointData) :
  length checkpoints
  = (Queries.count_success checkpoints + Queries.count_failed checkpoints
     + Queries.count_pending checkpoints)%nat.
Proof.
  unfold Queries.count_success, Queries.count_failed, Queries.count_pending,
    Queries.count_status, Queries.has_status.
  induction checkpoints as [|c l IH]; simpl; [reflexivity|].
  destruct (status (data c)); simpl; lia.
Qed.

(** X10.  In the statistics of a project the three status counts add up to
    the total, the total is the number of stored records, the optional
    fields are present exactly when there is a record, and
    [latest_checkpoint] is the greatest timestamp among the records. *)
Theorem getProjectStats_consistent (projectHash : string) (w : World) :
  let stats := Queries.getProjectStats projectHash w in
  Queries.total_checkpoints stats
  = (Queries.successful stats + Queries.failed stats
     + Queries.pending stats)%nat
  /\ Queries.total_checkpoints stats = length (records projectHash w)
  /\ match Queries.latest_checkpoint stats with
     | Some t =>
         (exists e, In e (records projectHash w) /\ entry_time e = t)
         /\ (forall e, In e (records projectHash w) -> entry_time e <= t)
         /\ Queries.most_modified_files stats <> None
     | None =>
         records projectHash w = []
         /\ Queries.most_modified_files stats = None
     end.
Proof.
  unfold Queries.getProjectStats.
  rewrite listProjectCheckpoints_records.
  set (l := records projectHash w).
  pose proof (sort_desc_length data_time (List.map attach l)) as Hlen.
  rewrite length_map in Hlen.
  destruct (sort_desc data_time (List.map attach l)) as [|c rest] eqn:Hsort;
    cbn [Queries.total_checkpoints Queries.successful Queries.failed
         Queries.pending Queries.latest_checkpoint
         Queries.most_modified_files].
  - repeat split; try assumption.
    destruct l; [reflexivity|discriminate].
  - split; [apply count_status_split|]. split; [assumption|].
    split; [|split; [|discriminate]].
    + assert (Hin : In c (List.map attach l)).
      { apply (Permutation_in _ (sort_desc_perm data_time _)).
        rewrite Hsort. now left. }
      apply in_map_iff in Hin. destruct Hin as (e & <- & He).
      exists e. split; [assumption|reflexivity].
    + intros e He.
      change (entry_time e) with (data_time (attach e)).
      apply (sort_desc_head data_time c rest (List.map attach l) Hsort).
      now apply in_map.
Qed.

End QueryFacts.

Section Tally.
Import Metadata.

Lemma tally_flat checkpoints init :
  fold_left
    (fun fileCounts checkpoint =>
       fold_left Queries.bump (files_affected (data checkpoint)) fileCounts)
    checkpoints init
  = fold_left Queries.bump (all_files checkpoints) init.
Proof.
  revert init. induction checkpoints as [|c l IH]; intros init; simpl;
    [reflexivity|].
  unfold all_files. simpl. rewrite fold_left_app. apply IH.
Qed.

Lemma count_of_bump f g fileCounts :
  count_of f (Queries.bump fileCounts g)
  = count_of f fileCounts + (if String.eqb f g then 1 else 0).
Proof.
  unfold count_of, Queries.bump.
  destruct (String.eqb_spec f g) as [->|Hne].
  - now rewrite assoc_obj_set_eq.
  - rewrite assoc_obj_set_ne by assumption. lia.
Qed.

Lemma mentions_cons f g files :
  mentions f (g :: files)
  = (if String.eqb f g then 1 else 0) + mentions f files.
Proof.
  unfold mentions. simpl. destruct (String.eqb f g); simpl length; lia.
Qed.

Lemma count_of_fold f files fileCounts :
  count_of f (fold_left Queries.bump files fileCounts)
  = count_of f fileCounts + mentions f files.
Proof.
  revert fileCounts. induction files as [|g files IH]; intros fileCounts.
  - unfold mentions. simpl. lia.
  - simpl fold_left. rewrite IH, count_of_bump, mentions_cons. lia.
Qed.

Lemma mentions_In f files : In f files -> 1 <= mentions f files.
Proof.
  induction files as [|g files IH]; [intros []|].
  rewrite mentions_cons. intros [->|Hin].
  - rewrite String.eqb_refl. unfold mentions. lia.
  - specialize (IH Hin). destruct (String.eqb f g); lia.
Qed.

Lemma fold_bump_present f files fileCounts :
  assoc f fileCounts <> None \/ In f files ->
  assoc f (fold_left Queries.bump files fileCounts) <> None.
Proof.
  revert fileCounts. induction files as [|g files IH]; intros fileCounts.
  - simpl. intros [H|[]]. exact H.
  - simpl fold_left. intros H. apply IH. unfold Queries.bump.
    destruct (String.eqb_spec f g) as [->|Hne].
    + left. now rewrite assoc_obj_set_eq.
    + rewrite assoc_obj_set_ne by assumption.
      destruct H as [H|[->|H]]; auto; congruence.
Qed.

Lemma fold_bump_absent f files fileCounts :
  assoc f fileCounts = None -> ~ In f files ->
  assoc f (fold_left Queries.bump files fileCounts) = None.
Proof.
  revert fileCounts. induction files as [|g files IH]; intros fileCounts.
  - auto.
  - simpl fold_left. intros Hnone Hnot. apply IH.
    + unfold Queries.bump. rewrite assoc_obj_set_ne; [assumption|].
      intros ->. apply Hnot. now left.
    + intros Hin. apply Hnot. now right.
Qed.

Lemma fold_bump_keys files fileCounts :
  List.NoDup (List.map fst fileCounts) ->
  List.NoDup (List.map fst (fold_left Queries.bump files fileCounts)).
Proof.
  revert fileCounts. induction files as [|g files IH]; intros fileCounts Hnd;
    [assumption|].
  simpl fold_left. apply IH. unfold Queries.bump. now apply obj_set_keys.
Qed.

(** What the tally holds: one entry per file named, with the number of
    times it is named. *)
Lemma tally_entries checkpoints f n :
  In (f, n) (Queries.tally checkpoints) <->
  In f (all_files checkpoints) /\ n = mentions f (all_files checkpoints).
Proof.
  unfold Queries.tally. rewrite tally_flat.
  pose proof (fold_bump_keys (all_files checkpoints) [] (List.NoDup_nil _))
    as Hnd.
  pose proof (count_of_fold f (all_files checkpoints) []) as Hcount.
  unfold count_of in Hcount. simpl assoc at 2 in Hcount.
  split.
  - intros Hin. apply (In_assoc _ _ _ Hnd) in Hin. rewrite Hin in Hcount.
    split; [|lia].
    destruct (in_dec string_dec f (all_files checkpoints)) as [|Hnot];
      [assumption|].
    rewrite (fold_bump_absent f _ [] eq_refl Hnot) in Hin. discriminate.
  - intros [Hin ->]. apply assoc_In.
    pose proof (fold_bump_present f (all_files checkpoints) [] (or_intror Hin))
      as Hsome.
    destruct (assoc f (fold_left Queries.bump (all_files checkpoints) []));
      [f_equal; lia|congruence].
Qed.

Lemma firstn_subset {A : Type} n (l : list A) x :
  In x (firstn n l) -> In x l.
Proof.
  revert n. induction l as [|a l IH]; intros [|n]; simpl; try tauto.
  intros [->|H]; [now left|right; eauto].
Qed.

Lemma firstn_strongly {A : Type} (R : A -> A -> Prop) n l :
  StronglySorted R l -> StronglySorted R (firstn n l).
Proof.
  intros Hs. revert n. induction Hs as [|a l Hs IH Hall]; intros [|n]; simpl;
    try constructor.
  - apply IH.
  - rewrite List.Forall_forall in *. intros x Hx. apply Hall.
    eapply firstn_subset. eassumption.
Qed.

Lemma firstn_keys {A : Type} n (l : list (string * A)) :
  List.NoDup (List.map fst l) -> List.NoDup (List.map fst (firstn n l)).
Proof.
  revert n. induction l as [|e l IH]; intros [|n] Hnd; simpl;
    try constructor.
  - inversion Hnd as [|? ? Hnot _]; subst. intros Hin. apply Hnot.
    apply in_map_iff in Hin. destruct Hin as (x & <- & Hx).
    apply in_map. eapply firstn_subset. eassumption.
  - inversion Hnd; subst. now apply IH.
Qed.

(** X11.  When the files named by the records are ordinary keys (as paths
    with a separator or a dot are: no name of a member inherited from
    [Object.prototype], for which the counter would start from that
    member, and no array index): [getMostModifiedFiles] returns at most
    [limit] entries with distinct file names, ordered by falling count; the
    count given for a file is the number of times the records name it (at
    least 1), and a file that is named but left out is named no more often
    than any file listed (the list being full then). *)
Theorem getMostModifiedFiles_tally (checkpoints : list CheckpointData)
    (limit : nat)
    (Hnames : forallb ordinary_key (all_files checkpoints) = true) :
  let top := Queries.getMostModifiedFiles checkpoints limit in
  (length top <= limit)%nat
  /\ List.NoDup (List.map fst top)
  /\ StronglySorted (fun a b => snd b <= snd a) top
  /\ (forall f n, In (f, n) top ->
        n = mentions f (all_files checkpoints) /\ 1 <= n)
  /\ (forall f, In f (all_files checkpoints) ->
        In f (List.map fst top)
        \/ (length top = limit
            /\ forall g n, In (g, n) top ->
                 mentions f (all_files checkpoints) <= n)).
Proof.
  cbv zeta. unfold Queries.getMostModifiedFiles, js_slice_to.
  set (T := Queries.tally checkpoints).
  pose proof (sort_desc_perm snd T) as Hperm.
  pose proof (sort_desc_strongly snd T) as Hsorted.
  assert (HndT : List.NoDup (List.map fst T)).
  { unfold T, Queries.tally. rewrite tally_flat.
    apply fold_bump_keys. constructor. }
  split; [apply firstn_le_length|].
  split.
  { apply firstn_keys.
    eapply Permutation.Permutation_NoDup; [|exact HndT].
    apply Permutation_map. now symmetry. }
  split; [now apply firstn_strongly|].
  split.
  { intros f n Hin. apply firstn_subset in Hin.
    apply (Permutation_in _ Hperm) in Hin. apply tally_entries in Hin.
    destruct Hin as [Hf ->]. split; [reflexivity|now apply mentions_In]. }
  intros f Hf.
  assert (Hin : In (f, mentions f (all_files checkpoints)) (sort_desc snd T)).
  { apply (Permutation_in _ (Permutation_sym Hperm)).
    apply tally_entries. auto. }
  rewrite <- (firstn_skipn limit (sort_desc snd T)) in Hin.
  apply in_app_or in Hin. destruct Hin as [Hin|Hin].
  - left. change f with (fst (f, mentions f (all_files checkpoints))).
    now apply in_map.
  - right. split.
    + rewrite length_firstn. apply Nat.min_l.
      destruct (Nat.le_gt_cases limit (length (sort_desc snd T)));
        [assumption|].
      rewrite skipn_all2 in Hin by lia. contradiction.
    + intros g n Hg.
      rewrite <- (firstn_skipn limit (sort_desc snd T)) in Hsorted.
      apply (strongly_sorted_split snd _ _ (g, n)
               (f, mentions f (all_files checkpoints)) Hsorted Hg Hin).
Qed.

End Tally.

(** ** Restoring and comparing *)

Section RestoreAndDiff.
Import GitOps.

(** X12.  [restoreCheckpoint] copies the worktree over the project at most
    once, and only when it is not a dry run, the hash is well-formed and
    [git checkout <hash>] exited with 0; it never copies in the other
    direction.  When it returns [true] it has issued [checkout <hash>] and,
    unless it is a dry run, the copy followed by [checkout main]; a dry run
    and every failure after the checkout leave the worktree at the check
    point ([checkout main] is not issued). *)
Theorem restoreCheckpoint_overwrites_only_checked_out (E : Env) (m : Manager)
    (checkpointHash : string) (dryRun : bool) (w : World) :
  let run := restoreCheckpoint E m checkpointHash dryRun w in
  let w1 := snd (doPathExists E (checkpointRepo m) w) in
  let copy := (worktreePath m, projectPath m) in
  (syncs (snd run) = syncs w
   \/ (syncs (snd run) = copy :: syncs w /\ dryRun = false
       /\ validateCheckpointHash checkpointHash = true
       /\ returncode (engine E (trace w1) (checkout_call m checkpointHash))
          = 0))
  /\ (fst run = true ->
      if dryRun
      then syncs (snd run) = syncs w
           /\ git_calls (snd run)
              = checkout_call m checkpointHash :: git_calls w
      else syncs (snd run) = copy :: syncs w
           /\ git_calls (snd run)
              = checkout_call m "main" :: checkout_call m checkpointHash
                  :: git_calls w)
  /\ (fst run = false ->
      git_calls (snd run) = git_calls w
      \/ git_calls (snd run) = checkout_call m checkpointHash :: git_calls w).
Proof.
  cbv zeta. unfold restoreCheckpoint, doPathExists.
  destruct (pathExists E (trace w) (checkpointRepo m)); cbn [negb fst snd].
  2:{ split; [now left|]. split; [discriminate|now left]. }
  destruct (validateCheckpointHash checkpointHash) eqn:Hvalid; cbn [negb].
  2:{ split; [now left|]. split; [discriminate|now left]. }
  unfold runGit. fold (checkout_call m checkpointHash).
  cbn [trace log_event fst snd].
  destruct (Z.eqb_spec
              (returncode
                 (engine E (EvPathExists (checkpointRepo m) :: trace w)
                    (checkout_call m checkpointHash))) 0) as [Hzero|Hnz];
    cbn [negb].
  2:{ split; [now left|]. split; [discriminate|now right]. }
  destruct dryRun.
  { split; [now left|]. split; [intros _; split; reflexivity|discriminate]. }
  unfold syncFiles. cbn [trace log_event].
  destruct (syncTree E _ _ _); cbn [fst snd].
  - split; [|split; [discriminate|now right]].
    right. repeat split; assumption.
  - split; [|split; [intros _; split; reflexivity|discriminate]].
    right. repeat split; assumption.
Qed.

(** X13.  [getCheckpointDiff] hands no malformed hash to the engine: for a
    non-empty argument with a character outside [a-fA-F0-9] or more than 40
    characters it returns the error text (or the empty text when there is
    no shadow directory) without copying the project and without an engine
    command.  In every other case the only engine command is
    [diff <target> --stat] in the worktree, after the project was copied
    there, where the target is the hash, and [HEAD] when the hash is
    missing or empty; and it throws only when that copy fails, before any
    engine command. *)
Theorem getCheckpointDiff_rejects_malformed (E : Env) (m : Manager)
    (checkpointHash : option string) (w : World) :
  let run := Diff.getCheckpointDiff E m checkpointHash w in
  let target :=
    if nonempty checkpointHash then or_empty checkpointHash else "HEAD" in
  (nonempty checkpointHash = true -> malformed (or_empty checkpointHash) ->
   (fst run = Ok ""
    \/ fst run
       = Ok ("Error: Invalid checkpoint hash format: "
             ++ or_empty checkpointHash))
   /\ git_calls (snd run) = git_calls w /\ syncs (snd run) = syncs w)
  /\ (git_calls (snd run) = git_calls w
      \/ (git_calls (snd run) = diff_call m target :: git_calls w
          /\ syncs (snd run) = (projectPath m, worktreePath m) :: syncs w))
  /\ (forall e, fst run = Throw e ->
      (exists code, e = IOError code)
      /\ syncs (snd run) = (projectPath m, worktreePath m) :: syncs w
      /\ git_calls (snd run) = git_calls w).
Proof.
  cbv zeta. unfold Diff.getCheckpointDiff, doPathExists.
  destruct (pathExists E (trace w) (checkpointRepo m)); cbn [negb fst snd].
  2:{ split; [intros _ _; auto|]. split; [now left|discriminate]. }
  destruct (nonempty checkpointHash) eqn:Hne; cbn [andb].
  - destruct (validateCheckpointHash (or_empty checkpointHash)) eqn:Hvalid;
      cbn [negb fst snd].
    + split.
      { intros _ Hbad.
        rewrite (validateCheckpointHash_malformed _ Hbad) in Hvalid.
        discriminate. }
      unfold syncFiles, runGit. cbn [trace log_event].
      destruct (syncTree E _ _ _); cbn [fst snd].
      * split; [now left|]. intros e [= <-].
        split; [eauto|split; reflexivity].
      * split; [right; split; reflexivity|discriminate].
    + split; [intros _ _; auto|]. split; [now left|discriminate].
  - split; [discriminate|].
    unfold syncFiles, runGit. cbn [trace log_event].
    destruct (syncTree E _ _ _); cbn [fst snd].
    + split; [now left|]. intros e [= <-].
      split; [eauto|split; reflexivity].
    + split; [right; split; reflexivity|discriminate].
Qed.

End RestoreAndDiff.

(** ** The pre-tool-use handler and the entry point, end to end *)

Section EndToEnd.










End EndToEnd.

(** ** Which way copies and commands go *)

Section ProjectTree.
Import GitOps.

Lemma adds_only_refl P w : adds_only P w w.
Proof. exists []. split; [reflexivity|constructor]. Qed.

Lemma adds_only_trans P w1 w2 w3 :
  adds_only P w1 w2 -> adds_only P w2 w3 -> adds_only P w1 w3.
Proof.
  intros (n1 & H1 & F1) (n2 & H2 & F2). exists (n2 ++ n1)%list. split.
  - now rewrite H2, H1, app_assoc.
  - apply Forall_app. now split.
Qed.

Lemma adds_only_log P e w w' :
  adds_only P w w' -> P e -> adds_only P w (log_event e w').
Proof.
  intros (new & Htrace & Hall) He. exists (e :: new). split.
  - cbn [trace log_event]. now rewrite Htrace.
  - now constructor.
Qed.

Ltac on_shadow :=
  cbn [shadow_operation cwd args];
  first [ tauto
        | left; split; [reflexivity|]; unfold worktree_command; eauto 12 ].

Ltac spared :=
  cbn [fst snd runGit doPathExists doEnsureDir syncFiles negb];
  answers;
  repeat first
    [ apply adds_only_refl
    | apply adds_only_log; [|on_shadow] ].

Lemma initCheckpointRepo_shadow E m w :
  adds_only (shadow_operation m) w (snd (initCheckpointRepo E m w)).
Proof. unfold initCheckpointRepo, isGitRepo. spared. Qed.

Lemma commitTree_shadow E m message metadata w :
  adds_only (shadow_operation m) w (snd (commitTree E m message metadata w)).
Proof. unfold commitTree. spared. Qed.

Lemma collect_shadow E m cps w :
  adds_only (shadow_operation m) w (snd (collect E m cps w)).
Proof.
  revert w. induction cps as [|cp cps IH]; intros w; [apply adds_only_refl|].
  cbn [collect runGit].
  destruct (returncode _ =? 0).
  - match goal with |- context [collect E m cps ?w'] =>
      pose proof (IH w') as Hrest;
      destruct (collect E m cps w') as [found w3] end.
    cbn [snd] in *. eapply adds_only_trans; [|exact Hrest].
    repeat first
      [ apply adds_only_refl
      | apply adds_only_log; [|on_shadow] ].
  - eapply adds_only_trans; [|apply IH].
    apply adds_only_log; [apply adds_only_refl|on_shadow].
Qed.

(** X16.  Which way the copies and the commands go.  Every external
    operation of [createCheckpoint], [listCheckpoints] and
    [getCheckpointDiff] is a copy of the project into the worktree (never
    one with the project as its destination), a look at or the creation of
    the shadow directory or its worktree, [init --bare] started in the
    shadow directory, [rev-parse --git-dir] or [clone <project> <worktree>]
    started in the project, or one of [add -A], [commit -m <text>
    --allow-empty], [rev-parse <hash>], [notes add -m <text> <hash>],
    [checkout main], [init], [log -1 --pretty=format:%s <hash>] and
    [diff <hash> --stat] started in the worktree.  This is about the
    working directories and the argument vectors; [runGit] joins the
    arguments unquoted into a command line for the shell, and what the
    shell makes of a message or a note is no part of the statement. *)
Theorem operations_on_shadow_side (E : Env) (m : Manager) (w : World) :
  (forall message metadata,
     adds_only (shadow_operation m) w
       (snd (createCheckpoint E m message metadata w)))
  /\ adds_only (shadow_operation m) w (snd (listCheckpoints E m w))
  /\ (forall h,
        adds_only (shadow_operation m) w
          (snd (Diff.getCheckpointDiff E m h w))).
Proof.
  split; [|split].
  - intros message metadata. unfold createCheckpoint.
    pose proof (initCheckpointRepo_shadow E m w) as Hinit.
    destruct (initCheckpointRepo E m w) as [ready w1]. cbn [snd] in *.
    destruct ready; cbn [negb]; [|exact Hinit].
    destruct (if validateMetadataSize E metadata then Ok metadata
              else essential metadata) as [payload|e]; [|exact Hinit].
    pose proof (commitTree_shadow E m message payload w1) as Hcommit.
    destruct (commitTree E m message payload w1) as [r w2].
    eapply adds_only_trans; eassumption.
  - unfold listCheckpoints, doPathExists.
    destruct (pathExists E (trace w) (checkpointRepo m)); cbn [negb snd].
    + eapply adds_only_trans; [|apply collect_shadow].
      apply adds_only_log; [apply adds_only_refl|on_shadow].
    + apply adds_only_log; [apply adds_only_refl|on_shadow].
  - intros h. unfold Diff.getCheckpointDiff. spared.
Qed.

End ProjectTree.

(** ** Patterns that end in a separator *)

Section DirectoryPatterns.
Import Config.

Lemma app_cons c (a b : string) : String c a ++ b = String c (a ++ b).
Proof. reflexivity. Qed.

Lemma ends_with_slash_cons c s :
  s <> "" -> ends_with_slash (String c s) = ends_with_slash s.
Proof. destruct s; [congruence|reflexivity]. Qed.

Lemma ends_with_slash_app a b :
  b <> "" -> ends_with_slash (a ++ b) = ends_with_slash b.
Proof.
  intros Hb. induction a as [|c a IH]; [reflexivity|].
  rewrite app_cons, ends_with_slash_cons; [exact IH|].
  destruct a; [exact Hb|rewrite app_cons; discriminate].
Qed.

Lemma slashSplit_aux_step c s cur r :
  slashSplit_aux (String c s) cur r
  = if Ascii.eqb c slash then
      if r then slashSplit_aux s "" true else cur :: slashSplit_aux s "" true
    else slashSplit_aux s (cur ++ String c "") false.
Proof. reflexivity. Qed.

Lemma split_slash_aux_step c s cur :
  split_slash_aux (String c s) cur
  = if Ascii.eqb c slash then cur :: split_slash_aux s ""
    else split_slash_aux s (cur ++ String c "").
Proof. reflexivity. Qed.

Lemma slashSplit_aux_nonempty s cur r : slashSplit_aux s cur r <> [].
Proof.
  revert cur r. induction s as [|c s IH]; intros cur r; [discriminate|].
  rewrite slashSplit_aux_step.
  destruct (Ascii.eqb c slash); [destruct r; [apply IH|discriminate]|apply IH].
Qed.

(** A text that ends in a separator is cut into portions of which the last
    is empty, and not the only one. *)
Lemma slashSplit_aux_trailing s cur r :
  ends_with_slash s = true ->
  exists init,
    slashSplit_aux s cur r = (init ++ [""])%list /\ (r = false -> init <> []).
Proof.
  revert cur r. induction s as [|c s IH]; intros cur r Hs; [discriminate|].
  rewrite slashSplit_aux_step. destruct s as [|c' s'].
  - cbn [ends_with_slash] in Hs. rewrite Hs. destruct r.
    + exists []. split; [reflexivity|discriminate].
    + exists [cur]. split; [reflexivity|discriminate].
  - rewrite ends_with_slash_cons in Hs by discriminate.
    destruct (Ascii.eqb c slash); [destruct r|].
    + destruct (IH "" true Hs) as (init & -> & _).
      exists init. split; [reflexivity|discriminate].
    + destruct (IH "" true Hs) as (init & -> & _).
      exists (cur :: init). split; [reflexivity|discriminate].
    + destruct (IH (cur ++ String c "") false Hs) as (init & -> & Hinit).
      exists init. split; [reflexivity|auto].
Qed.

(** Only a text that ends in a separator has an empty last portion, the
    empty text apart. *)
Lemma slashSplit_aux_last s cur r :
  List.last (slashSplit_aux s cur r) "x" = "" ->
  (s = "" /\ cur = "") \/ ends_with_slash s = true.
Proof.
  revert cur r. induction s as [|c s IH]; intros cur r.
  - simpl. intros ->. now left.
  - rewrite slashSplit_aux_step. intros Hlast. right.
    destruct (Ascii.eqb_spec c slash) as [->|Hc].
    + assert (Hrest : List.last (slashSplit_aux s "" true) "x" = "").
      { destruct r; [exact Hlast|].
        pose proof (slashSplit_aux_nonempty s "" true) as Hne.
        destruct (slashSplit_aux s "" true); [congruence|exact Hlast]. }
      destruct (IH _ _ Hrest) as [[-> _]|Hs]; [reflexivity|].
      rewrite ends_with_slash_cons; [exact Hs|]. intros ->. discriminate.
    + destruct (IH _ _ Hlast) as [[_ Hcur]|Hs].
      * destruct cur; discriminate.
      * rewrite ends_with_slash_cons; [exact Hs|]. intros ->. discriminate.
Qed.

(** A pattern whose last portion is empty is met only by a path of at least
    two portions whose last portion is empty. *)
Lemma matchOne_trailing init file :
  init <> [] -> matchOne file (init ++ [""])%list = true ->
  List.last file "x" = "" /\ (2 <= length file)%nat.
Proof.
  revert file. induction init as [|p init IH]; intros file Hinit Hmatch;
    [congruence|].
  destruct file as [|f file']; [discriminate|].
  cbn [app matchOne] in Hmatch. apply andb_true_iff in Hmatch.
  destruct Hmatch as [_ Hrest].
  destruct init as [|p' init'].
  - cbn [app] in Hrest. destruct file' as [|f' file'']; [discriminate|].
    cbn [matchOne] in Hrest. apply andb_true_iff in Hrest.
    destruct Hrest as [Hempty Hleft].
    assert (Hf' : f' = "").
    { unfold portion_match in Hempty. cbn in Hempty.
      now apply String.eqb_eq in Hempty. }
    subst f'. split; [|simpl; lia].
    destruct file'' as [|f'' [|? ?]]; [reflexivity| |discriminate].
    cbn [matchOne] in Hleft. apply String.eqb_eq in Hleft. now subst.
  - destruct (IH file' ltac:(discriminate) Hrest) as [Hlast Hlen].
    split; [|simpl; lia].
    destruct file'; [simpl in Hlen; lia|exact Hlast].
Qed.

(** A pattern that ends in a separator is matched only by a path that ends
    in a separator. *)
Lemma minimatch_trailing path pattern :
  ends_with_slash pattern = true -> minimatch path pattern = true ->
  ends_with_slash path = true.
Proof.
  intros Hpat Hmatch. unfold minimatch, slashSplit in Hmatch.
  destruct (slashSplit_aux_trailing pattern "" false Hpat)
    as (init & Hsplit & Hinit).
  rewrite Hsplit in Hmatch.
  destruct (matchOne_trailing init _ (Hinit eq_refl) Hmatch) as [Hlast Hlen].
  destruct (slashSplit_aux_last _ _ _ Hlast) as [[-> _]|Hs]; [|exact Hs].
  simpl in Hlen. lia.
Qed.

Lemma split_slash_aux_trailing s cur :
  ends_with_slash s = true -> In "" (split_slash_aux s cur).
Proof.
  revert cur. induction s as [|c s IH]; intros cur Hs; [discriminate|].
  rewrite split_slash_aux_step. destruct s as [|c' s'].
  - cbn [ends_with_slash] in Hs. rewrite Hs. simpl. auto.
  - rewrite ends_with_slash_cons in Hs by discriminate.
    destruct (Ascii.eqb c slash); [right|]; now apply IH.
Qed.

Lemma split_slash_aux_parts s cur :
  ends_with_slash cur = false ->
  List.Forall (fun part => ends_with_slash part = false)
    (split_slash_aux s cur).
Proof.
  revert cur. induction s as [|c s IH]; intros cur Hcur.
  - simpl. now constructor.
  - rewrite split_slash_aux_step.
    destruct (Ascii.eqb c slash) eqn:Hc.
    + constructor; [exact Hcur|]. now apply IH.
    + apply IH. rewrite ends_with_slash_app by discriminate.
      cbn [ends_with_slash]. exact Hc.
Qed.

Lemma join_slash_open l :
  List.Forall (fun part => part <> "" /\ ends_with_slash part = false) l ->
  ends_with_slash (join_slash l) = false /\ (l <> [] -> join_slash l <> "").
Proof.
  induction 1 as [|p rest [Hp Hend] Hrest [IHend IHne]];
    [split; [reflexivity|congruence]|].
  destruct rest as [|q rest'].
  - simpl. split; [exact Hend|auto].
  - assert (Hj : join_slash (q :: rest') <> "") by (apply IHne; discriminate).
    change (join_slash (p :: q :: rest'))
      with (p ++ String slash (join_slash (q :: rest'))).
    split.
    + rewrite ends_with_slash_app by discriminate.
      now rewrite ends_with_slash_cons.
    + intros _. destruct p; [congruence|rewrite app_cons; discriminate].
Qed.

Lemma Forall_firstn_own {A : Type} (P : A -> Prop) n l :
  List.Forall P l -> List.Forall P (firstn n l).
Proof.
  rewrite !List.Forall_forall. intros Hall x Hx.
  eapply Hall, firstn_subset, Hx.
Qed.

(** No leading part of a path with named components ends in a separator,
    nor does the path itself. *)
Lemma named_parts_open relativePath :
  every_part_named relativePath = true ->
  ends_with_slash relativePath = false
  /\ forall partialPath, In partialPath (prefix_paths relativePath) ->
       ends_with_slash partialPath = false.
Proof.
  unfold every_part_named, split_slash. intros Hnamed. split.
  - destruct (ends_with_slash relativePath) eqn:Hend; [|reflexivity].
    apply (split_slash_aux_trailing _ "") in Hend.
    rewrite forallb_forall in Hnamed. specialize (Hnamed _ Hend).
    discriminate.
  - assert (Hparts : List.Forall
              (fun part => part <> "" /\ ends_with_slash part = false)
              (split_slash relativePath)).
    { pose proof (split_slash_aux_parts relativePath "" eq_refl) as Hopen.
      rewrite forallb_forall in Hnamed.
      rewrite List.Forall_forall in *. intros part Hin. split.
      - intros ->. specialize (Hnamed _ Hin). discriminate.
      - now apply Hopen. }
    intros partialPath Hin. unfold prefix_paths in Hin.
    apply in_map_iff in Hin. destruct Hin as (i & <- & _).
    apply join_slash_open. now apply Forall_firstn_own.
Qed.

Lemma pattern_excludes_trailing relativePath pattern :
  ends_with_slash pattern = true -> every_part_named relativePath = true ->
  pattern_excludes relativePath pattern = false.
Proof.
  intros Hpat Hnamed.
  destruct (named_parts_open relativePath Hnamed) as [Hpath Hprefixes].
  unfold pattern_excludes. apply orb_false_iff. split.
  - destruct (minimatch relativePath pattern) eqn:Hmatch; [|reflexivity].
    rewrite (minimatch_trailing _ _ Hpat Hmatch) in Hpath. discriminate.
  - destruct (existsb _ _) eqn:Hex; [|reflexivity].
    apply existsb_exists in Hex. destruct Hex as (partialPath & Hin & Hmatch).
    pose proof (Hprefixes _ Hin) as Hopen.
    rewrite (minimatch_trailing _ _ Hpat Hmatch) in Hopen. discriminate.
Qed.

Lemma existsb_filter_dead {A : Type} (f g : A -> bool) l :
  (forall x, In x l -> g x = true -> f x = false) ->
  existsb f l = existsb f (List.filter (fun x => negb (g x)) l).
Proof.
  induction l as [|x l IH]; intros Hdead; [reflexivity|].
  cbn [existsb List.filter].
  rewrite IH by (intros y Hy; apply Hdead; now right).
  destruct (g x) eqn:Hg; cbn [negb existsb]; [|reflexivity].
  now rewrite (Hdead x (or_introl eq_refl) Hg).
Qed.

(** X17.  Patterns that end in a separator are dead.  For a configuration
    whose patterns are made of literal characters, separators and single
    stars, and a path whose components are all named (no leading, doubled or
    trailing separator, as for the relative path of a file): no pattern that
    ends in a separator excludes the path, so [shouldExcludeFile] decides as
    it would without these patterns. *)
Theorem directory_patterns_exclude_nothing (cfg : CheckpointConfig)
    (relative : string -> string) (stat : string -> FileStat)
    (filePath : string)
    (Hplain : forallb plain_pattern (exclude_patterns cfg) = true)
    (Hnamed : every_part_named (relative_of relative filePath) = true) :
  (forall pattern,
     In pattern (exclude_patterns cfg) -> ends_with_slash pattern = true ->
     pattern_excludes (relative_of relative filePath) pattern = false)
  /\ shouldExcludeFile cfg relative stat filePath
     = shouldExcludeFile (without_directory_patterns cfg) relative stat
         filePath.
Proof.
  split.
  - intros pattern _ Hpat. now apply pattern_excludes_trailing.
  - unfold shouldExcludeFile. fold (relative_of relative filePath).
    cbn [exclude_patterns without_directory_patterns].
    rewrite <- (existsb_filter_dead _ ends_with_slash).
    + reflexivity.
    + intros pattern _ Hpat. now apply pattern_excludes_trailing.
Qed.

End DirectoryPatterns.

(** ** Texts: trimming and the copy filter *)

Section Texts.
Import GitOps.

Lemma string_app_assoc (a b c : string) : (a ++ b) ++ c = a ++ (b ++ c).
Proof.
  induction a as [|x a IH]; [reflexivity|].
  rewrite !app_cons. now rewrite IH.
Qed.

Lemma rev_app_snoc s c acc :
  String.rev_app (s ++ String c "") acc = String c (String.rev_app s acc).
Proof.
  revert acc. induction s as [|a s IH]; intros acc; [reflexivity|].
  rewrite app_cons. simpl. apply IH.
Qed.

Lemma rev_app_empty s acc : String.rev_app s acc = "" -> s = "" /\ acc = "".
Proof.
  revert acc. induction s as [|a s IH]; intros acc; simpl; [auto|].
  intros H. destruct (IH _ H) as [_ [=]].
Qed.

Lemma has_ink_trim_start s : has_ink s = true -> trim_start s <> "".
Proof.
  induction s as [|c s IH]; [discriminate|].
  unfold has_ink, chars in *. cbn [list_ascii_of_string existsb trim_start].
  destruct (is_space c); cbn [negb orb]; [exact IH|discriminate].
Qed.

Lemma has_ink_rev_app s acc :
  has_ink acc = true -> has_ink (String.rev_app s acc) = true.
Proof.
  revert acc. induction s as [|a s IH]; intros acc Hacc; [exact Hacc|].
  simpl. apply IH. unfold has_ink, chars in *.
  cbn [list_ascii_of_string existsb]. rewrite Hacc. apply orb_true_r.
Qed.

(** A text that trims to nothing starts with white space, if it starts at
    all. *)
Lemma trim_empty_starts_blank c rest :
  trim (String c rest) = "" -> is_space c = true.
Proof.
  intros Htrim. destruct (is_space c) eqn:Hc; [reflexivity|].
  unfold trim in Htrim. cbn [trim_start] in Htrim. rewrite Hc in Htrim.
  unfold String.rev in Htrim. apply rev_app_empty in Htrim.
  destruct Htrim as [Hstart _]. exfalso. revert Hstart.
  apply has_ink_trim_start. simpl. apply has_ink_rev_app.
  unfold has_ink, chars. cbn [list_ascii_of_string existsb]. now rewrite Hc.
Qed.

Lemma includes_empty s : includes "" s = true.
Proof. unfold includes. now destruct s. Qed.

(** X18.  A line of [.gitignore] that is not empty but consists of white
    space only (such as the blank lines of a file with CRLF line ends) makes
    the copy filter of [syncFiles] reject every path: its trimmed pattern is
    the empty text, which every relative path includes. *)
Theorem copyFilter_blank_line_blocks_all (content line : string)
    (relativePath base : string)
    (Hline : In line (Sync.split_lines content))
    (Hne : line <> "") (Hblank : trim line = "") :
  In line (Sync.gitignorePatterns content)
  /\ Sync.copyFilter (Sync.gitignorePatterns content) relativePath base
     = false.
Proof.
  assert (Hkept : In line (Sync.gitignorePatterns content)).
  { unfold Sync.gitignorePatterns. apply filter_In. split; [exact Hline|].
    destruct line as [|c rest]; [congruence|].
    pose proof (trim_empty_starts_blank c rest Hblank) as Hc.
    cbn [String.eqb String.prefix negb andb].
    destruct (Ascii.ascii_dec "#" c) as [<-|_]; [discriminate|reflexivity]. }
  split; [exact Hkept|].
  unfold Sync.copyFilter.
  destruct (Config.starts_with_dot base && _); [reflexivity|].
  apply negb_false_iff, existsb_exists. exists line. split; [exact Hkept|].
  rewrite Hblank, includes_empty.
  destruct (String.eqb_spec line ""); [congruence|reflexivity].
Qed.

Lemma prefix_empty s : String.prefix "" s = true.
Proof. now destruct s. Qed.

Lemma prefix_app a b : String.prefix a (a ++ b) = true.
Proof.
  induction a as [|c a IH]; [now destruct b|].
  rewrite app_cons. cbn [String.prefix].
  destruct (Ascii.ascii_dec c c); [exact IH|congruence].
Qed.

End Texts.

(** ** What reaches the shell *)

Section CommandLines.
Import GitOps.

Lemma chars_app a b : chars (a ++ b) = (chars a ++ chars b)%list.
Proof.
  induction a as [|c a IH]; [reflexivity|].
  rewrite app_cons. unfold chars in *. simpl. now rewrite IH.
Qed.

Lemma is_hex_plain c : is_hex c = true -> shell_plain c = true.
Proof.
  unfold is_hex. intros H. apply existsb_exists in H.
  destruct H as (x & Hin & Heq). apply Ascii.eqb_eq in Heq. subst x.
  simpl in Hin.
  repeat (destruct Hin as [<-|Hin]; [reflexivity|]). contradiction.
Qed.

Lemma validated_plain h :
  validateCheckpointHash h = true -> forallb shell_plain (chars h) = true.
Proof.
  intros Hvalid. apply validateCheckpointHash_true in Hvalid.
  destruct Hvalid as (_ & _ & Hall). apply forallb_forall.
  intros c Hc. now apply is_hex_plain, Hall.
Qed.

Lemma checkout_plain h :
  validateCheckpointHash h = true ->
  plain_command (EvGit {| args := ["checkout"; h]; cwd := "" |}).
Proof.
  intros Hvalid. cbn [plain_command args]. unfold Shell.commandLine.
  cbn [String.concat]. rewrite !chars_app, !forallb_app.
  now rewrite (validated_plain h Hvalid).
Qed.

Lemma diff_plain h :
  validateCheckpointHash h = true ->
  plain_command (EvGit {| args := ["diff"; h; "--stat"]; cwd := "" |}).
Proof.
  intros Hvalid. cbn [plain_command args]. unfold Shell.commandLine.
  cbn [String.concat]. rewrite !chars_app, !forallb_app.
  now rewrite (validated_plain h Hvalid).
Qed.

(** X20.  No hash reaches the shell unchecked.  [runGit] joins its
    arguments with blanks and hands the text to the shell; every command
    line that [restoreCheckpoint] and [getCheckpointDiff] produce consists of
    letters, digits, blanks and hyphens only, whatever the hash argument
    is. *)
Theorem hash_commands_are_plain (E : Env) (m : Manager) (w : World) :
  (forall checkpointHash dryRun,
     adds_only plain_command w
       (snd (restoreCheckpoint E m checkpointHash dryRun w)))
  /\ (forall checkpointHash,
        adds_only plain_command w
          (snd (Diff.getCheckpointDiff E m checkpointHash w))).
Proof.
  split.
  - intros h dryRun. unfold restoreCheckpoint.
    cbn [doPathExists fst snd].
    destruct (pathExists E (trace w) (checkpointRepo m)); cbn [negb].
    2:{ apply adds_only_log; [apply adds_only_refl|exact I]. }
    destruct (validateCheckpointHash h) eqn:Hvalid; cbn [negb].
    2:{ apply adds_only_log; [apply adds_only_refl|exact I]. }
    pose proof (checkout_plain h Hvalid) as Hplain.
    cbn [runGit syncFiles fst snd]. answers;
      repeat first
        [ apply adds_only_refl
        | apply adds_only_log;
          [|first [exact I | exact Hplain | reflexivity]] ].
  - intros o. unfold Diff.getCheckpointDiff.
    cbn [doPathExists fst snd].
    destruct (pathExists E (trace w) (checkpointRepo m)); cbn [negb].
    2:{ apply adds_only_log; [apply adds_only_refl|exact I]. }
    destruct (nonempty o) eqn:Hne; cbn [andb].
    + destruct (validateCheckpointHash (or_empty o)) eqn:Hvalid; cbn [negb].
      2:{ apply adds_only_log; [apply adds_only_refl|exact I]. }
      pose proof (diff_plain (or_empty o) Hvalid) as Hplain.
      cbn [runGit syncFiles fst snd]. answers;
        repeat first
          [ apply adds_only_refl
          | apply adds_only_log;
            [|first [exact I | exact Hplain | reflexivity]] ].
    + cbn [runGit syncFiles fst snd]. answers;
        repeat first
          [ apply adds_only_refl
          | apply adds_only_log; [|first [exact I | reflexivity]] ].
Qed.

End CommandLines.

(** ** The log file *)

Section LogFacts.

Lemma obj_delete_In {A : Type} (e : string * A) k l :
  In e (Metadata.obj_delete k l) <-> In e l /\ fst e <> k.
Proof.
  unfold Metadata.obj_delete. rewrite filter_In.
  destruct (String.eqb_spec (fst e) k); cbn [negb]; intuition congruence.
Qed.

Lemma filter_names {A : Type} (P : string * A -> bool) l :
  List.NoDup (List.map fst l) -> List.NoDup (List.map fst (List.filter P l)).
Proof.
  induction l as [|e l IH]; intros Hnd; [constructor|].
  inversion Hnd as [|? ? Hnot Hnd']; subst. cbn [List.filter].
  destruct (P e); [|now apply IH].
  cbn [List.map]. constructor; [|now apply IH].
  intros Hin. apply Hnot. apply in_map_iff in Hin.
  destruct Hin as (x & Hx & Hin). apply filter_In in Hin.
  rewrite <- Hx. apply in_map. tauto.
Qed.

Lemma renameSync_keys old new stats d :
  List.NoDup (List.map fst d) ->
  List.NoDup (List.map fst (Log.renameSync old new stats d)).
Proof.
  intros Hnd. unfold Log.renameSync. cbn [List.map fst]. constructor.
  - intros Hin. apply in_map_iff in Hin. destruct Hin as (e & He & Hin).
    apply obj_delete_In in Hin. tauto.
  - unfold Metadata.obj_delete. now do 2 apply filter_names.
Qed.

Lemma endsWith_old x : Log.endsWith (x ++ ".old") ".old" = true.
Proof.
  unfold Log.endsWith, String.rev.
  change (x ++ ".old")
    with (x ++ (String "."%char "" ++ (String "o"%char ""
                ++ (String "l"%char "" ++ String "d"%char "")))).
  rewrite <- !string_app_assoc, !rev_app_snoc. cbn.
  apply prefix_empty.
Qed.

Lemma backupPath_isBackup nowMs : Log.isBackup (Log.backupPath nowMs) = true.
Proof.
  unfold Log.isBackup, Log.backupPath. rewrite prefix_app. cbn [andb].
  rewrite <- !string_app_assoc. apply endsWith_old.
Qed.

Lemma backupPath_not_log nowMs : Log.backupPath nowMs <> Log.logFile.
Proof.
  intros Heq. pose proof (backupPath_isBackup nowMs) as Hb.
  rewrite Heq in Hb. discriminate.
Qed.

Lemma renameSync_no_log stats nowMs d :
  assoc Log.logFile
    (Log.renameSync Log.logFile (Log.backupPath nowMs) stats d) = None.
Proof.
  destruct (assoc _ _) as [v|] eqn:Hv; [|reflexivity].
  apply assoc_In in Hv. unfold Log.renameSync in Hv.
  destruct Hv as [Heq|Hin].
  - apply (f_equal fst) in Heq. cbn [fst] in Heq.
    now apply backupPath_not_log in Heq.
  - apply obj_delete_In in Hin. destruct Hin as [Hin _].
    apply obj_delete_In in Hin. cbn in Hin. tauto.
Qed.

Lemma fold_delete_In {A : Type} (doomed l : list (string * A))
    (e : string * A) :
  In e (fold_left (fun acc f => Metadata.obj_delete (fst f) acc) doomed l) ->
  In e l.
Proof. rewrite delete_batch. intros Hin. apply filter_In in Hin. tauto. Qed.

Lemma fold_delete_no_log (doomed d : Log.Dir) :
  assoc Log.logFile d = None ->
  assoc Log.logFile
    (fold_left (fun acc f => Metadata.obj_delete (fst f) acc) doomed d) = None.
Proof.
  intros Hnone. destruct (assoc _ (fold_left _ _ _)) as [v|] eqn:Hv;
    [|reflexivity].
  apply assoc_In, fold_delete_In in Hv.
  clear doomed. induction d as [|[k x] d IH]; [contradiction|].
  cbn [assoc] in Hnone. destruct (String.eqb_spec k Log.logFile) as [->|Hk];
    [discriminate|].
  destruct Hv as [[= -> _]|Hin]; [congruence|auto].
Qed.

Lemma sorted_backups (readdir : Log.Dir -> Log.Dir) d f :
  In f (sort_desc entry_mtime (List.filter backup_entry (readdir d))) ->
  backup_entry f = true.
Proof.
  intros Hin. apply (Permutation_in _ (sort_desc_perm _ _)) in Hin.
  apply filter_In in Hin. tauto.
Qed.

Lemma spared_by_delete (doomed d : Log.Dir) f :
  (forall g, In g doomed -> backup_entry g = true) ->
  backup_entry f = false -> In f d ->
  In f (fold_left (fun acc g => Metadata.obj_delete (fst g) acc) doomed d).
Proof.
  intros Hdoomed Hf Hin. rewrite delete_batch. apply filter_In.
  split; [exact Hin|]. apply negb_true_iff.
  unfold doomed_key. destruct (existsb _ _) eqn:Hex; [|reflexivity].
  apply existsb_exists in Hex. destruct Hex as (k & Hk & Heq).
  apply String.eqb_eq in Heq. apply in_map_iff in Hk.
  destruct Hk as (g & Hg & Hin'). apply Hdoomed in Hin'.
  unfold backup_entry in *. congruence.
Qed.

(** X21.  A rotation of the log never touches a file that is neither the
    log nor one of its backups, at whatever call it is cut short by a
    file-system error and whatever order the directory is listed in; it
    adds nothing but the renamed log; and when there is no log, or the log
    holds at most 10 MiB, it changes nothing at all. *)
Theorem rotateLogIfNeeded_spares_other_files (readdir : Log.Dir -> Log.Dir)
    (fault : Log.Fault) (nowMs : Z) (d : Log.Dir) :
  let d' := Log.rotateLogIfNeeded readdir fault nowMs d in
  (log_size d <= Log.maxLogSize -> d' = d)
  /\ (forall f, In f d -> backup_entry f = false -> fst f <> Log.logFile ->
      In f d')
  /\ (forall f, In f d' ->
      In f d
      \/ (fst f = Log.backupPath nowMs
          /\ assoc Log.logFile d = Some (snd f))).
Proof.
  cbv zeta. unfold Log.rotateLogIfNeeded, log_size.
  destruct (assoc Log.logFile d) as [stats|] eqn:Hlog; [|auto].
  set (d1 := Log.renameSync Log.logFile (Log.backupPath nowMs) stats d).
  assert (Hspared : forall f, In f d -> backup_entry f = false ->
                      fst f <> Log.logFile -> In f d1).
  { intros f Hin Hf Hne. right. apply obj_delete_In. split.
    - apply obj_delete_In. now split.
    - intros Heq. unfold backup_entry in Hf.
      rewrite Heq, backupPath_isBackup in Hf. discriminate. }
  assert (Hnew : forall f, In f d1 ->
                   In f d \/ (fst f = Log.backupPath nowMs
                              /\ Some stats = Some (snd f))).
  { intros f [<-|Hin]; [right; split; reflexivity|]. left.
    apply obj_delete_In in Hin. destruct Hin as [Hin _].
    apply obj_delete_In in Hin. tauto. }
  set (backupFiles := sort_desc _ _).
  assert (Hcut : forall doomed,
            (forall g, In g doomed -> In g backupFiles) ->
            let d2 := fold_left
                        (fun acc g => Metadata.obj_delete (fst g) acc)
                        doomed d1 in
            (forall f, In f d -> backup_entry f = false ->
               fst f <> Log.logFile -> In f d2)
            /\ (forall f, In f d2 ->
                  In f d \/ (fst f = Log.backupPath nowMs
                             /\ Some stats = Some (snd f)))).
  { intros doomed Hsub d2. split.
    - intros f Hin Hf Hne. apply spared_by_delete; auto.
      intros g Hg. apply (sorted_backups readdir d1). now apply Hsub.
    - intros f Hin. apply Hnew. now apply fold_delete_In in Hin. }
  assert (Hslice : forall g, In g (js_slice_from 3 backupFiles) ->
                     In g backupFiles).
  { intros g Hg. unfold js_slice_from in Hg. cbn in Hg.
    rewrite <- (firstn_skipn 3 backupFiles). apply in_or_app. now right. }
  destruct (Z.gtb_spec (Log.size stats) Log.maxLogSize) as [Hbig|Hsmall].
  2:{ destruct fault; auto. }
  split; [lia|].
  destruct fault;
    try (split; [exact Hspared|exact Hnew]);
    try (split; [now auto|now auto]).
  - destruct (3 <? length backupFiles)%nat;
      [apply Hcut, Hslice|split; assumption].
  - destruct (3 <? length backupFiles)%nat; [|split; assumption].
    apply Hcut. intros g Hg. apply Hslice. eapply firstn_subset, Hg.
Qed.

Lemma filter_split_perm {A : Type} (P : A -> bool) l :
  Permutation l (List.filter (fun x => negb (P x)) l ++ List.filter P l).
Proof.
  induction l as [|x l IH]; [constructor|]. cbn [List.filter].
  destruct (P x); cbn [negb].
  - now apply Permutation_cons_app.
  - cbn [app]. now constructor.
Qed.

(** X22.  When the log holds more than 10 MiB and no file-system call
    fails, a rotation moves the log away under a backup name and leaves at
    most three backups, the smaller of three and the number there were:
    every backup it removes was modified no later than every backup it
    keeps.  This holds for every order in which the directory is listed. *)
Theorem rotateLogIfNeeded_keeps_three (readdir : Log.Dir -> Log.Dir)
    (nowMs : Z) (d : Log.Dir) (stats : Log.Stats)
    (Hlisted : forall x, Permutation (readdir x) x)
    (Hnames : List.NoDup (List.map fst d))
    (Hlog : assoc Log.logFile d = Some stats)
    (Hbig : Log.size stats > Log.maxLogSize) :
  let d' := Log.rotateLogIfNeeded readdir Log.NoFault nowMs d in
  let d1 := Log.renameSync Log.logFile (Log.backupPath nowMs) stats d in
  assoc Log.logFile d' = None
  /\ length (List.filter backup_entry d')
     = Nat.min 3 (length (List.filter backup_entry d1))
  /\ (forall f, In f d' -> In f d1)
  /\ (forall kept gone,
        In kept d' -> backup_entry kept = true ->
        In gone d1 -> ~ In gone d' ->
        entry_mtime gone <= entry_mtime kept).
Proof.
  cbv zeta. unfold Log.rotateLogIfNeeded. rewrite Hlog.
  destruct (Z.gtb_spec (Log.size stats) Log.maxLogSize) as [_|?]; [|lia].
  set (d1 := Log.renameSync Log.logFile (Log.backupPath nowMs) stats d).
  fold backup_entry. fold entry_mtime.
  set (sorted := sort_desc entry_mtime
                   (List.filter backup_entry (readdir d1))).
  assert (Hnd1 : List.NoDup (List.map fst d1))
    by now apply renameSync_keys.
  assert (Hback : Permutation sorted (List.filter backup_entry d1)).
  { unfold sorted. rewrite sort_desc_perm. apply filter_perm, Hlisted. }
  assert (Hlen : length sorted = length (List.filter backup_entry d1))
    by now apply Permutation_length.
  destruct (Nat.ltb_spec 3 (length sorted)) as [Hmany|Hfew].
  - unfold js_slice_from. cbn [Z.ltb Z.compare].
    change (Z.to_nat 3) with 3%nat.
    set (others := List.filter (fun f => negb (backup_entry f)) d1).
    set (d' := fold_left
                 (fun acc (f : string * Log.Stats) =>
                    Metadata.obj_delete (fst f) acc)
                 (skipn 3 sorted) d1).
    assert (Hkept : Permutation d' (others ++ firstn 3 sorted)).
    { apply delete_back; [exact Hnd1|].
      rewrite <- app_assoc, firstn_skipn, Hback. symmetry.
      apply filter_split_perm. }
    assert (Hall : forall f, In f sorted -> backup_entry f = true).
    { intros f Hf. apply (Permutation_in _ Hback) in Hf.
      apply filter_In in Hf. tauto. }
    split; [apply fold_delete_no_log, renameSync_no_log|]. split.
    { rewrite (Permutation_length (filter_perm backup_entry _ _ Hkept)).
      rewrite List.filter_app, length_app.
      rewrite (filter_drop_all backup_entry others).
      - rewrite filter_keep_all.
        + rewrite length_firstn, <- Hlen. cbn [length Nat.add]. reflexivity.
        + intros f Hf. apply Hall. eapply firstn_subset, Hf.
      - intros f Hf. apply filter_In in Hf.
        now apply negb_true_iff. }
    split; [intros f; apply fold_delete_In|].
    intros kept gone Hk Hbk Hg Hng.
    apply (strongly_sorted_split entry_mtime (firstn 3 sorted)
             (skipn 3 sorted)).
    + rewrite firstn_skipn. apply sort_desc_strongly.
    + apply (Permutation_in _ Hkept) in Hk. apply in_app_or in Hk.
      destruct Hk as [Hk|Hk]; [|exact Hk].
      apply filter_In in Hk. destruct Hk as [_ Hk].
      rewrite Hbk in Hk. discriminate.
    + assert (Hsplit : Permutation d1
                ((others ++ firstn 3 sorted) ++ skipn 3 sorted)).
      { rewrite <- app_assoc, firstn_skipn, Hback.
        apply filter_split_perm. }
      apply (Permutation_in _ Hsplit) in Hg. apply in_app_or in Hg.
      destruct Hg as [Hg|Hg]; [|exact Hg].
      exfalso. apply Hng.
      now apply (Permutation_in _ (Permutation_sym Hkept)).
  - split; [apply renameSync_no_log|]. split; [lia|].
    split; [auto|]. intros kept gone _ _ Hg Hng. contradiction.
Qed.

Lemma appendFileSync_size name bytes t d :
  assoc name (Log.appendFileSync name bytes t d)
  = Some {| Log.size :=
              match assoc name d with
              | Some stats => Log.size stats + bytes
              | None => bytes
              end;
            Log.mtime := t |}.
Proof.
  unfold Log.appendFileSync.
  destruct (assoc name d); apply assoc_obj_set_eq.
Qed.

(** X23.  After a write in which no file-system call fails, the log holds
    the line just written alone if it held more than 10 MiB before (it was
    rotated away), and the line appended to what it held otherwise; so it
    never holds more than 10 MiB plus one line. *)
Theorem write_bounds_log (readdir : Log.Dir -> Log.Dir)
    (byteLength : string -> Z) (nowMs t : Z)
    (timestamp level message : string) (d : Log.Dir) :
  let bytes := byteLength (Log.formatMessage timestamp level message) in
  let d' := Log.write readdir byteLength Log.NoFault false nowMs t timestamp
              level message d in
  log_size d'
  = (if log_size d >? Log.maxLogSize then bytes else log_size d + bytes)
  /\ log_size d' <= Log.maxLogSize + bytes.
Proof.
  cbv zeta. set (bytes := byteLength _).
  assert (Hrot : assoc Log.logFile
                   (Log.rotateLogIfNeeded readdir Log.NoFault nowMs d)
                 = if log_size d >? Log.maxLogSize then None
                   else assoc Log.logFile d).
  { unfold Log.rotateLogIfNeeded, log_size.
    destruct (assoc Log.logFile d) as [stats|] eqn:Hlog; [|now rewrite Hlog].
    destruct (Log.size stats >? Log.maxLogSize); [|exact Hlog].
    destruct (3 <? _)%nat;
      [apply fold_delete_no_log|]; apply renameSync_no_log. }
  assert (Heq : log_size
                  (Log.write readdir byteLength Log.NoFault false nowMs t
                     timestamp level message d)
                = if log_size d >? Log.maxLogSize then bytes
                  else log_size d + bytes).
  { unfold Log.write, log_size at 1. fold bytes.
    rewrite appendFileSync_size, Hrot. cbn [Log.size].
    unfold log_size.
    destruct (assoc Log.logFile d) as [stats|];
      [now destruct (Log.size stats >? Log.maxLogSize)|reflexivity]. }
  split; [exact Heq|]. rewrite Heq.
  destruct (Z.gtb_spec (log_size d) Log.maxLogSize);
    unfold Log.maxLogSize in *; lia.
Qed.

End LogFacts.

(** ** Sample runs of the further properties *)

Lemma sample_records :
  records "0a1b2c3d4e5f" (sample_world None)
  = [("aaa1", sample_record 1000 "Write" "s1" success);
     ("bbb2", sample_record 3000 "Edit" "s2" pending);
     ("ccc3", sample_record 3000 "Manual" "s3" pending)].
Proof. reflexivity. Qed.

Lemma addCheckpoint_replaces_or_appends_witness :
  ordinary_key "0a1b2c3d4e5f" = true /\ ordinary_key "bbb2" = true
  /\ ordinary_key sample_head = true
  /\ fst (Metadata.acquireLock (sample_world None)) = Ok tt
  /\ List.map fst
       (records "0a1b2c3d4e5f"
          (snd (Metadata.addCheckpoint "0a1b2c3d4e5f" "bbb2" "Write"
                  Hook.noInput "s9" (sample_world None))))
     = ["aaa1"; "bbb2"; "ccc3"]
  /\ List.map fst
       (records "0a1b2c3d4e5f"
          (snd (Metadata.addCheckpoint "0a1b2c3d4e5f" sample_head "Write"
                  Hook.noInput "s9" (sample_world None))))
     = ["aaa1"; "bbb2"; "ccc3"; sample_head].
Proof.
  do 4 (split; [reflexivity|]). split.
  - exact (proj1 (addCheckpoint_replaces_or_appends "0a1b2c3d4e5f" "bbb2"
                    "Write" Hook.noInput "s9" (sample_world None) eq_refl
                    eq_refl eq_refl)).
  - exact (proj1 (addCheckpoint_replaces_or_appends "0a1b2c3d4e5f" sample_head
                    "Write" Hook.noInput "s9" (sample_world None) eq_refl
                    eq_refl eq_refl)).
Defined.

Lemma store_gives_up_without_lock_witness :
  fst (Metadata.acquireLock (sample_world (Some 19000))) = Throw LockTimeout
  /\ fst (Metadata.addCheckpoint "0a1b2c3d4e5f" sample_head "Write"
            Hook.noInput "s9" (sample_world (Some 19000)))
     = Throw LockTimeout
  /\ file (snd (Metadata.addCheckpoint "0a1b2c3d4e5f" sample_head "Write"
                  Hook.noInput "s9" (sample_world (Some 19000))))
     = Json sample_store.
Proof.
  assert (Hfail : fst (Metadata.acquireLock (sample_world (Some 19000)))
                  = Throw LockTimeout) by (vm_compute; reflexivity).
  split; [exact Hfail|].
  destruct (store_gives_up_without_lock "0a1b2c3d4e5f" sample_head
              (sample_world (Some 19000)) LockTimeout Hfail) as (Hadd & _).
  destruct (Hadd "Write" Hook.noInput "s9") as (Hthrow & Hfile & _).
  split; [exact Hthrow|exact Hfile].
Defined.

Lemma cleanupOldMetadata_within_count_witness :
  Z.of_nat (length (records "0a1b2c3d4e5f" (sample_world None))) <= 3
  /\ file (snd (Metadata.cleanupOldMetadata "0a1b2c3d4e5f" 3
                  (sample_world None)))
     = Json sample_store.
Proof.
  assert (Hfew : Z.of_nat (length (records "0a1b2c3d4e5f" (sample_world None)))
                 <= 3) by (rewrite sample_records; simpl; lia).
  split; [exact Hfew|].
  exact (cleanupOldMetadata_within_count "0a1b2c3d4e5f" 3 (sample_world None)
           Hfew).
Defined.

Lemma handlePostToolUse_after_addCheckpoint_witness :
  (forall e, In e (records "0a1b2c3d4e5f" (sample_world None)) ->
     Metadata.entry_time e < now (sample_world None))
  /\ exists w2 d,
       Hook.handlePostToolUse (sample_site [])
         (write_event (Some (JObj [("success", JBool false)])))
         (snd (Metadata.addCheckpoint "0a1b2c3d4e5f" sample_head "Write"
                 Hook.noInput "s9" (sample_world None)))
       = (Ok 0, w2)
       /\ Metadata.getCheckpointMetadata "0a1b2c3d4e5f" sample_head w2 = Some d
       /\ status d = failed /\ timestamp d = 20000.
Proof.
  assert (Hold : forall e,
            In e (records "0a1b2c3d4e5f" (sample_world None)) ->
            Metadata.entry_time e < now (sample_world None)).
  { intros e He. rewrite sample_records in He. simpl in He.
    destruct He as [<-|[<-|[<-|[]]]]; reflexivity. }
  split; [exact Hold|].
  destruct (handlePostToolUse_after_addCheckpoint (sample_site [])
              (write_event (Some (JObj [("success", JBool false)])))
              sample_head "Write" Hook.noInput "s9" (sample_world None)
              eq_refl eq_refl eq_refl eq_refl Hold)
    as (w2 & d & Hrun & Hget & Hst & _ & _ & _ & Hts).
  exists w2, d. repeat split; assumption.
Defined.

Lemma findCheckpointsByFile_finds_added_witness :
  fst (Metadata.acquireLock (sample_world None)) = Ok tt
  /\ exists c,
       In c (Queries.findCheckpointsByFile "0a1b2c3d4e5f" "a.txt"
               (snd (Metadata.addCheckpoint "0a1b2c3d4e5f" sample_head "Write"
                       {| file_path := Some "a.txt"; edits := None;
                          message := None; other_keys := [] |}
                       "s9" (sample_world None))))
       /\ hash c = sample_head.
Proof.
  split; [reflexivity|].
  destruct (findCheckpointsByFile_finds_added "0a1b2c3d4e5f" sample_head
              "Write"
              {| file_path := Some "a.txt"; edits := None; message := None;
                 other_keys := [] |}
              "s9" "a.txt" (sample_world None) eq_refl eq_refl eq_refl
              ltac:(discriminate))
    as (_ & _ & c & Hin & Hhash & _).
  exists c. split; assumption.
Defined.


Lemma directory_patterns_exclude_nothing_witness :
  forallb plain_pattern (Config.exclude_patterns Config.getDefaultConfig)
  = true
  /\ every_part_named
       (relative_of (fun p => p) "build/assets/style.css") = true
  /\ Config.pattern_excludes "build/assets/style.css" "build/" = false
  /\ Config.shouldExcludeFile Config.getDefaultConfig (fun p => p)
       (fun _ => Config.Absent) "build/assets/style.css"
     = Config.shouldExcludeFile
         (without_directory_patterns Config.getDefaultConfig) (fun p => p)
         (fun _ => Config.Absent) "build/assets/style.css".
Proof.
  split; [reflexivity|]. split; [reflexivity|].
  destruct (directory_patterns_exclude_nothing Config.getDefaultConfig
              (fun p => p) (fun _ => Config.Absent) "build/assets/style.css"
              eq_refl eq_refl) as [Hdead Hsame].
  split; [|exact Hsame].
  apply (Hdead "build/"); [simpl; tauto|reflexivity].
Defined.

Lemma copyFilter_blank_line_blocks_all_witness :
  In carriage_return (Sync.split_lines crlf_ignore)
  /\ GitOps.trim carriage_return = ""
  /\ Sync.copyFilter (Sync.gitignorePatterns crlf_ignore) "src/app.ts"
       "app.ts" = false.
Proof.
  assert (Hline : In carriage_return (Sync.split_lines crlf_ignore))
    by (right; left; reflexivity).
  split; [exact Hline|]. split; [reflexivity|].
  exact (proj2 (copyFilter_blank_line_blocks_all crlf_ignore carriage_return
                  "src/app.ts" "app.ts" Hline ltac:(discriminate) eq_refl)).
Defined.

Lemma sample_dir_names : List.NoDup (List.map fst sample_dir).
Proof. vm_compute. repeat constructor; simpl; intuition discriminate. Defined.

Lemma rotateLogIfNeeded_keeps_three_witness :
  List.NoDup (List.map fst sample_dir)
  /\ log_size sample_dir > Log.maxLogSize
  /\ assoc Log.logFile
       (Log.rotateLogIfNeeded (fun x => x) Log.NoFault 1000 sample_dir)
     = None
  /\ length
       (List.filter backup_entry
          (Log.rotateLogIfNeeded (fun x => x) Log.NoFault 1000 sample_dir))
     = 3%nat.
Proof.
  split; [exact sample_dir_names|]. split; [reflexivity|].
  destruct (rotateLogIfNeeded_keeps_three (fun x => x) 1000 sample_dir
              {| Log.size := 11 * 1024 * 1024; Log.mtime := 900 |}
              (fun x => Permutation_refl x) sample_dir_names eq_refl
              eq_refl) as (Hgone & Hcount & _).
  split; [exact Hgone|]. rewrite Hcount. vm_compute. reflexivity.
Defined.

Example rotateLogIfNeeded_sample :
  List.map fst
    (Log.rotateLogIfNeeded (fun x => x) Log.NoFault 1000 sample_dir)
  = ["checkpoint.log.1000.old"; "checkpoint.log.300.old"; "notes.txt";
     "checkpoint.log.400.old"].
Proof. vm_compute. reflexivity. Qed.

Lemma getMostModifiedFiles_tally_witness :
  forallb ordinary_key (all_files sample_edits) = true
  /\ (length (Queries.getMostModifiedFiles sample_edits 1) <= 1)%nat
  /\ List.NoDup (List.map fst (Queries.getMostModifiedFiles sample_edits 5)).
Proof.
  split; [reflexivity|]. split.
  - exact (proj1 (getMostModifiedFiles_tally sample_edits 1 eq_refl)).
  - exact (proj1 (proj2 (getMostModifiedFiles_tally sample_edits 5 eq_refl))).
Defined.

Example getMostModifiedFiles_sample :
  Queries.getMostModifiedFiles sample_edits 5
  = [("src/a.ts", 3); ("src/b.ts", 1)].
Proof. vm_compute. reflexivity. Qed.
